(** * Region Helper: the modifier extractor, the flattened outline items and
    the full-outline store, embedded from the TypeScript sources.

  Strings are sequences of 8-bit code units (the Latin-1 range of the
  UTF-16 code units a JavaScript string is made of); numbers that the code
  only uses as counters, line numbers and versions are [nat]. *)

From Stdlib Require Import String Ascii List Bool Arith Lia ZArith Sorted Permutation.
From Stdlib Require Import Decimal DecimalString DecimalNat.
From stdpp Require Import base decidable option list strings gmap.

Local Open Scope stdpp_scope.

(* ===================================================================== *)
(** * The JavaScript primitives the sources rely on *)
(* ===================================================================== *)
Module JS.

(** ** Completion of a computation that may throw *)
Inductive Outcome (A : Type) : Type :=
| Returned (a : A)
| Thrown (message : string).
Arguments Returned {A} a.
Arguments Thrown {A} message.

Definition bind {A B : Type} (m : Outcome A) (k : A -> Outcome B) : Outcome B :=
  match m with
  | Returned a => k a
  | Thrown e => Thrown e
  end.

#[global] Instance Outcome_ret : MRet Outcome := fun A a => Returned a.
#[global] Instance Outcome_bind : MBind Outcome := fun A B k m => bind m k.
#[global] Instance Outcome_fmap : FMap Outcome :=
  fun A B f m => bind m (fun a => Returned (f a)).

Definition returns {A : Type} (m : Outcome A) : Prop :=
  exists a, m = Returned a.

(** ** Characters *)
Definition code (c : ascii) : nat := nat_of_ascii c.

Definition between (lo hi n : nat) : bool := (lo <=? n) && (n <=? hi).

(** [\w] of a RegExp without the [u] flag: [[A-Za-z0-9_]]. *)
Definition isWordChar (c : ascii) : bool :=
  between 65 90 (code c) || between 97 122 (code c)
  || between 48 57 (code c) || (code c =? 95).

(** [\s] and the characters removed by [trim]: white space and line
    terminators (those of the Latin-1 range). *)
Definition isWhiteSpace (c : ascii) : bool :=
  between 9 13 (code c) || (code c =? 32) || (code c =? 160).

(** Canonicalize of a case-insensitive RegExp (no [u] flag): the simple
    upper-case mapping, when it stays a single code unit.  In the Latin-1
    range this identifies a-z with A-Z and U+00E0-U+00FE (but the division
    sign) with U+00C0-U+00DE; no character above U+007F is sent below. *)
Definition canonicalize (c : ascii) : ascii :=
  if between 97 122 (code c)
     || (between 224 254 (code c) && negb (code c =? 247))
  then ascii_of_nat (code c - 32)
  else c.

(** ** Strings *)
Definition chars (s : string) : list ascii := list_ascii_of_string s.
Definition str (l : list ascii) : string := string_of_list_ascii l.

Fixpoint prefixOf (p s : list ascii) : bool :=
  match p, s with
  | [], _ => true
  | a :: p', b :: s' => Ascii.eqb a b && prefixOf p' s'
  | _ :: _, [] => false
  end.

(** [s.startsWith(search)] *)
Definition startsWith (s search : string) : bool :=
  prefixOf (chars search) (chars s).

(** [s.endsWith(search)]: the comparison starts at
    [s.length - search.length], and fails when that is negative. *)
Definition endsWith (s search : string) : bool :=
  let len := String.length s in
  let searchLength := String.length search in
  (searchLength <=? len)
  && String.eqb (str (drop (len - searchLength) (chars s))) search.

Fixpoint dropWhile {A : Type} (f : A -> bool) (l : list A) : list A :=
  match l with
  | [] => []
  | x :: l' => if f x then dropWhile f l' else l
  end.

(** [s.trim()] *)
Definition trim (s : string) : string :=
  str (rev (dropWhile isWhiteSpace (rev (dropWhile isWhiteSpace (chars s))))).

(** [String(n)] / [`${n}`] for a non-negative integer (below 1e21, where
    JavaScript switches to the exponent notation). *)
Definition Number_toString (n : nat) : string :=
  NilEmpty.string_of_uint (Nat.to_uint n).

(** The line feed. *)
Definition LF : string := String "010"%char EmptyString.

(** [parts.join(sep)] *)
Fixpoint join (sep : string) (parts : list string) : string :=
  match parts with
  | [] => ""
  | [p] => p
  | p :: rest => p +:+ sep +:+ join sep rest
  end.

(** [s.substring(from, to)] for [from <= to]. *)
Definition substring (from to : nat) (s : string) : string :=
  str (take (to - from) (drop from (chars s))).

(** ** Arrays *)
Section Sort.
Context {A : Type} (compareFn : A -> A -> Z).

Fixpoint sortInsert (x : A) (sorted : list A) : list A :=
  match sorted with
  | [] => [x]
  | y :: rest =>
      if (compareFn x y <=? 0)%Z then x :: sorted
      else y :: sortInsert x rest
  end.

(** [array.sort(compareFn)]: the sort is stable (ECMAScript 2019), so for
    a consistent comparator it is the stable insertion sort. *)
Definition Array_sort (l : list A) : list A := foldr sortInsert [] l.
End Sort.

(** ** The regular expressions of the sources

    Every RegExp built by the code is a sequence of literal characters
    (escaped by [escapeRegex] where needed) and [\b] assertions, compiled
    with the [i] flag and without [g], so [test] is stateless. *)
Inductive Atom : Type :=
| Lit (c : ascii)
| WordBoundary.

Definition RegExp := list Atom.

Definition isWordCharAt (c : option ascii) : bool :=
  match c with
  | Some x => isWordChar x
  | None => false
  end.

(** Does the pattern match at this position? [prev] is the character just
    before the position, [rest] the input from the position on. *)
Fixpoint matchHere (p : RegExp) (prev : option ascii) (rest : list ascii) : bool :=
  match p with
  | [] => true
  | WordBoundary :: p' =>
      xorb (isWordCharAt prev) (isWordCharAt (head rest)) && matchHere p' prev rest
  | Lit c :: p' =>
      match rest with
      | x :: rest' =>
          Ascii.eqb (canonicalize c) (canonicalize x) && matchHere p' (Some x) rest'
      | [] => false
      end
  end.

Fixpoint searchFrom (p : RegExp) (prev : option ascii) (rest : list ascii) : bool :=
  matchHere p prev rest
  || match rest with
     | x :: rest' => searchFrom p (Some x) rest'
     | [] => false
     end.

(** [regex.test(text)] *)
Definition RegExp_test (p : RegExp) (text : string) : bool :=
  searchFrom p None (chars text).

(** ** [Map<string, V>]: entries in insertion order *)
Section Map.
Context {V : Type}.

Definition Map := list (string * V).

Definition Map_get (key : string) (m : Map) : option V :=
  snd <$> find (fun kv => String.eqb (fst kv) key) m.

Definition Map_has (key : string) (m : Map) : bool :=
  existsb (fun kv => String.eqb (fst kv) key) m.

(** [set] keeps the position of a key that is present and appends a new
    key at the end. *)
Definition Map_set (key : string) (v : V) (m : Map) : Map :=
  if Map_has key m
  then map (fun kv => if String.eqb (fst kv) key then (key, v) else kv) m
  else m ++ [(key, v)].

Definition Map_delete (key : string) (m : Map) : Map :=
  filter (fun kv => fst kv ≠ key) m.

Definition Map_size (m : Map) : nat := length m.

Definition Map_keys (m : Map) : list string := map fst m.
End Map.
Arguments Map : clear implicits.

End JS.


(* ===================================================================== *)
(** * The part of the editor API the sources use *)
(* ===================================================================== *)
Module Vscode.
Import JS.

Record Position : Type := mkPosition { line : nat; character : nat }.

Record Range : Type := mkRange { start : Position; end_ : Position }.

#[global] Instance Position_eq_dec : EqDecision Position.
Proof. solve_decision. Defined.

#[global] Instance Range_eq_dec : EqDecision Range.
Proof. solve_decision. Defined.

(** [a.compareTo(b)] *)
Definition Position_compareTo (a b : Position) : Z :=
  if line a <? line b then (-1)%Z
  else if line b <? line a then 1%Z
  else if character a <? character b then (-1)%Z
  else if character b <? character a then 1%Z
  else 0%Z.

(** [new vscode.Range(startLine, startCharacter, endLine, endCharacter)]:
    the constructor orders its two positions. *)
Definition Range_new (startLine startCharacter endLine endCharacter : nat) : Range :=
  let a := mkPosition startLine startCharacter in
  let b := mkPosition endLine endCharacter in
  if (Position_compareTo b a <? 0)%Z then mkRange b a else mkRange a b.

Inductive SymbolKind : Type :=
| File | Module_ | Namespace | Package | Class_ | Method | Property | Field
| Constructor | Enum | Interface | Function_ | Variable_ | Constant
| String_ | Number | Boolean | Array | Object | Key | Null | EnumMember
| Struct | Event | Operator | TypeParameter.

Record DocumentSymbol : Type := mkDocumentSymbol {
  name : string;
  kind : SymbolKind;
  range : Range;
  selectionRange : Range
}.

Record TextDocument : Type := mkTextDocument {
  uri : string;            (* [document.uri.toString()] *)
  version : nat;
  languageId : string;
  lines : list string;     (* the text of each line, without terminator *)
  eol : string
}.

Definition lineCount (document : TextDocument) : nat := length (lines document).

(** [document.lineAt(line).text]; the editor throws on a line that is not
    in the document. *)
Definition lineAt (document : TextDocument) (n : nat) : Outcome string :=
  match lines document !! n with
  | Some text => Returned text
  | None => Thrown "Illegal value for `line`"
  end.

Definition lineText (document : TextDocument) (n : nat) : string :=
  default "" (lines document !! n).

(** The editor adjusts a position to the document before it reads text. *)
Definition validatePosition (document : TextDocument) (p : Position) : Position :=
  if lineCount document =? 0 then mkPosition 0 0
  else if lineCount document <=? line p then
    mkPosition (lineCount document - 1)
               (String.length (lineText document (lineCount document - 1)))
  else
    mkPosition (line p)
               (Nat.min (character p) (String.length (lineText document (line p)))).

(** [document.getText(range)] *)
Definition getText (document : TextDocument) (r : Range) : string :=
  let s := validatePosition document (start r) in
  let e := validatePosition document (end_ r) in
  if decide (s = e) then ""
  else if line s =? line e then
    substring (character s) (character e) (lineText document (line s))
  else
    let first := lineText document (line s) in
    join (eol document)
      (substring (character s) (String.length first) first
       :: take (line e - line s - 1) (drop (S (line s)) (lines document))
       ++ [substring 0 (character e) (lineText document (line e))]).

End Vscode.

(* ===================================================================== *)
(** * lib/symbolModifiers/SymbolModifiers.ts *)
(* ===================================================================== *)
Module SymbolModifiers.

Inductive VisibilityModifier : Type :=
| public
| private
| protected
| internal
| protected_internal      (* "protected-internal" *)
| private_protected       (* "private-protected" *)
| package
| default_.               (* "default" *)

#[global] Instance VisibilityModifier_eq_dec : EqDecision VisibilityModifier.
Proof. solve_decision. Defined.

Record MemberModifiers : Type := mkMemberModifiers {
  isStatic : bool;
  isReadonly : bool;
  isConst : bool;
  isAbstract : bool;
  isVirtual : bool;
  isOverride : bool;
  isAsync : bool;
  isSealed : bool;
  isExtern : bool;
  isVolatile : bool;
  isNew : bool
}.

#[global] Instance MemberModifiers_eq_dec : EqDecision MemberModifiers.
Proof. solve_decision. Defined.

Record SymbolModifiers : Type := mkSymbolModifiers {
  visibility : VisibilityModifier;
  memberModifiers : MemberModifiers
}.

#[global] Instance SymbolModifiers_eq_dec : EqDecision SymbolModifiers.
Proof. solve_decision. Defined.

Definition getDefaultModifiers : SymbolModifiers :=
  {| visibility := default_;
     memberModifiers :=
       {| isStatic := false; isReadonly := false; isConst := false;
          isAbstract := false; isVirtual := false; isOverride := false;
          isAsync := false; isSealed := false; isExtern := false;
          isVolatile := false; isNew := false |} |}.

End SymbolModifiers.

(* ===================================================================== *)
(** * lib/symbolModifiers/extractSymbolModifiers.ts *)
(* ===================================================================== *)
Module ExtractSymbolModifiers.
Import JS Vscode SymbolModifiers.

(** [keyof MemberModifiers] *)
Inductive MemberModifierKey : Type :=
| KisStatic | KisReadonly | KisConst | KisAbstract | KisVirtual | KisOverride
| KisAsync | KisSealed | KisExtern | KisVolatile | KisNew.

(** Both keyword tables are object literals: their entries are kept in the
    order they are written, which is the order [Object.keys] and
    [Object.entries] enumerate them in. *)
Record ModifierPatternConfig : Type := mkConfig {
  languages : list string;
  visibilityKeywords : list (string * VisibilityModifier);
  memberKeywords : list (MemberModifierKey * list string)
}.

Definition csharpPatterns : ModifierPatternConfig :=
  {| languages := ["csharp"];
     visibilityKeywords :=
       [ ("public", public);
         ("private", private);
         ("protected", protected);
         ("internal", internal);
         ("protected internal", protected_internal);
         ("internal protected", protected_internal);
         ("private protected", private_protected);
         ("protected private", private_protected) ];
     memberKeywords :=
       [ (KisStatic, ["static"]);
         (KisReadonly, ["readonly"]);
         (KisConst, ["const"]);
         (KisAbstract, ["abstract"]);
         (KisVirtual, ["virtual"]);
         (KisOverride, ["override"]);
         (KisAsync, ["async"]);
         (KisSealed, ["sealed"]);
         (KisExtern, ["extern"]);
         (KisVolatile, ["volatile"]);
         (KisNew, ["new"]) ] |}.

Definition javaPatterns : ModifierPatternConfig :=
  {| languages := ["java"];
     visibilityKeywords :=
       [ ("public", public); ("private", private); ("protected", protected) ];
     memberKeywords :=
       [ (KisStatic, ["static"]);
         (KisConst, ["final"]);
         (KisAbstract, ["abstract"]);
         (KisVolatile, ["volatile"]);
         (KisSealed, ["sealed"]) ] |}.

Definition kotlinPatterns : ModifierPatternConfig :=
  {| languages := ["kotlin"];
     visibilityKeywords :=
       [ ("public", public); ("private", private); ("protected", protected);
         ("internal", internal) ];
     memberKeywords :=
       [ (KisStatic, ["companion"]);
         (KisConst, ["const"; "val"]);
         (KisAbstract, ["abstract"]);
         (KisOverride, ["override"]);
         (KisSealed, ["sealed"]) ] |}.

Definition typescriptPatterns : ModifierPatternConfig :=
  {| languages := ["typescript"; "typescriptreact"; "javascript"; "javascriptreact"];
     visibilityKeywords :=
       [ ("public", public); ("private", private); ("protected", protected) ];
     memberKeywords :=
       [ (KisStatic, ["static"]);
         (KisReadonly, ["readonly"]);
         (KisConst, ["const"]);
         (KisAbstract, ["abstract"]);
         (KisAsync, ["async"]);
         (KisOverride, ["override"]) ] |}.

Definition cppPatterns : ModifierPatternConfig :=
  {| languages := ["cpp"; "c"];
     visibilityKeywords :=
       [ ("public", public); ("private", private); ("protected", protected) ];
     memberKeywords :=
       [ (KisStatic, ["static"]);
         (KisConst, ["const"; "constexpr"]);
         (KisVirtual, ["virtual"]);
         (KisOverride, ["override"]);
         (KisVolatile, ["volatile"]);
         (KisExtern, ["extern"]) ] |}.

Definition pythonPatterns : ModifierPatternConfig :=
  {| languages := ["python"];
     visibilityKeywords := [];
     memberKeywords :=
       [ (KisStatic, ["@staticmethod"; "@classmethod"]);
         (KisAbstract, ["@abstractmethod"]);
         (KisAsync, ["async"]) ] |}.

Definition allPatternConfigs : list ModifierPatternConfig :=
  [ csharpPatterns; javaPatterns; kotlinPatterns; typescriptPatterns;
    cppPatterns; pythonPatterns ].

(** [array.includes(x)] on strings *)
Definition includes (l : list string) (x : string) : bool :=
  existsb (String.eqb x) l.

Definition getPatternConfig (languageId : string) : option ModifierPatternConfig :=
  find (fun config => includes (languages config) languageId) allPatternConfigs.

(** [escapeRegex(str)], compiled: every character of [str] is matched
    literally, the metacharacters because they are escaped. *)
Definition escapeRegex (s : string) : RegExp := map Lit (chars s).

(** [new RegExp(`\\b${escapeRegex(keyword)}\\b`, "i")] *)
Definition wordRegex (keyword : string) : RegExp :=
  WordBoundary :: escapeRegex keyword ++ [WordBoundary].

(** [new RegExp(`@${escapeRegex(keyword)}`, "i")] *)
Definition decoratorRegex (keyword : string) : RegExp :=
  Lit "@" :: escapeRegex keyword.

(** [new RegExp(`\\[${escapeRegex(keyword)}\\]`, "i")] *)
Definition attributeRegex (keyword : string) : RegExp :=
  Lit "[" :: escapeRegex keyword ++ [Lit "]"].

(** [Object.keys(config.visibilityKeywords).sort((a, b) => b.length - a.length)] *)
Definition sortedKeywords (config : ModifierPatternConfig) : list string :=
  Array_sort
    (fun a b => (Z.of_nat (String.length b) - Z.of_nat (String.length a))%Z)
    (map fst (visibilityKeywords config)).

(** [config.visibilityKeywords[keyword]] *)
Definition visibilityOf (config : ModifierPatternConfig) (keyword : string)
  : option VisibilityModifier :=
  snd <$> find (fun kv => String.eqb (fst kv) keyword) (visibilityKeywords config).

Fixpoint firstVisibility (config : ModifierPatternConfig) (text : string)
         (keywords : list string) : option VisibilityModifier :=
  match keywords with
  | [] => None
  | keyword :: rest =>
      if RegExp_test (wordRegex keyword) text then
        match visibilityOf config keyword with
        | Some visibility => Some visibility
        | None => firstVisibility config text rest
        end
      else firstVisibility config text rest
  end.

Definition extractVisibility (text : string) (config : ModifierPatternConfig)
           (languageId : string) : VisibilityModifier :=
  match firstVisibility config text (sortedKeywords config) with
  | Some visibility => visibility
  | None => if String.eqb languageId "java" then default_ else default_
  end.

Definition setMemberModifier (memberModifiers : MemberModifiers)
           (key : MemberModifierKey) : MemberModifiers :=
  let m := memberModifiers in
  match key with
  | KisStatic => mkMemberModifiers true (isReadonly m) (isConst m) (isAbstract m) (isVirtual m) (isOverride m) (isAsync m) (isSealed m) (isExtern m) (isVolatile m) (isNew m)
  | KisReadonly => mkMemberModifiers (isStatic m) true (isConst m) (isAbstract m) (isVirtual m) (isOverride m) (isAsync m) (isSealed m) (isExtern m) (isVolatile m) (isNew m)
  | KisConst => mkMemberModifiers (isStatic m) (isReadonly m) true (isAbstract m) (isVirtual m) (isOverride m) (isAsync m) (isSealed m) (isExtern m) (isVolatile m) (isNew m)
  | KisAbstract => mkMemberModifiers (isStatic m) (isReadonly m) (isConst m) true (isVirtual m) (isOverride m) (isAsync m) (isSealed m) (isExtern m) (isVolatile m) (isNew m)
  | KisVirtual => mkMemberModifiers (isStatic m) (isReadonly m) (isConst m) (isAbstract m) true (isOverride m) (isAsync m) (isSealed m) (isExtern m) (isVolatile m) (isNew m)
  | KisOverride => mkMemberModifiers (isStatic m) (isReadonly m) (isConst m) (isAbstract m) (isVirtual m) true (isAsync m) (isSealed m) (isExtern m) (isVolatile m) (isNew m)
  | KisAsync => mkMemberModifiers (isStatic m) (isReadonly m) (isConst m) (isAbstract m) (isVirtual m) (isOverride m) true (isSealed m) (isExtern m) (isVolatile m) (isNew m)
  | KisSealed => mkMemberModifiers (isStatic m) (isReadonly m) (isConst m) (isAbstract m) (isVirtual m) (isOverride m) (isAsync m) true (isExtern m) (isVolatile m) (isNew m)
  | KisExtern => mkMemberModifiers (isStatic m) (isReadonly m) (isConst m) (isAbstract m) (isVirtual m) (isOverride m) (isAsync m) (isSealed m) true (isVolatile m) (isNew m)
  | KisVolatile => mkMemberModifiers (isStatic m) (isReadonly m) (isConst m) (isAbstract m) (isVirtual m) (isOverride m) (isAsync m) (isSealed m) (isExtern m) true (isNew m)
  | KisNew => mkMemberModifiers (isStatic m) (isReadonly m) (isConst m) (isAbstract m) (isVirtual m) (isOverride m) (isAsync m) (isSealed m) (isExtern m) (isVolatile m) true
  end.

(** The three surface forms tried for one keyword. *)
Definition keywordPatterns (keyword : string) : list RegExp :=
  [ wordRegex keyword; decoratorRegex keyword; attributeRegex keyword ].

(** The body of the loop over the keywords of one modifier: the first
    pattern that matches sets the modifier and ends the pattern loop. *)
Definition applyKeyword (text : string) (modifierKey : MemberModifierKey)
           (memberModifiers : MemberModifiers) (keyword : string) : MemberModifiers :=
  if existsb (fun pattern => RegExp_test pattern text) (keywordPatterns keyword)
  then setMemberModifier memberModifiers modifierKey
  else memberModifiers.

Definition applyEntry (text : string) (memberModifiers : MemberModifiers)
           (entry : MemberModifierKey * list string) : MemberModifiers :=
  let '(modifierKey, keywords) := entry in
  if length keywords =? 0 then memberModifiers
  else foldl (applyKeyword text modifierKey) memberModifiers keywords.

Definition extractMemberModifiers (text : string) (config : ModifierPatternConfig)
           (memberModifiers : MemberModifiers) : MemberModifiers :=
  foldl (applyEntry text) memberModifiers (memberKeywords config).

(** [/^[\s]*[}\])]/.test(lineText)] *)
Definition looksLikeEndOfDeclaration (lineText : string) : bool :=
  match dropWhile isWhiteSpace (chars lineText) with
  | c :: _ => Ascii.eqb c "}" || Ascii.eqb c "]" || Ascii.eqb c ")"
  | [] => false
  end.

(** The backward scan of [getSymbolDeclarationText]:
    [for (let i = 1; i <= 3 && symbolLine - i >= 0; i++)]. [fuel] bounds
    the iterations left, and three are enough since [i] starts at 1. *)
Fixpoint lookBackwards (fuel i symbolLine : nat) (document : TextDocument)
         (startLine : nat) : Outcome nat :=
  match fuel with
  | 0 => Returned startLine
  | S fuel' =>
      if (i <=? 3) && (i <=? symbolLine) then
        let prevLine := symbolLine - i in
        if lineCount document <=? prevLine then Returned startLine
        else
          lineText ← lineAt document prevLine;
          if String.eqb (trim lineText) "" || looksLikeEndOfDeclaration lineText
          then Returned startLine
          else lookBackwards fuel' (S i) symbolLine document prevLine
      else Returned startLine
  end.

Definition getSymbolDeclarationText (symbol : DocumentSymbol)
           (document : TextDocument) : Outcome string :=
  let symbolLine := line (start (selectionRange symbol)) in
  let lineCount := lineCount document in
  if (lineCount =? 0) || (lineCount <=? symbolLine) then Returned ""
  else
    startLine ← lookBackwards 3 1 symbolLine document symbolLine;
    let endLine := Nat.min symbolLine (lineCount - 1) in
    let textRange := Range_new startLine 0 (endLine + 1) 0 in
    Returned (getText document textRange).

Definition applyPythonNamingConventionVisibility (symbol : DocumentSymbol)
           (modifiers : SymbolModifiers) : SymbolModifiers :=
  let name := name symbol in
  if startsWith name "__" && negb (endsWith name "__") then
    mkSymbolModifiers private (memberModifiers modifiers)
  else if startsWith name "_" then
    mkSymbolModifiers protected (memberModifiers modifiers)
  else
    mkSymbolModifiers public (memberModifiers modifiers).

Definition extractSymbolModifiers (symbol : DocumentSymbol)
           (document : TextDocument) : Outcome SymbolModifiers :=
  let modifiers := getDefaultModifiers in
  let languageId := languageId document in
  match getPatternConfig languageId with
  | None => Returned modifiers
  | Some patternConfig =>
      let modifiers :=
        if String.eqb languageId "python"
        then applyPythonNamingConventionVisibility symbol modifiers
        else modifiers in
      text ← getSymbolDeclarationText symbol document;
      let modifiers :=
        if negb (String.eqb languageId "python")
        then mkSymbolModifiers (extractVisibility text patternConfig languageId)
                               (memberModifiers modifiers)
        else modifiers in
      Returned
        (mkSymbolModifiers (visibility modifiers)
           (extractMemberModifiers text patternConfig (memberModifiers modifiers)))
  end.

(** ** The module-level cache *)
Definition getSymbolCacheKey (symbol : DocumentSymbol) (documentVersion : nat)
           (documentUri : string) : string :=
  documentUri +:+ ":" +:+ Number_toString documentVersion
    +:+ ":" +:+ Number_toString (line (start (range symbol)))
    +:+ ":" +:+ Number_toString (character (start (range symbol)))
    +:+ ":" +:+ name symbol.

(** The eviction loop: [for (const key of keysToDelete) modifierCache.delete(key)] *)
Definition deleteKeys (keysToDelete : list string) (cache : Map SymbolModifiers)
  : Map SymbolModifiers :=
  foldl (fun m key => Map_delete key m) cache keysToDelete.

(** The cache is the state threaded through the call. *)
Definition extractSymbolModifiersWithCache (symbol : DocumentSymbol)
           (document : TextDocument) (modifierCache : Map SymbolModifiers)
  : Outcome (SymbolModifiers * Map SymbolModifiers) :=
  let cacheKey := getSymbolCacheKey symbol (version document) (uri document) in
  match Map_get cacheKey modifierCache with
  | Some cached => Returned (cached, modifierCache)
  | None =>
      modifiers ← extractSymbolModifiers symbol document;
      let modifierCache := Map_set cacheKey modifiers modifierCache in
      let modifierCache :=
        if 5000 <? Map_size modifierCache then
          let keysToDelete := take 1000 (Map_keys modifierCache) in
          deleteKeys keysToDelete modifierCache
        else modifierCache in
      Returned (modifiers, modifierCache)
  end.

Definition clearModifierCache (modifierCache : Map SymbolModifiers)
  : Map SymbolModifiers := [].

End ExtractSymbolModifiers.

(* ===================================================================== *)
(** * treeView/fullTreeView/FullTreeItem.ts and getFlattenedFullTreeItems.ts *)
(* ===================================================================== *)
Module FullTreeItems.
Import JS Vscode SymbolModifiers ExtractSymbolModifiers.

Inductive FullTreeItemType : Type := region | symbol.

#[global] Instance FullTreeItemType_eq_dec : EqDecision FullTreeItemType.
Proof. solve_decision. Defined.

(** The string of the union type ["region" | "symbol"]. *)
Definition itemTypeString (t : FullTreeItemType) : string :=
  match t with
  | region => "region"
  | symbol => "symbol"
  end.

(** A [FullTreeItem] object.  [object] is the identity of the JavaScript
    object (what [===] compares); [parent] holds the identity of the parent
    object.  The presentation fields inherited from [vscode.TreeItem]
    (label, command, icon, tooltip, description, collapsible state) are
    left out. *)
#[local] Unset Elimination Schemes.
Inductive FullTreeItem : Type := mkFullTreeItem {
  object : nat;
  id : string;
  displayName : string;
  itemType : FullTreeItemType;
  range : Range;
  parent : option nat;
  children : list FullTreeItem;
  modifiers : SymbolModifiers
}.
#[local] Set Elimination Schemes.

(** [a === b] on [FullTreeItem | undefined] *)
Definition sameObject (a b : option FullTreeItem) : bool :=
  match a, b with
  | None, None => true
  | Some x, Some y => object x =? object y
  | _, _ => false
  end.

(** Value equality of two items: every field but the object identities,
    children compared in order. *)
Fixpoint sameStructure (a b : FullTreeItem) : bool :=
  match a, b with
  | mkFullTreeItem _ ida na ta ra _ ca ma, mkFullTreeItem _ idb nb tb rb _ cb mb =>
      bool_decide (ida = idb) && bool_decide (na = nb) && bool_decide (ta = tb)
      && bool_decide (ra = rb) && bool_decide (ma = mb)
      && (fix all2 (xs ys : list FullTreeItem) : bool :=
            match xs, ys with
            | [], [] => true
            | x :: xs', y :: ys' => sameStructure x y && all2 xs' ys'
            | _, _ => false
            end) ca cb
  end.

Fixpoint sameStructureList (xs ys : list FullTreeItem) : bool :=
  match xs, ys with
  | [], [] => true
  | x :: xs', y :: ys' => sameStructure x y && sameStructureList xs' ys'
  | _, _ => false
  end.

Definition sameStructureOpt (a b : option FullTreeItem) : bool :=
  match a, b with
  | None, None => true
  | Some x, Some y => sameStructure x y
  | _, _ => false
  end.

Definition getPartialTreeItemId (displayName itemKindId : string) : string :=
  itemKindId +:+ "-" +:+ displayName.

Definition getUniqueTreeItemId (partialId : string) (itemCount : nat) : string :=
  partialId +:+ "-" +:+ Number_toString itemCount.

(** [new FullTreeItem({...})] with [parent = undefined] and no children;
    [heap] is the identity given to the new object. *)
Definition getFlattenedFullTreeItem (heap : nat) (id : string)
           (itemType : FullTreeItemType) (displayName : string) (range : Range)
           (modifiers : SymbolModifiers) : FullTreeItem :=
  {| object := heap; id := id; displayName := displayName; itemType := itemType;
     range := range; parent := None; children := []; modifiers := modifiers |}.

(** [getModifierIconConfig] reads the setting [fullOutlineView.modifierDisplay]. *)
Inductive ModifierDisplayMode : Type := off | colorOnly | colorAndDescription.

Record ModifierIconConfig : Type := mkModifierIconConfig {
  showVisibilityColors : bool;
  useDistinctColors : bool;
  showVisibilityBadge : bool;
  showStaticIndicator : bool
}.

Definition getModifierIconConfig (modifierDisplay : ModifierDisplayMode)
           (useDistinctModifierColors : bool) : ModifierIconConfig :=
  {| showVisibilityColors :=
       match modifierDisplay with off => false | _ => true end;
     useDistinctColors := useDistinctModifierColors;
     showVisibilityBadge := false;
     showStaticIndicator :=
       match modifierDisplay with colorAndDescription => true | _ => false end |}.

Section Flatten.
(** Code of the repository that is not among the sources: the region
    model with its display name and range, and the icon id of a symbol
    kind. *)
Context {Region : Type}.
Context (getRegionDisplayName : Region -> string).
Context (getRegionRange : Region -> Range).
Context (getSymbolThemeIconId : SymbolKind -> string).

(** The callback of [flattenedRegions.map(...)], run along the array:
    [itemCountByPartialId] is the map it updates, [heap] the next free
    object identity. *)
Fixpoint flattenRegions (flattenedRegions : list Region)
         (itemCountByPartialId : gmap string nat) (heap : nat)
  : list FullTreeItem * nat :=
  match flattenedRegions with
  | [] => ([], heap)
  | r :: rest =>
      let displayName := getRegionDisplayName r in
      let itemType := region in
      let partialId := getPartialTreeItemId displayName (itemTypeString itemType) in
      let newItemCount := default 0 (itemCountByPartialId !! partialId) + 1 in
      let itemCountByPartialId := <[partialId := newItemCount]> itemCountByPartialId in
      let id := getUniqueTreeItemId partialId newItemCount in
      let item :=
        getFlattenedFullTreeItem heap id itemType displayName (getRegionRange r)
                                 getDefaultModifiers in
      let '(items, heap') := flattenRegions rest itemCountByPartialId (S heap) in
      (item :: items, heap')
  end.

Definition getFlattenedRegionFullTreeItems (flattenedRegions : list Region)
           (heap : nat) : list FullTreeItem * nat :=
  flattenRegions flattenedRegions ∅ heap.

(** The callback of [flattenedDocumentSymbols.map(...)]; it also threads
    the modifier cache. *)
Fixpoint flattenSymbols (flattenedDocumentSymbols : list DocumentSymbol)
         (document : option TextDocument) (modifierConfig : ModifierIconConfig)
         (itemCountByPartialId : gmap string nat)
         (cache : Map SymbolModifiers) (heap : nat)
  : Outcome (list FullTreeItem * Map SymbolModifiers * nat) :=
  match flattenedDocumentSymbols with
  | [] => Returned ([], cache, heap)
  | s :: rest =>
      let displayName := name s in
      let symbolThemeIconId := getSymbolThemeIconId (kind s) in
      let partialId := getPartialTreeItemId displayName symbolThemeIconId in
      let newItemCount := default 0 (itemCountByPartialId !! partialId) + 1 in
      let itemCountByPartialId := <[partialId := newItemCount]> itemCountByPartialId in
      let id := getUniqueTreeItemId partialId newItemCount in
      '(modifiers, cache) ←
        match showVisibilityColors modifierConfig, document with
        | true, Some d => extractSymbolModifiersWithCache s d cache
        | _, _ => Returned (getDefaultModifiers, cache)
        end;
      let item :=
        getFlattenedFullTreeItem heap id symbol (name s) (Vscode.range s) modifiers in
      '(items, cache, heap') ←
        flattenSymbols rest document modifierConfig itemCountByPartialId cache (S heap);
      Returned (item :: items, cache, heap')
  end.

Definition getFlattenedSymbolFullTreeItems
           (flattenedDocumentSymbols : list DocumentSymbol)
           (document : option TextDocument) (modifierConfig : ModifierIconConfig)
           (cache : Map SymbolModifiers) (heap : nat)
  : Outcome (list FullTreeItem * Map SymbolModifiers * nat) :=
  flattenSymbols flattenedDocumentSymbols document modifierConfig ∅ cache heap.
End Flatten.

End FullTreeItems.

(* ===================================================================== *)
(** * state/FullOutlineStore.ts *)
(* ===================================================================== *)
Module FullOutlineStore.
Import JS Vscode SymbolModifiers ExtractSymbolModifiers FullTreeItems.

Definition REFRESH_FULL_OUTLINE_DEBOUNCE_DELAY_MS : nat := 100.
Definition REFRESH_ACTIVE_ITEM_DEBOUNCE_DELAY_MS : nat := 100.

(** A pending [setTimeout(this.refreshActiveItem.bind(this), delay)]. *)
Record Timeout : Type := mkTimeout { delay : nat }.

(** The fields of the store, the two event emitters (as the number of
    [fire()] calls made so far) and the process-wide state its methods
    reach: the modifier cache and the next free object identity. *)
Record State : Type := mkState {
  _topLevelItems : list FullTreeItem;
  _allParentIds : gset string;
  _activeItem : option FullTreeItem;
  _documentId : option string;
  _versionedDocumentId : option string;
  isRefreshingItems : bool;
  refreshActiveItemTimeout : option Timeout;
  firedDidChangeFullOutlineItems : nat;
  firedDidChangeActiveFullOutlineItem : nat;
  modifierCache : Map SymbolModifiers;
  nextObject : nat
}.

Definition set_topLevelItems (v : list FullTreeItem) (s : State) : State :=
  mkState v (_allParentIds s) (_activeItem s) (_documentId s)
    (_versionedDocumentId s) (isRefreshingItems s)
    (refreshActiveItemTimeout s) (firedDidChangeFullOutlineItems s)
    (firedDidChangeActiveFullOutlineItem s) (modifierCache s) (nextObject s).

Definition set_allParentIds (v : gset string) (s : State) : State :=
  mkState (_topLevelItems s) v (_activeItem s) (_documentId s)
    (_versionedDocumentId s) (isRefreshingItems s)
    (refreshActiveItemTimeout s) (firedDidChangeFullOutlineItems s)
    (firedDidChangeActiveFullOutlineItem s) (modifierCache s) (nextObject s).

Definition set_activeItem (v : option FullTreeItem) (s : State) : State :=
  mkState (_topLevelItems s) (_allParentIds s) v (_documentId s)
    (_versionedDocumentId s) (isRefreshingItems s)
    (refreshActiveItemTimeout s) (firedDidChangeFullOutlineItems s)
    (firedDidChangeActiveFullOutlineItem s) (modifierCache s) (nextObject s).

Definition set_documentId (v : option string) (s : State) : State :=
  mkState (_topLevelItems s) (_allParentIds s) (_activeItem s) v
    (_versionedDocumentId s) (isRefreshingItems s)
    (refreshActiveItemTimeout s) (firedDidChangeFullOutlineItems s)
    (firedDidChangeActiveFullOutlineItem s) (modifierCache s) (nextObject s).

Definition set_versionedDocumentId (v : option string) (s : State) : State :=
  mkState (_topLevelItems s) (_allParentIds s) (_activeItem s) (_documentId s)
    v (isRefreshingItems s) (refreshActiveItemTimeout s)
    (firedDidChangeFullOutlineItems s) (firedDidChangeActiveFullOutlineItem s)
    (modifierCache s) (nextObject s).

Definition set_isRefreshingItems (v : bool) (s : State) : State :=
  mkState (_topLevelItems s) (_allParentIds s) (_activeItem s) (_documentId s)
    (_versionedDocumentId s) v (refreshActiveItemTimeout s)
    (firedDidChangeFullOutlineItems s) (firedDidChangeActiveFullOutlineItem s)
    (modifierCache s) (nextObject s).

Definition set_refreshActiveItemTimeout (v : option Timeout) (s : State) : State :=
  mkState (_topLevelItems s) (_allParentIds s) (_activeItem s) (_documentId s)
    (_versionedDocumentId s) (isRefreshingItems s) v
    (firedDidChangeFullOutlineItems s) (firedDidChangeActiveFullOutlineItem s)
    (modifierCache s) (nextObject s).

Definition set_firedDidChangeFullOutlineItems (v : nat) (s : State) : State :=
  mkState (_topLevelItems s) (_allParentIds s) (_activeItem s) (_documentId s)
    (_versionedDocumentId s) (isRefreshingItems s)
    (refreshActiveItemTimeout s) v (firedDidChangeActiveFullOutlineItem s)
    (modifierCache s) (nextObject s).

Definition set_firedDidChangeActiveFullOutlineItem (v : nat) (s : State) : State :=
  mkState (_topLevelItems s) (_allParentIds s) (_activeItem s) (_documentId s)
    (_versionedDocumentId s) (isRefreshingItems s)
    (refreshActiveItemTimeout s) (firedDidChangeFullOutlineItems s) v
    (modifierCache s) (nextObject s).

Definition set_modifierCache (v : Map SymbolModifiers) (s : State) : State :=
  mkState (_topLevelItems s) (_allParentIds s) (_activeItem s) (_documentId s)
    (_versionedDocumentId s) (isRefreshingItems s)
    (refreshActiveItemTimeout s) (firedDidChangeFullOutlineItems s)
    (firedDidChangeActiveFullOutlineItem s) v (nextObject s).

Definition set_nextObject (v : nat) (s : State) : State :=
  mkState (_topLevelItems s) (_allParentIds s) (_activeItem s) (_documentId s)
    (_versionedDocumentId s) (isRefreshingItems s)
    (refreshActiveItemTimeout s) (firedDidChangeFullOutlineItems s)
    (firedDidChangeActiveFullOutlineItem s) (modifierCache s) v.

(** The field initialisers of the class, for a process whose cache holds
    [cache] and whose next free object identity is [heap]. *)
Definition initialState (cache : Map SymbolModifiers) (heap : nat) : State :=
  {| _topLevelItems := []; _allParentIds := ∅; _activeItem := None;
     _documentId := None; _versionedDocumentId := None;
     isRefreshingItems := false; refreshActiveItemTimeout := None;
     firedDidChangeFullOutlineItems := 0;
     firedDidChangeActiveFullOutlineItem := 0;
     modifierCache := cache; nextObject := heap |}.

(** [vscode.TextEditor]: [editorObject] is the identity of the object. *)
Record TextEditor : Type := mkTextEditor {
  editorObject : nat;
  document : TextDocument;
  selectionActive : Position       (* [editor.selection.active] *)
}.

Record TextEditorSelectionChangeEvent : Type := mkSelectionChangeEvent {
  textEditor : TextEditor
}.

(** [items.sort((a, b) => a.range.start.compareTo(b.range.start))] *)
Definition sortFullTreeItemsByStart (items : list FullTreeItem) : list FullTreeItem :=
  Array_sort
    (fun a b => Position_compareTo (start (FullTreeItems.range a))
                                   (start (FullTreeItems.range b)))
    items.

Section Store.
(** Code of the repository that is not among the sources. *)
Context {Region CollapsibleStateManager : Type}.
Context (getRegionDisplayName : Region -> string).
Context (getRegionRange : Region -> Range).
Context (getSymbolThemeIconId : SymbolKind -> string).
Context (generateFullOutlineTreeItems :
           list FullTreeItem -> list FullTreeItem -> CollapsibleStateManager ->
           option string -> list FullTreeItem * gset string).
Context (getActiveFullTreeItem :
           list FullTreeItem -> Position -> option FullTreeItem).

(** What the store reads from its collaborators and from the editor. *)
Record RegionStore : Type := mkRegionStore {
  rs_documentId : option string;
  rs_versionedDocumentId : option string;
  flattenedRegions : list Region
}.

Record DocumentSymbolStore : Type := mkDocumentSymbolStore {
  ds_versionedDocumentId : option string;
  flattenedDocumentSymbols : list DocumentSymbol
}.

Record Environment : Type := mkEnvironment {
  regionStore : RegionStore;
  documentSymbolStore : DocumentSymbolStore;
  collapsibleStateManager : CollapsibleStateManager;
  activeTextEditor : option TextEditor;    (* [vscode.window.activeTextEditor] *)
  modifierDisplay : ModifierDisplayMode;
  useDistinctModifierColors : bool
}.

Definition clearRefreshActiveItemTimeoutIfExists (s : State) : State :=
  match refreshActiveItemTimeout s with
  | Some _ => set_refreshActiveItemTimeout None s
  | None => s
  end.

Definition refreshActiveItem (env : Environment) (s : State) : State :=
  let s := clearRefreshActiveItemTimeoutIfExists s in
  match selectionActive <$> activeTextEditor env with
  | None => s
  | Some cursorPosition =>
      let oldActiveItem := _activeItem s in
      let s := set_activeItem
                 (getActiveFullTreeItem (_topLevelItems s) cursorPosition) s in
      if negb (sameObject (_activeItem s) oldActiveItem)
      then set_firedDidChangeActiveFullOutlineItem
             (S (firedDidChangeActiveFullOutlineItem s)) s
      else s
  end.

Definition refreshItems (env : Environment) (s : State) : Outcome State :=
  let s := set_isRefreshingItems true s in
  let '(flattenedRegionItems, heap) :=
    getFlattenedRegionFullTreeItems getRegionDisplayName getRegionRange
      (flattenedRegions (regionStore env)) (nextObject s) in
  let s := set_nextObject heap s in
  let activeDocument := document <$> activeTextEditor env in
  '(flattenedSymbolItems, cache, heap) ←
    getFlattenedSymbolFullTreeItems getSymbolThemeIconId
      (flattenedDocumentSymbols (documentSymbolStore env)) activeDocument
      (getModifierIconConfig (modifierDisplay env) (useDistinctModifierColors env))
      (modifierCache s) (nextObject s);
  let s := set_nextObject heap (set_modifierCache cache s) in
  let flattenedRegionItems := sortFullTreeItemsByStart flattenedRegionItems in
  let flattenedSymbolItems := sortFullTreeItemsByStart flattenedSymbolItems in
  let '(topLevelItems, allParentIds) :=
    generateFullOutlineTreeItems flattenedRegionItems flattenedSymbolItems
      (collapsibleStateManager env) (_documentId s) in
  let s := set_topLevelItems topLevelItems s in
  let s := set_allParentIds allParentIds s in
  let s := set_firedDidChangeFullOutlineItems
             (S (firedDidChangeFullOutlineItems s)) s in
  Returned (set_isRefreshingItems false s).

Definition refreshFullOutline (env : Environment) (s : State) : Outcome State :=
  let regionStoreVersionedDocumentId := rs_versionedDocumentId (regionStore env) in
  let documentSymbolStoreVersionedDocumentId :=
    ds_versionedDocumentId (documentSymbolStore env) in
  if bool_decide (regionStoreVersionedDocumentId
                  ≠ documentSymbolStoreVersionedDocumentId)
  then Returned s
  else
    let s := set_documentId (rs_documentId (regionStore env)) s in
    let s := set_versionedDocumentId regionStoreVersionedDocumentId s in
    s ← refreshItems env s;
    Returned (refreshActiveItem env s).

Definition debouncedRefreshActiveItem (s : State) : State :=
  let s := clearRefreshActiveItemTimeoutIfExists s in
  set_refreshActiveItemTimeout
    (Some (mkTimeout REFRESH_ACTIVE_ITEM_DEBOUNCE_DELAY_MS)) s.

(** [event.textEditor === vscode.window.activeTextEditor] *)
Definition isActiveTextEditor (env : Environment) (editor : TextEditor) : bool :=
  match activeTextEditor env with
  | Some active => editorObject editor =? editorObject active
  | None => false
  end.

Definition onSelectionChange (env : Environment)
           (event : TextEditorSelectionChangeEvent) (s : State) : State :=
  if isRefreshingItems s then s
  else if isActiveTextEditor env (textEditor event)
       then debouncedRefreshActiveItem s
       else s.

(** The pending timer elapses: its callback runs. *)
Definition refreshActiveItemTimeoutElapses (env : Environment) (s : State) : State :=
  match refreshActiveItemTimeout s with
  | Some _ => refreshActiveItem env s
  | None => s
  end.
End Store.

Arguments RegionStore Region : clear implicits.
Arguments DocumentSymbolStore : clear implicits.
Arguments Environment Region CollapsibleStateManager : clear implicits.

End FullOutlineStore.

(* ===================================================================== *)
(** * The collaborators of the store that are not among the sources *)
(* ===================================================================== *)
Module OutlineModel.
Import JS Vscode SymbolModifiers FullTreeItems FullOutlineStore.

(** Modelled from the spec: models/Region.ts, lib/getRegionDisplayInfo.ts and
    lib/getRegionRange.ts are not among the sources.  Section 3 gives a
    region a name and a range; a region is taken here as the flattening sees
    it, by the display name and the range the two functions return for it. *)
Definition Region : Type := string * Range.

(** Modelled from the spec: see [Region]. *)
Definition getRegionDisplayName (r : Region) : string := fst r.

(** Modelled from the spec: see [Region]. *)
Definition getRegionRange (r : Region) : Range := snd r.

(** Modelled from the spec: utils/themeIconUtils.ts is not among the sources.
    The icon ids are those the sources mention for a symbol kind
    ("symbol-boolean", "symbol-method", "symbol-namespace"); the generic
    symbol icon stands for the kinds they do not mention. *)
Definition getSymbolThemeIconId (k : SymbolKind) : string :=
  match k with
  | Boolean => "symbol-boolean"
  | Method => "symbol-method"
  | Namespace => "symbol-namespace"
  | _ => "symbol-misc"
  end.

Definition setParentAndChildren (item : FullTreeItem) (parent : option nat)
           (children : list FullTreeItem) : FullTreeItem :=
  {| object := object item; id := id item; displayName := displayName item;
     itemType := itemType item; range := FullTreeItems.range item;
     parent := parent; children := children; modifiers := modifiers item |}.

(** [a.isAfter(b)] *)
Definition isAfter (a b : Position) : bool := (0 <? Position_compareTo a b)%Z.

(** Modelled from the spec: treeView/fullTreeView/generateTopLevelFullTreeItems.ts
    is not among the sources.  Section 4.5: the items are walked in combined
    start order with a stack of open containers; the stack is popped while
    the item starts beyond the end of the top container, the item becomes a
    child of the new top (or a top-level item) and is pushed in its turn.
    The stack is the recursion here: [nest] returns the items attached under
    [container] and the items left for the containers below it. *)
Fixpoint nest (fuel : nat) (container : option FullTreeItem)
         (items : list FullTreeItem) : list FullTreeItem * list FullTreeItem :=
  match fuel with
  | 0 => ([], items)
  | S fuel' =>
      match items with
      | [] => ([], [])
      | item :: rest =>
          let beyond :=
            match container with
            | Some c => isAfter (start (FullTreeItems.range item))
                                (end_ (FullTreeItems.range c))
            | None => false
            end in
          if beyond then ([], items)
          else
            let '(kids, rest1) := nest fuel' (Some item) rest in
            let node := setParentAndChildren item (object <$> container) kids in
            let '(siblings, rest2) := nest fuel' container rest1 in
            (node :: siblings, rest2)
      end
  end.

(** The ids of the items that have at least one child. *)
Fixpoint parentIds (item : FullTreeItem) : list string :=
  match item with
  | mkFullTreeItem _ i _ _ _ _ kids _ =>
      (if length kids =? 0 then [] else [i])
      ++ (fix go (l : list FullTreeItem) : list string :=
            match l with
            | [] => []
            | k :: l' => parentIds k ++ go l'
            end) kids
  end.

(** Modelled from the spec: treeView/fullTreeView/generateTopLevelFullTreeItems.ts
    is not among the sources.  Section 4.5: the two lists are merged in start
    order, regions first among the items that start at the same position,
    and nested by [nest]; [allParentIds] collects the ids of the items with
    at least one child. *)
Definition generateFullOutlineTreeItems (flattenedRegionItems flattenedSymbolItems
    : list FullTreeItem) (collapsibleStateManager : unit) (documentId : option string)
  : list FullTreeItem * gset string :=
  let items := sortFullTreeItemsByStart (flattenedRegionItems ++ flattenedSymbolItems) in
  let topLevelItems := fst (nest (S (length items)) None items) in
  (topLevelItems, list_to_set (concat (map parentIds topLevelItems))).

Definition containsLine (item : FullTreeItem) (cursor : Position) : bool :=
  (line (start (FullTreeItems.range item)) <=? line cursor)
  && (line cursor <=? line (end_ (FullTreeItems.range item))).

(** Modelled from the spec: treeView/fullTreeView/getActiveFullTreeItem.ts is
    not among the sources.  Glossary: the active item is the innermost
    outline item containing the current cursor line, found (section 4.3) by
    descending from the roots into whichever child contains the line. *)
Fixpoint activeWithin (item : FullTreeItem) (cursor : Position) : option FullTreeItem :=
  match item with
  | mkFullTreeItem _ _ _ _ _ _ kids _ =>
      if containsLine item cursor then
        Some (default item
                ((fix go (l : list FullTreeItem) : option FullTreeItem :=
                    match l with
                    | [] => None
                    | k :: l' =>
                        match activeWithin k cursor with
                        | Some a => Some a
                        | None => go l'
                        end
                    end) kids))
      else None
  end.

(** Modelled from the spec: treeView/fullTreeView/getActiveFullTreeItem.ts is
    not among the sources.  The first root that contains the cursor line is
    searched by [activeWithin]. *)
Fixpoint getActiveFullTreeItem (topLevelItems : list FullTreeItem)
         (cursorPosition : Position) : option FullTreeItem :=
  match topLevelItems with
  | [] => None
  | item :: rest =>
      match activeWithin item cursorPosition with
      | Some a => Some a
      | None => getActiveFullTreeItem rest cursorPosition
      end
  end.

(** The store with these collaborators. *)
Definition refreshFullOutline :=
  FullOutlineStore.refreshFullOutline getRegionDisplayName getRegionRange
    getSymbolThemeIconId generateFullOutlineTreeItems getActiveFullTreeItem.

End OutlineModel.

(* ===================================================================== *)
(** * The notions the properties are stated with *)
(* ===================================================================== *)
Module Statements.
Import JS Vscode SymbolModifiers ExtractSymbolModifiers FullTreeItems.

Definition hasPrefix (p s : string) : Prop := exists r, s = p +:+ r.
Definition hasSuffix (p s : string) : Prop := exists r, s = r +:+ p.

(** Two texts that differ at most in the case of their letters. *)
Definition sameLetters (a b : string) : Prop :=
  map canonicalize (chars a) = map canonicalize (chars b).

(** [keyword] stands in [text] as a whole word, in any letter case: no
    word character touches the occurrence on either side. *)
Definition occursAsWord (keyword text : string) : Prop :=
  exists pre mid post,
    text = pre +:+ mid +:+ post
    /\ sameLetters mid keyword
    /\ isWordCharAt (last (chars pre)) = false
    /\ isWordCharAt (head (chars post)) = false.

(** The caches a process can hold: the module starts with an empty map,
    and only the two exported functions touch it. *)
Inductive cacheReachable : Map SymbolModifiers -> Prop :=
| reachable_initial : cacheReachable []
| reachable_extract symbol document cache modifiers cache' :
    cacheReachable cache ->
    extractSymbolModifiersWithCache symbol document cache
      = Returned (modifiers, cache') ->
    cacheReachable cache'
| reachable_clear cache :
    cacheReachable cache -> cacheReachable (clearModifierCache cache).

(** How many of the first [S i] strings are equal to [p]. *)
Definition occurrencesUpTo (p : string) (i : nat) (l : list string) : nat :=
  length (filter (fun q => q = p) (take (S i) l)).

(** The id of the [i]-th region item, from its name and its rank among the
    regions of that name. *)
Definition regionItemId (names : list string) (i : nat) (name : string) : string :=
  "region" +:+ "-" +:+ name +:+ "-" +:+ Number_toString (occurrencesUpTo name i names).

(** The id of the [i]-th item of a list, from its partial id and its rank
    among the items of that partial id. *)
Definition rankedItemId (partialIds : list string) (i : nat) (partialId : string)
  : string :=
  partialId +:+ "-" +:+ Number_toString (occurrencesUpTo partialId i partialIds).

Definition regionPartialId {Region : Type} (getRegionDisplayName : Region -> string)
           (r : Region) : string :=
  getPartialTreeItemId (getRegionDisplayName r) "region".

Definition symbolPartialId (getSymbolThemeIconId : Vscode.SymbolKind -> string)
           (s : DocumentSymbol) : string :=
  getPartialTreeItemId (name s) (getSymbolThemeIconId (kind s)).

(** The counter of the two flattenings, on the partial ids alone. *)
Fixpoint assignIds (partialIds : list string) (counts : gmap string nat)
  : list string :=
  match partialIds with
  | [] => []
  | p :: rest =>
      let n := default 0 (counts !! p) + 1 in
      getUniqueTreeItemId p n :: assignIds rest (<[p := n]> counts)
  end.

(** The order of the visibility keywords: longer ones first. *)
Definition longerFirst (a b : string) : Prop := String.length b <= String.length a.

Definition byLengthDescending (a b : string) : Z :=
  (Z.of_nat (String.length b) - Z.of_nat (String.length a))%Z.

(** The character before a position that lies [l] after a position whose
    previous character is [prev]. *)
Definition lastOr (prev : option ascii) (l : list ascii) : option ascii :=
  match last l with
  | Some x => Some x
  | None => prev
  end.

Definition notHyphen (c : ascii) : Prop := c <> "-"%char.

(** Value-equality gating of the two change events between a state and
    the state a recomputation leaves: the event has fired exactly when its
    value differs structurally from the previous one. *)
Definition outlineEventGatedByValue (before after : FullOutlineStore.State) : Prop :=
  FullOutlineStore.firedDidChangeFullOutlineItems after
    <> FullOutlineStore.firedDidChangeFullOutlineItems before
  <-> sameStructureList (FullOutlineStore._topLevelItems after)
                        (FullOutlineStore._topLevelItems before) = false.

Definition activeEventGatedByValue (before after : FullOutlineStore.State) : Prop :=
  FullOutlineStore.firedDidChangeActiveFullOutlineItem after
    <> FullOutlineStore.firedDidChangeActiveFullOutlineItem before
  <-> sameStructureOpt (FullOutlineStore._activeItem after)
                       (FullOutlineStore._activeItem before) = false.

End Statements.

(* ===================================================================== *)
(** * A small editing session *)
(* ===================================================================== *)
Module Scenario.
Import JS Vscode SymbolModifiers FullTreeItems FullOutlineStore.

Definition sampleDocument : TextDocument :=
  mkTextDocument "file:///sample.ts" 5 "typescript"
    ["// #region Imports"; "import * as fs from 'fs';"; "// #endregion"] LF.

(** Both stores have parsed version 5 of the document, which has one
    region and no symbol; the cursor is inside the region. *)
Definition agreeingEnvironment : Environment OutlineModel.Region unit :=
  mkEnvironment
    (mkRegionStore (Some "file:///sample.ts") (Some "file:///sample.ts@5")
                   [("Imports", Range_new 0 0 2 13)])
    (mkDocumentSymbolStore (Some "file:///sample.ts@5") [])
    tt
    (Some (mkTextEditor 0 sampleDocument (mkPosition 1 0)))
    colorOnly true.

(** The symbol store still holds version 4. *)
Definition laggingEnvironment : Environment OutlineModel.Region unit :=
  mkEnvironment
    (mkRegionStore (Some "file:///sample.ts") (Some "file:///sample.ts@5")
                   [("Imports", Range_new 0 0 2 13)])
    (mkDocumentSymbolStore (Some "file:///sample.ts@4") [])
    tt
    (Some (mkTextEditor 0 sampleDocument (mkPosition 1 0)))
    colorOnly true.

(** The store once the outline of version 5 has been published. *)
Definition publishedState : State :=
  match OutlineModel.refreshFullOutline agreeingEnvironment (initialState [] 0) with
  | Returned s => s
  | Thrown _ => initialState [] 0
  end.

(** The store after one more refresh of the same, unchanged document. *)
Definition republishedState : State :=
  match OutlineModel.refreshFullOutline agreeingEnvironment publishedState with
  | Returned s => s
  | Thrown _ => publishedState
  end.

End Scenario.

(* ===================================================================== *)
(** * utils/themeIconUtils.ts *)
(* ===================================================================== *)
Module ThemeIconUtils.
Import Vscode.

(** Modelled from the spec: utils/themeIconUtils.ts is not among the
    sources.  The spec speaks of a kind identifier only, and the sources name
    the icon id of a symbol kind by example ("symbol-boolean",
    "symbol-method", "symbol-namespace").
    The table continues those examples with the editor's icon of each kind:
    "symbol-" followed by the name of the kind in lower case, its words
    joined by hyphens.  On the three kinds of the examples it agrees with
    [OutlineModel.getSymbolThemeIconId], which gives every other kind one
    generic icon. *)
Definition getSymbolThemeIconId (symbolKind : SymbolKind) : string :=
  match symbolKind with
  | File => "symbol-file"
  | Module_ => "symbol-module"
  | Namespace => "symbol-namespace"
  | Package => "symbol-package"
  | Class_ => "symbol-class"
  | Method => "symbol-method"
  | Property => "symbol-property"
  | Field => "symbol-field"
  | Constructor => "symbol-constructor"
  | Enum => "symbol-enum"
  | Interface => "symbol-interface"
  | Function_ => "symbol-function"
  | Variable_ => "symbol-variable"
  | Constant => "symbol-constant"
  | String_ => "symbol-string"
  | Number => "symbol-number"
  | Boolean => "symbol-boolean"
  | Array => "symbol-array"
  | Object => "symbol-object"
  | Key => "symbol-key"
  | Null => "symbol-null"
  | EnumMember => "symbol-enum-member"
  | Struct => "symbol-struct"
  | Event => "symbol-event"
  | Operator => "symbol-operator"
  | TypeParameter => "symbol-type-parameter"
  end.

End ThemeIconUtils.

(* ===================================================================== *)
(** * The notions the ids of the symbol items are stated with *)
(* ===================================================================== *)
Module IdStatements.
Import JS Vscode SymbolModifiers FullTreeItems Statements.

(** How many of the first [S i] symbols have the kind identifier and the
    name of [s]: the rank of the [i]-th symbol [s] among the symbols of its
    kind and name. *)
Definition kindAndNameOccurrencesUpTo (getSymbolThemeIconId : SymbolKind -> string)
           (s : DocumentSymbol) (i : nat) (symbols : list DocumentSymbol) : nat :=
  length (filter (fun q => getSymbolThemeIconId (kind q) = getSymbolThemeIconId (kind s)
                           /\ name q = name s)
                 (take (S i) symbols)).

(** The id of the [i]-th symbol item, from its kind identifier, its name
    and its rank among the symbols of that kind and name. *)
Definition symbolItemId (getSymbolThemeIconId : SymbolKind -> string)
           (symbols : list DocumentSymbol) (i : nat) (s : DocumentSymbol) : string :=
  getSymbolThemeIconId (kind s) +:+ "-" +:+ name s +:+ "-"
    +:+ Number_toString (kindAndNameOccurrencesUpTo getSymbolThemeIconId s i symbols).

(** The partial ids of the list tell its kinds and names apart: two symbols
    of the list with the same partial id have the same kind identifier and
    the same name. *)
Definition partialIdsSeparate (getSymbolThemeIconId : SymbolKind -> string)
           (symbols : list DocumentSymbol) : Prop :=
  forall s s',
    s ∈ symbols -> s' ∈ symbols ->
    symbolPartialId getSymbolThemeIconId s = symbolPartialId getSymbolThemeIconId s' ->
    getSymbolThemeIconId (kind s) = getSymbolThemeIconId (kind s') /\ name s = name s'.

(** The reading of the ids by kind and name: the id of every symbol item is
    made of its kind identifier, its name and its rank among the symbols of
    that kind and name. *)
Definition idsFollowKindAndName (getSymbolThemeIconId : SymbolKind -> string) : Prop :=
  forall symbols document modifierConfig cache heap items cache' heap' (i : nat) s item,
    getFlattenedSymbolFullTreeItems getSymbolThemeIconId symbols document
      modifierConfig cache heap
    = Returned (items, cache', heap') ->
    symbols !! i = Some s ->
    items !! i = Some item ->
    id item = symbolItemId getSymbolThemeIconId symbols i s.

(** Stability by kind and name: two symbol items, of one generation or of
    two, whose symbols have the same kind identifier, the same name and the
    same rank among the symbols of that kind and name have the same id. *)
Definition idsStableByKindAndName (getSymbolThemeIconId : SymbolKind -> string) : Prop :=
  forall symbols1 document1 modifierConfig1 cache1 heap1 items1 cache1' heap1'
         symbols2 document2 modifierConfig2 cache2 heap2 items2 cache2' heap2'
         (i j : nat) s1 s2 item1 item2,
    getFlattenedSymbolFullTreeItems getSymbolThemeIconId symbols1 document1
      modifierConfig1 cache1 heap1
    = Returned (items1, cache1', heap1') ->
    getFlattenedSymbolFullTreeItems getSymbolThemeIconId symbols2 document2
      modifierConfig2 cache2 heap2
    = Returned (items2, cache2', heap2') ->
    symbols1 !! i = Some s1 ->
    symbols2 !! j = Some s2 ->
    items1 !! i = Some item1 ->
    items2 !! j = Some item2 ->
    getSymbolThemeIconId (kind s1) = getSymbolThemeIconId (kind s2) ->
    name s1 = name s2 ->
    kindAndNameOccurrencesUpTo getSymbolThemeIconId s1 i symbols1
    = kindAndNameOccurrencesUpTo getSymbolThemeIconId s2 j symbols2 ->
    id item1 = id item2.

(** The symbols of [enum Color { Red, Red }] under a class, and the two
    symbols whose partial ids meet: the enum member [X] and an enum that a
    symbol provider names [member-X]. *)
Definition enumColor : DocumentSymbol :=
  mkDocumentSymbol "Color" Enum (Range_new 1 0 4 1) (Range_new 1 5 1 10).

Definition memberRed : DocumentSymbol :=
  mkDocumentSymbol "Red" EnumMember (Range_new 2 2 2 5) (Range_new 2 2 2 5).

Definition memberRedAgain : DocumentSymbol :=
  mkDocumentSymbol "Red" EnumMember (Range_new 3 2 3 5) (Range_new 3 2 3 5).

Definition classPalette : DocumentSymbol :=
  mkDocumentSymbol "Palette" Class_ (Range_new 0 0 9 1) (Range_new 0 6 0 13).

Definition memberX : DocumentSymbol :=
  mkDocumentSymbol "X" EnumMember (Range_new 5 2 5 3) (Range_new 5 2 5 3).

Definition enumMemberX : DocumentSymbol :=
  mkDocumentSymbol "member-X" Enum (Range_new 1 0 3 1) (Range_new 1 5 1 13).

(** The symbol items of a list of symbols, flattened without a document. *)
Definition symbolItemsOf (symbols : list DocumentSymbol) : list FullTreeItem :=
  match getFlattenedSymbolFullTreeItems ThemeIconUtils.getSymbolThemeIconId symbols
          None (getModifierIconConfig off true) [] 0 with
  | Returned (items, _, _) => items
  | Thrown _ => []
  end.

End IdStatements.

(* ===================================================================== *)
(** * Two documents whose cache keys meet *)
(* ===================================================================== *)
Module KeyScenario.
Import JS Vscode SymbolModifiers.

(** A document served by the host [box], at version 22, with a property
    that its symbol provider names [4:run]. *)
Definition hostDocument : TextDocument :=
  mkTextDocument "memfs://box" 22 "typescript"
    ["class Ports {"; "  private static '4:run' = 1;"; "}"] LF.

Definition hostSymbol : DocumentSymbol :=
  mkDocumentSymbol "4:run" Property (Range_new 1 2 1 29) (Range_new 1 17 1 24).

(** A document served through port 22 of the same host, at version 1:
    [uri.toString()] leaves the colon before a port as it is. *)
Definition portDocument : TextDocument :=
  mkTextDocument "memfs://box:22" 1 "typescript"
    ["class Jobs {"; "  // entry point"; "    public run() {}"; "}"] LF.

Definition portSymbol : DocumentSymbol :=
  mkDocumentSymbol "run" Method (Range_new 2 4 2 19) (Range_new 2 11 2 14).

End KeyScenario.

(* ===================================================================== *)
(** * A cache filled to its bound *)
(* ===================================================================== *)
Module CacheRun.
Import JS Vscode SymbolModifiers ExtractSymbolModifiers.

(** A document in a language without a pattern table, and the symbols a
    provider reports for it under the names 0, 1, 2, ... *)
Definition plainDocument : TextDocument :=
  mkTextDocument "file:///notes.txt" 3 "plaintext" ["alpha"; "beta"] LF.

Definition numberedSymbol (i : nat) : DocumentSymbol :=
  mkDocumentSymbol (Number_toString i) Key (Range_new 0 0 0 5) (Range_new 0 0 0 5).

Definition numberedKey (i : nat) : string :=
  getSymbolCacheKey (numberedSymbol i) (version plainDocument) (uri plainDocument).

(** The cache after the calls for the symbols 0, ..., [n - 1]. *)
Definition numberedCache (n : nat) : Map SymbolModifiers :=
  map (fun i => (numberedKey i, getDefaultModifiers)) (seq 0 n).

End CacheRun.

(* ===================================================================== *)
(** * lib/symbolModifiers/SymbolModifiers.ts and modifierIcons.ts: how
    modifiers are shown *)
(* ===================================================================== *)
Module ModifierRendering.
Import JS Vscode SymbolModifiers ExtractSymbolModifiers FullTreeItems.

(** The string a [VisibilityModifier] is at run time. *)
Definition visibilityString (v : VisibilityModifier) : string :=
  match v with
  | public => "public"
  | private => "private"
  | protected => "protected"
  | internal => "internal"
  | protected_internal => "protected-internal"
  | private_protected => "private-protected"
  | package => "package"
  | default_ => "default"
  end.

Definition hasAnyModifier (modifiers : SymbolModifiers) : bool :=
  if negb (bool_decide (visibility modifiers = default_)) then true
  else
    let memberModifiers := memberModifiers modifiers in
    isStatic memberModifiers
    || isReadonly memberModifiers
    || isConst memberModifiers
    || isAbstract memberModifiers
    || isVirtual memberModifiers
    || isOverride memberModifiers
    || isAsync memberModifiers
    || isSealed memberModifiers
    || isExtern memberModifiers
    || isVolatile memberModifiers
    || isNew memberModifiers.

Definition formatVisibility (v : VisibilityModifier) : string :=
  match v with
  | protected_internal => "protected internal"
  | private_protected => "private protected"
  | _ => visibilityString v
  end.

(** [if (cond) parts.push(word)] *)
Definition pushIf (cond : bool) (word : string) (parts : list string) : list string :=
  if cond then parts ++ [word] else parts.

Definition getModifierDescription (modifiers : SymbolModifiers) : string :=
  let parts : list string := [] in
  let parts :=
    pushIf (negb (bool_decide (visibility modifiers = default_)))
           (formatVisibility (visibility modifiers)) parts in
  let memberModifiers := memberModifiers modifiers in
  let parts := pushIf (isStatic memberModifiers) "static" parts in
  let parts := pushIf (isAbstract memberModifiers) "abstract" parts in
  let parts := pushIf (isVirtual memberModifiers) "virtual" parts in
  let parts := pushIf (isOverride memberModifiers) "override" parts in
  let parts := pushIf (isSealed memberModifiers) "sealed" parts in
  let parts := pushIf (isReadonly memberModifiers) "readonly" parts in
  let parts := pushIf (isConst memberModifiers) "const" parts in
  let parts := pushIf (isAsync memberModifiers) "async" parts in
  let parts := pushIf (isExtern memberModifiers) "extern" parts in
  let parts := pushIf (isVolatile memberModifiers) "volatile" parts in
  let parts := pushIf (isNew memberModifiers) "new" parts in
  join " " parts.

Definition VISIBILITY_COLORS (v : VisibilityModifier) : option string :=
  match v with
  | public => Some "symbolIcon.methodForeground"
  | private => Some "symbolIcon.fieldForeground"
  | protected => Some "symbolIcon.propertyForeground"
  | internal => Some "symbolIcon.moduleForeground"
  | protected_internal => Some "symbolIcon.propertyForeground"
  | private_protected => Some "symbolIcon.fieldForeground"
  | package => Some "symbolIcon.moduleForeground"
  | default_ => None
  end.

Definition VISIBILITY_COLORS_DISTINCT (v : VisibilityModifier) : option string :=
  match v with
  | public => Some "charts.green"
  | private => Some "charts.red"
  | protected => Some "charts.yellow"
  | internal => Some "charts.blue"
  | protected_internal => Some "charts.orange"
  | private_protected => Some "charts.purple"
  | package => Some "charts.blue"
  | default_ => None
  end.

(** [new vscode.ThemeIcon(id)] and
    [new vscode.ThemeIcon(id, new vscode.ThemeColor(colorId))] *)
Record ThemeIcon : Type := mkThemeIcon { iconId : string; color : option string }.

(** The declared result is [vscode.ThemeIcon | undefined]. *)
Definition createModifierAwareIcon (baseIconId : string) (modifiers : SymbolModifiers)
           (config : ModifierIconConfig) : option ThemeIcon :=
  if negb (hasAnyModifier modifiers) && negb (showVisibilityColors config)
  then Some (mkThemeIcon baseIconId None)
  else
    let colorId : option string :=
      if showVisibilityColors config
         && negb (bool_decide (visibility modifiers = default_))
      then
        let colorMap :=
          if useDistinctColors config then VISIBILITY_COLORS_DISTINCT
          else VISIBILITY_COLORS in
        colorMap (visibility modifiers)
      else None in
    match colorId with
    | Some c =>
        if negb (String.eqb c "") then Some (mkThemeIcon baseIconId (Some c))
        else Some (mkThemeIcon baseIconId None)
    | None => Some (mkThemeIcon baseIconId None)
    end.

Definition createModifierTooltip (baseTooltip : string) (modifiers : SymbolModifiers)
  : string :=
  let modifierDesc := getModifierDescription modifiers in
  if String.eqb modifierDesc "" then baseTooltip
  else "[" +:+ modifierDesc +:+ "] " +:+ baseTooltip.

Definition createModifierDescription (modifiers : SymbolModifiers)
           (config : ModifierIconConfig) : option string :=
  let parts : list string := [] in
  let parts :=
    pushIf (showStaticIndicator config && isStatic (memberModifiers modifiers))
           "static" parts in
  let parts :=
    if isReadonly (memberModifiers modifiers) then parts ++ ["readonly"]
    else if isConst (memberModifiers modifiers) then parts ++ ["const"]
    else parts in
  let parts := pushIf (isAbstract (memberModifiers modifiers)) "abstract" parts in
  let parts := pushIf (isAsync (memberModifiers modifiers)) "async" parts in
  if length parts =? 0 then None else Some (join ", " parts).

End ModifierRendering.

(* ===================================================================== *)
(** * More notions for the properties *)
(* ===================================================================== *)
Module MoreStatements.
Import JS Vscode SymbolModifiers ExtractSymbolModifiers FullTreeItems FullOutlineStore.

(** The flag of a member modifier. *)
Definition getFlag (key : MemberModifierKey) (m : MemberModifiers) : bool :=
  match key with
  | KisStatic => isStatic m
  | KisReadonly => isReadonly m
  | KisConst => isConst m
  | KisAbstract => isAbstract m
  | KisVirtual => isVirtual m
  | KisOverride => isOverride m
  | KisAsync => isAsync m
  | KisSealed => isSealed m
  | KisExtern => isExtern m
  | KisVolatile => isVolatile m
  | KisNew => isNew m
  end.

#[global] Instance MemberModifierKey_eq_dec : EqDecision MemberModifierKey.
Proof. solve_decision. Defined.

(** One of the three surface forms of [keyword] is found in [text]. *)
Definition keywordFound (text keyword : string) : bool :=
  existsb (fun pattern => RegExp_test pattern text) (keywordPatterns keyword).

(** What may stand just before an [@] for a decorator keyword to be found:
    a word character, another [@] or an opening bracket. *)
Definition gluesDecorator (prev : option ascii) : bool :=
  match prev with
  | Some c => isWordChar c || Ascii.eqb c "@" || Ascii.eqb c "["
  | None => false
  end.

(** Every [@] of the text stands at its start or after a character that is
    neither a word character, nor [@], nor an opening bracket. *)
Fixpoint atSignsStandAloneFrom (prev : option ascii) (l : list ascii) : bool :=
  match l with
  | [] => true
  | c :: l' =>
      (if Ascii.eqb c "@" then negb (gluesDecorator prev) else true)
      && atSignsStandAloneFrom (Some c) l'
  end.

Definition atSignsStandAlone (text : string) : bool :=
  atSignsStandAloneFrom None (chars text).

(** A line at which the backward scan of the declaration text stops. *)
Definition stopsScan (lineText : string) : bool :=
  String.eqb (trim lineText) "" || looksLikeEndOfDeclaration lineText.

(** Positions in document order. *)
Definition Position_le (a b : Position) : Prop :=
  line a < line b \/ (line a = line b /\ character a <= character b).

Definition startsNoLater (a b : FullTreeItem) : Prop :=
  Position_le (start (FullTreeItems.range a)) (start (FullTreeItems.range b)).

(** An item as the flattening leaves it: no parent and no children yet. *)
Definition isLoose (item : FullTreeItem) : Prop :=
  parent item = None /\ children item = [].

(** [onDocumentChange(event)]; [ofActiveDocument] is the outcome of
    [event.document === vscode.window.activeTextEditor?.document]. *)
Definition onDocumentChange (ofActiveDocument : bool) (s : State) : State :=
  if ofActiveDocument then clearRefreshActiveItemTimeoutIfExists s else s.

(** [dispose()], as far as the fields of the store go: the pending timer is
    cleared (the debounced refresh and the two emitters are not part of the
    state). *)
Definition dispose (s : State) : State := clearRefreshActiveItemTimeoutIfExists s.

Section StoreRuns.
Context {Region CollapsibleStateManager : Type}.
Context (getRegionDisplayName : Region -> string).
Context (getRegionRange : Region -> Range).
Context (getSymbolThemeIconId : SymbolKind -> string).
Context (generateFullOutlineTreeItems :
           list FullTreeItem -> list FullTreeItem -> CollapsibleStateManager ->
           option string -> list FullTreeItem * gset string).
Context (getActiveFullTreeItem :
           list FullTreeItem -> Position -> option FullTreeItem).

(** The states a store can be in between two callbacks.  It is created in
    a process whose modifier cache is reachable; each step is one of the
    callbacks it registers, run to its end in some state of its
    collaborators, or a use of the process-wide modifier cache by other
    code. *)
Inductive storeReachable : State -> Prop :=
| store_created cache heap :
    Statements.cacheReachable cache ->
    storeReachable (initialState cache heap)
| store_refreshFullOutline (env : Environment Region CollapsibleStateManager) s s' :
    storeReachable s ->
    refreshFullOutline getRegionDisplayName getRegionRange getSymbolThemeIconId
      generateFullOutlineTreeItems getActiveFullTreeItem env s = Returned s' ->
    storeReachable s'
| store_onSelectionChange (env : Environment Region CollapsibleStateManager) event s :
    storeReachable s ->
    storeReachable (onSelectionChange env event s)
| store_timeoutElapses (env : Environment Region CollapsibleStateManager) s :
    storeReachable s ->
    storeReachable (refreshActiveItemTimeoutElapses getActiveFullTreeItem env s)
| store_onDocumentChange ofActiveDocument s :
    storeReachable s ->
    storeReachable (onDocumentChange ofActiveDocument s)
| store_dispose s :
    storeReachable s ->
    storeReachable (dispose s)
| store_cacheUsedElsewhere s cache :
    storeReachable s ->
    Statements.cacheReachable cache ->
    storeReachable (set_modifierCache cache s).
End StoreRuns.

End MoreStatements.

(* ===================================================================== *)
(** * Strings and regular expressions *)
(* ===================================================================== *)
Section StringFacts.
Import JS Statements.

Lemma str_chars (s : string) : str (chars s) = s.
Proof. apply string_of_list_ascii_of_string. Qed.

Lemma chars_str (l : list ascii) : chars (str l) = l.
Proof. apply list_ascii_of_string_of_list_ascii. Qed.

Lemma chars_inj (a b : string) : chars a = chars b -> a = b.
Proof. intros E. rewrite <- (str_chars a), <- (str_chars b). now rewrite E. Qed.

Lemma chars_app (a b : string) : chars (a +:+ b) = chars a ++ chars b.
Proof.
  induction a as [|c a IH]; [reflexivity|].
  change (chars (String c (a +:+ b)) = c :: (chars a ++ chars b)).
  unfold chars in *. simpl. now rewrite IH.
Qed.

Lemma length_chars (s : string) : length (chars s) = String.length s.
Proof. induction s as [|c s IH]; [reflexivity|]. unfold chars in *. simpl. now rewrite IH. Qed.

Lemma prefixOf_spec (p s : list ascii) :
  prefixOf p s = true <-> exists r, s = p ++ r.
Proof.
  revert s. induction p as [|a p IH]; intros s; simpl.
  - split; [intros _; now exists s | reflexivity].
  - destruct s as [|b s].
    + split; [discriminate | intros [r Hr]; discriminate].
    + rewrite andb_true_iff, Ascii.eqb_eq, IH. split.
      * intros [-> [r ->]]. now exists r.
      * intros [r Hr]. injection Hr as -> ->. split; [reflexivity | now exists r].
Qed.

Lemma startsWith_spec (s search : string) :
  startsWith s search = true <-> hasPrefix search s.
Proof.
  unfold startsWith, hasPrefix. rewrite prefixOf_spec. split.
  - intros [r Hr]. exists (str r). apply chars_inj.
    now rewrite chars_app, chars_str.
  - intros [r ->]. exists (chars r). apply chars_app.
Qed.

Lemma endsWith_spec (s search : string) :
  endsWith s search = true <-> hasSuffix search s.
Proof.
  unfold endsWith, hasSuffix.
  rewrite andb_true_iff, Nat.leb_le, String.eqb_eq. split.
  - intros [Hle E]. remember (String.length s - String.length search) as n.
    exists (str (take n (chars s))).
    apply chars_inj. rewrite chars_app, chars_str, <- E, chars_str.
    now rewrite take_drop.
  - intros [r ->]. rewrite <- !length_chars, chars_app, length_app. split; [lia|].
    replace (length (chars r) + length (chars search) - length (chars search))
      with (length (chars r)) by lia.
    rewrite drop_app_length. apply str_chars.
Qed.

(** *** Case-insensitive matching *)
Lemma isWordChar_canonicalize (c : ascii) :
  isWordChar (canonicalize c) = isWordChar c.
Proof. destruct c as [[] [] [] [] [] [] [] []]; reflexivity. Qed.

Lemma canonicalize_idem (c : ascii) :
  canonicalize (canonicalize c) = canonicalize c.
Proof. destruct c as [[] [] [] [] [] [] [] []]; reflexivity. Qed.

Lemma isWordCharAt_canonical (a b : option ascii) :
  canonicalize <$> a = canonicalize <$> b -> isWordCharAt a = isWordCharAt b.
Proof.
  destruct a as [x|], b as [y|]; simpl; try discriminate; [|reflexivity].
  intros [= E]. now rewrite <- (isWordChar_canonicalize x), E, isWordChar_canonicalize.
Qed.

Lemma matchHere_canonical (p : RegExp) :
  forall prev prev' rest rest',
    canonicalize <$> prev = canonicalize <$> prev' ->
    map canonicalize rest = map canonicalize rest' ->
    matchHere p prev rest = matchHere p prev' rest'.
Proof.
  induction p as [|[c|] p IH]; intros prev prev' rest rest' Hp Hr; simpl.
  - reflexivity.
  - destruct rest as [|x rest], rest' as [|y rest']; try discriminate; [reflexivity|].
    simpl in Hr. injection Hr as Hx Hr. rewrite Hx.
    f_equal. apply IH; [simpl; now rewrite Hx | assumption].
  - rewrite (isWordCharAt_canonical prev prev' Hp).
    rewrite (isWordCharAt_canonical (head rest) (head rest')).
    + f_equal. now apply IH.
    + destruct rest, rest'; try discriminate; [reflexivity|].
      simpl in *. injection Hr as Hx _. now rewrite Hx.
Qed.

Lemma searchFrom_canonical (p : RegExp) :
  forall rest rest' prev prev',
    canonicalize <$> prev = canonicalize <$> prev' ->
    map canonicalize rest = map canonicalize rest' ->
    searchFrom p prev rest = searchFrom p prev' rest'.
Proof.
  induction rest as [|x rest IH]; intros rest' prev prev' Hp Hr;
    destruct rest' as [|y rest']; try discriminate; simpl.
  - f_equal. now apply matchHere_canonical.
  - f_equal; [now apply matchHere_canonical|].
    simpl in Hr. injection Hr as Hx Hr. apply IH; [simpl; now rewrite Hx | assumption].
Qed.

Lemma RegExp_test_sameLetters (p : RegExp) (text text' : string) :
  sameLetters text text' -> RegExp_test p text = RegExp_test p text'.
Proof. intros H. unfold RegExp_test. now apply searchFrom_canonical. Qed.

(** *** An occurrence between word boundaries is found *)
Lemma lastOr_cons prev x l : lastOr prev (x :: l) = lastOr (Some x) l.
Proof.
  unfold lastOr. destruct l as [|y l]; [reflexivity|].
  rewrite last_cons. destruct (last (y :: l)) eqn:E; [reflexivity|].
  now apply last_None in E.
Qed.

Lemma searchFrom_skip (p : RegExp) (pre rest : list ascii) :
  forall prev,
    matchHere p (lastOr prev pre) rest = true ->
    searchFrom p prev (pre ++ rest) = true.
Proof.
  induction pre as [|x pre IH]; intros prev H.
  - change (matchHere p prev rest = true) in H.
    destruct rest; simpl; rewrite H; reflexivity.
  - rewrite lastOr_cons in H. simpl. rewrite (IH _ H). apply orb_true_r.
Qed.

Lemma matchHere_literals (kw : list ascii) (q : RegExp) :
  forall mid prev post,
    map canonicalize mid = map canonicalize kw ->
    matchHere (map Lit kw ++ q) prev (mid ++ post)
    = matchHere q (lastOr prev mid) post.
Proof.
  induction kw as [|c kw IH]; intros mid prev post E;
    destruct mid as [|x mid]; try discriminate.
  - reflexivity.
  - simpl in E. injection E as Ex E. simpl. rewrite Ex, Ascii.eqb_refl. simpl.
    rewrite lastOr_cons. now apply IH.
Qed.
End StringFacts.

(* ===================================================================== *)
(** * The modifier extractor *)
(* ===================================================================== *)
Section ExtractorFacts.
Import JS Vscode SymbolModifiers ExtractSymbolModifiers Statements.

Lemma lineAt_returns (document : TextDocument) (n : nat) :
  returns (lineAt document n) <-> n < lineCount document.
Proof.
  unfold lineAt, lineCount, returns. split.
  - intros [text H]. destruct (lines document !! n) eqn:E; [|discriminate].
    apply lookup_lt_Some in E. exact E.
  - intros H. apply lookup_lt_is_Some in H as [text ->]. now exists text.
Qed.

Lemma lookBackwards_returns (document : TextDocument) (symbolLine : nat) :
  forall fuel i startLine,
    returns (lookBackwards fuel i symbolLine document startLine).
Proof.
  induction fuel as [|fuel IH]; intros i startLine; simpl.
  - now exists startLine.
  - destruct ((i <=? 3) && (i <=? symbolLine)); [|now exists startLine].
    destruct (Nat.leb_spec (lineCount document) (symbolLine - i)) as [Hge|Hlt];
      [now exists startLine|].
    apply lineAt_returns in Hlt as [text ->]. simpl.
    destruct (_ || _); [now exists startLine | apply IH].
Qed.

Lemma getSymbolDeclarationText_returns (symbol : DocumentSymbol)
      (document : TextDocument) :
  returns (getSymbolDeclarationText symbol document).
Proof.
  unfold getSymbolDeclarationText.
  destruct (_ || _); [now exists ""|].
  destruct (lookBackwards_returns document
              (line (start (selectionRange symbol))) 3 1
              (line (start (selectionRange symbol)))) as [startLine ->].
  simpl. eexists. reflexivity.
Qed.

Lemma extractSymbolModifiers_returns (symbol : DocumentSymbol)
      (document : TextDocument) :
  returns (extractSymbolModifiers symbol document).
Proof.
  unfold extractSymbolModifiers.
  destruct (getPatternConfig (languageId document)); [|eexists; reflexivity].
  destruct (getSymbolDeclarationText_returns symbol document) as [text ->].
  simpl. eexists. reflexivity.
Qed.

Lemma includes_In (l : list string) (x : string) :
  includes l x = true <-> In x l.
Proof.
  unfold includes. rewrite existsb_exists. split.
  - intros [y [Hy E]]. apply String.eqb_eq in E. now subst.
  - intros H. exists x. split; [assumption | apply String.eqb_refl].
Qed.

Lemma getPatternConfig_None (languageId : string) :
  getPatternConfig languageId = None
  <-> forall config, In config allPatternConfigs -> ~ In languageId (languages config).
Proof.
  unfold getPatternConfig. split.
  - intros H config Hin Hl.
    apply (find_none _ _ H) in Hin. apply includes_In in Hl. congruence.
  - intros H. destruct (find _ _) eqn:E; [|reflexivity].
    apply find_some in E as [Hin Hl]. apply includes_In in Hl.
    now destruct (H _ Hin).
Qed.

(** C10.  A symbol whose selection range starts at or past the line count,
    or a document without lines, gives the empty declaration text; and no
    call ever asks the document for a line it does not have: [lineAt]
    throws exactly on such a line, and neither [getSymbolDeclarationText]
    nor [extractSymbolModifiers] ever throws. *)
Theorem declaration_text_within_bounds :
  (forall symbol document,
      lineCount document = 0
      \/ lineCount document <= line (start (selectionRange symbol)) ->
      getSymbolDeclarationText symbol document = Returned "")
  /\ (forall document n, returns (lineAt document n) <-> n < lineCount document)
  /\ (forall symbol document, returns (getSymbolDeclarationText symbol document))
  /\ (forall symbol document, returns (extractSymbolModifiers symbol document)).
Proof.
  split; [|split; [|split]].
  - intros symbol document H. unfold getSymbolDeclarationText.
    destruct H as [H|H].
    + rewrite H. reflexivity.
    + apply Nat.leb_le in H. rewrite H, orb_true_r. reflexivity.
  - apply lineAt_returns.
  - apply getSymbolDeclarationText_returns.
  - apply extractSymbolModifiers_returns.
Qed.

Lemma declaration_text_within_bounds_witness :
  getSymbolDeclarationText
    (mkDocumentSymbol "f" Function_ (Range_new 7 0 9 1) (Range_new 7 9 7 10))
    (mkTextDocument "file:///a.ts" 1 "typescript" ["function g() {}"; ""] LF)
  = Returned ""
  /\ getSymbolDeclarationText
       (mkDocumentSymbol "f" Function_ (Range_new 0 0 0 1) (Range_new 0 0 0 1))
       (mkTextDocument "file:///empty.ts" 1 "typescript" [] LF)
     = Returned "".
Proof.
  split.
  - apply (proj1 declaration_text_within_bounds). right. vm_compute. lia.
  - apply (proj1 declaration_text_within_bounds). left. reflexivity.
Defined.

(** C5.  For a language identifier that no entry of the pattern table
    lists, [extractSymbolModifiers] returns (it does not throw) the default
    modifiers: visibility "default" and every member flag false. *)
Theorem unsupported_language_gives_default_modifiers :
  forall symbol document,
    (forall config, In config allPatternConfigs ->
                    ~ In (languageId document) (languages config)) ->
    extractSymbolModifiers symbol document = Returned getDefaultModifiers
    /\ visibility getDefaultModifiers = default_
    /\ memberModifiers getDefaultModifiers
       = mkMemberModifiers false false false false false false false false
                           false false false.
Proof.
  intros symbol document H. apply getPatternConfig_None in H.
  unfold extractSymbolModifiers. rewrite H. repeat split.
Qed.

Lemma unsupported_language_gives_default_modifiers_witness :
  extractSymbolModifiers
    (mkDocumentSymbol "main" Function_ (Range_new 0 0 2 1) (Range_new 0 3 0 7))
    (mkTextDocument "file:///main.rs" 1 "rust"
       ["pub fn main() {"; "}"] LF)
  = Returned getDefaultModifiers.
Proof.
  apply unsupported_language_gives_default_modifiers.
  intros config Hin Hl. vm_compute in Hin.
  repeat (destruct Hin as [<-|Hin];
          [vm_compute in Hl; repeat (destruct Hl as [Hl|Hl]; [discriminate|]);
           exact Hl|]).
  exact Hin.
Defined.

(** C3.  For a Python document the visibility of a symbol is decided by its
    name alone: a leading double underscore without a trailing double
    underscore gives "private"; otherwise a leading underscore gives
    "protected"; every other name gives "public". *)
Theorem python_visibility_from_name :
  forall symbol document,
    languageId document = "python" ->
    exists modifiers,
      extractSymbolModifiers symbol document = Returned modifiers
      /\ (hasPrefix "__" (name symbol) /\ ~ hasSuffix "__" (name symbol) ->
          visibility modifiers = private)
      /\ (~ (hasPrefix "__" (name symbol) /\ ~ hasSuffix "__" (name symbol)) ->
          hasPrefix "_" (name symbol) ->
          visibility modifiers = protected)
      /\ (~ hasPrefix "_" (name symbol) -> visibility modifiers = public).
Proof.
  intros symbol document Hpy.
  unfold extractSymbolModifiers. rewrite Hpy.
  change (getPatternConfig "python") with (Some pythonPatterns).
  destruct (getSymbolDeclarationText_returns symbol document) as [text ->].
  change (String.eqb "python" "python") with true. simpl negb. cbv iota.
  eexists. split; [reflexivity|].
  cbn [visibility]. unfold applyPythonNamingConventionVisibility.
  assert (Hweak : hasPrefix "__" (name symbol) -> hasPrefix "_" (name symbol)).
  { intros [r ->]. now exists ("_" +:+ r). }
  rewrite <- !startsWith_spec, <- endsWith_spec in *.
  destruct (startsWith (name symbol) "__");
    destruct (endsWith (name symbol) "__");
    destruct (startsWith (name symbol) "_"); simpl;
    repeat split; intros; try reflexivity;
    try tauto; try discriminate; try (exfalso; intuition congruence).
Qed.

Lemma python_visibility_from_name_witness :
  exists modifiers,
    extractSymbolModifiers
      (mkDocumentSymbol "__secret" Method (Range_new 1 2 2 8) (Range_new 1 6 1 14))
      (mkTextDocument "file:///a.py" 3 "python"
         ["class A:"; "  def __secret(self):"; "    pass"] LF)
    = Returned modifiers
    /\ visibility modifiers = private.
Proof.
  destruct (python_visibility_from_name
              (mkDocumentSymbol "__secret" Method (Range_new 1 2 2 8) (Range_new 1 6 1 14))
              (mkTextDocument "file:///a.py" 3 "python"
                 ["class A:"; "  def __secret(self):"; "    pass"] LF) eq_refl) as [modifiers [E [Hprivate _]]].
  exists modifiers. split; [exact E|].
  apply Hprivate. split.
  - exists "secret". reflexivity.
  - intros Hs. apply endsWith_spec in Hs. vm_compute in Hs. discriminate.
Defined.

(** The three names of the scenario. *)
Example python_scenario_names :
  let document := mkTextDocument "file:///a.py" 1 "python" ["def f(): pass"] LF in
  let symbolNamed n :=
    mkDocumentSymbol n Function_ (Range_new 0 0 0 13) (Range_new 0 4 0 5) in
  visibility <$> extractSymbolModifiers (symbolNamed "__secret") document
    = Returned private
  /\ visibility <$> extractSymbolModifiers (symbolNamed "_helper") document
     = Returned protected
  /\ visibility <$> extractSymbolModifiers (symbolNamed "run") document
     = Returned public.
Proof. vm_compute. repeat split. Qed.
End ExtractorFacts.

Section KeywordFacts.
Import JS Vscode SymbolModifiers ExtractSymbolModifiers Statements.

Lemma head_map_canonicalize (l : list ascii) :
  head (map canonicalize l) = canonicalize <$> head l.
Proof. now destruct l. Qed.

Lemma last_map_canonicalize (l : list ascii) :
  last (map canonicalize l) = canonicalize <$> last l.
Proof.
  induction l as [|x [|y l] IH]; [reflexivity..|].
  change (map canonicalize (x :: y :: l))
    with (canonicalize x :: map canonicalize (y :: l)).
  change (last (canonicalize x :: map canonicalize (y :: l)))
    with (last (map canonicalize (y :: l))).
  exact IH.
Qed.

Lemma sameLetters_head (a b : string) :
  sameLetters a b -> isWordCharAt (head (chars a)) = isWordCharAt (head (chars b)).
Proof.
  intros H. apply isWordCharAt_canonical.
  rewrite <- !head_map_canonicalize. now rewrite H.
Qed.

Lemma sameLetters_last (a b : string) :
  sameLetters a b -> isWordCharAt (last (chars a)) = isWordCharAt (last (chars b)).
Proof.
  intros H. apply isWordCharAt_canonical.
  rewrite <- !last_map_canonicalize. now rewrite H.
Qed.

(** A keyword that starts and ends with a word character is found by its
    [\b...\b] pattern wherever it stands as a whole word. *)
Lemma wordRegex_finds_whole_word (keyword text : string) :
  isWordCharAt (head (chars keyword)) = true ->
  isWordCharAt (last (chars keyword)) = true ->
  occursAsWord keyword text ->
  RegExp_test (wordRegex keyword) text = true.
Proof.
  intros Hfirst Hlast (pre & mid & post & -> & Hsame & Hpre & Hpost).
  rewrite <- (sameLetters_head _ _ Hsame) in Hfirst.
  rewrite <- (sameLetters_last _ _ Hsame) in Hlast.
  unfold RegExp_test. rewrite !chars_app. apply searchFrom_skip.
  assert (Hprev : lastOr None (chars pre) = last (chars pre)).
  { unfold lastOr. now destruct (last (chars pre)). }
  rewrite Hprev. unfold wordRegex, escapeRegex.
  change (matchHere (WordBoundary :: ?p) ?prev ?rest)
    with (xorb (isWordCharAt prev) (isWordCharAt (head rest)) && matchHere p prev rest).
  assert (Hhead : head (chars mid ++ chars post) = head (chars mid)).
  { destruct (chars mid); [discriminate Hfirst | reflexivity]. }
  rewrite Hhead, Hpre, Hfirst. simpl xorb. simpl andb.
  rewrite matchHere_literals by exact Hsame.
  assert (Hmid : lastOr (last (chars pre)) (chars mid) = last (chars mid)).
  { unfold lastOr. destruct (last (chars mid)); [reflexivity | discriminate Hlast]. }
  simpl. rewrite Hmid, Hlast, Hpost. reflexivity.
Qed.

(** *** The order in which the visibility keywords are tried *)
Lemma sortInsert_Permutation (x : string) (l : list string) :
  sortInsert byLengthDescending x l ≡ₚ x :: l.
Proof.
  induction l as [|y l IH]; simpl; [reflexivity|].
  destruct (_ <=? 0)%Z; [reflexivity|].
  rewrite IH. apply perm_swap.
Qed.

Lemma sortInsert_sorted (x : string) (l : list string) :
  StronglySorted longerFirst l ->
  StronglySorted longerFirst (sortInsert byLengthDescending x l).
Proof.
  induction 1 as [|y l Hsorted IH Hall]; simpl.
  - repeat constructor.
  - destruct (Z.leb_spec (byLengthDescending x y) 0) as [Hle|Hgt];
      unfold byLengthDescending in *.
    + constructor; [now constructor|]. constructor; [unfold longerFirst; lia|].
      eapply Forall_impl; [exact Hall|]. unfold longerFirst. intros z Hz. lia.
    + constructor; [exact IH|].
      rewrite sortInsert_Permutation. constructor; [unfold longerFirst; lia | exact Hall].
Qed.

Lemma sortedKeywords_longest_first (config : ModifierPatternConfig) :
  StronglySorted longerFirst (sortedKeywords config)
  /\ sortedKeywords config ≡ₚ map fst (visibilityKeywords config).
Proof.
  unfold sortedKeywords. fold byLengthDescending.
  induction (map fst (visibilityKeywords config)) as [|k l [IHs IHp]]; simpl.
  - split; constructor.
  - split; [now apply sortInsert_sorted|].
    rewrite sortInsert_Permutation. now constructor.
Qed.

Lemma sortedKeywords_csharp :
  sortedKeywords csharpPatterns
  = [ "protected internal"; "internal protected"; "private protected";
      "protected private"; "protected"; "internal"; "private"; "public" ].
Proof. reflexivity. Qed.

Lemma firstVisibility_cons config text keyword rest :
  firstVisibility config text (keyword :: rest)
  = if RegExp_test (wordRegex keyword) text then
      match visibilityOf config keyword with
      | Some visibility => Some visibility
      | None => firstVisibility config text rest
      end
    else firstVisibility config text rest.
Proof. reflexivity. Qed.

(** C6.  The visibility keywords are tried longest first (the order is a
    rearrangement of the table's keywords by decreasing length), so a C#
    declaration text in which "protected internal" (or "internal
    protected") stands as a whole word yields "protected-internal", and one
    in which "private protected" (or "protected private") stands yields a
    combined modifier as well: never the single word "protected",
    "internal" or "private". *)
Theorem combined_visibility_keyword_wins :
  (forall config,
      StronglySorted longerFirst (sortedKeywords config)
      /\ sortedKeywords config ≡ₚ map fst (visibilityKeywords config))
  /\ (forall text,
         occursAsWord "protected internal" text
         \/ occursAsWord "internal protected" text ->
         extractVisibility text csharpPatterns "csharp" = protected_internal)
  /\ (forall text,
         occursAsWord "private protected" text
         \/ occursAsWord "protected private" text ->
         extractVisibility text csharpPatterns "csharp"
         = if RegExp_test (wordRegex "protected internal") text
              || RegExp_test (wordRegex "internal protected") text
           then protected_internal
           else private_protected).
Proof.
  split; [exact sortedKeywords_longest_first|].
  split; intros text H; unfold extractVisibility;
    rewrite sortedKeywords_csharp, !firstVisibility_cons;
    change (visibilityOf csharpPatterns "protected internal")
      with (Some protected_internal);
    change (visibilityOf csharpPatterns "internal protected")
      with (Some protected_internal);
    change (visibilityOf csharpPatterns "private protected")
      with (Some private_protected);
    change (visibilityOf csharpPatterns "protected private")
      with (Some private_protected).
  - destruct H as [H|H];
      apply wordRegex_finds_whole_word in H; try reflexivity.
    + now rewrite H.
    + rewrite H. now destruct (RegExp_test (wordRegex "protected internal") text).
  - destruct (RegExp_test (wordRegex "protected internal") text); [reflexivity|].
    destruct (RegExp_test (wordRegex "internal protected") text); [reflexivity|].
    simpl orb. cbv iota.
    destruct H as [H|H];
      apply wordRegex_finds_whole_word in H; try reflexivity.
    + now rewrite H.
    + rewrite H. now destruct (RegExp_test (wordRegex "private protected") text).
Qed.

Lemma combined_visibility_keyword_wins_witness :
  extractVisibility "    protected internal void Render()" csharpPatterns "csharp"
  = protected_internal
  /\ extractVisibility "    Private Protected int count;" csharpPatterns "csharp"
     = private_protected.
Proof.
  split.
  - apply (proj1 (proj2 combined_visibility_keyword_wins)).
    left. exists "    ", "protected internal", " void Render()".
    repeat split.
  - apply (proj2 (proj2 combined_visibility_keyword_wins)
             "    Private Protected int count;").
    left. exists "    ", "Private Protected", " int count;".
    repeat split.
Defined.

Example combined_visibility_examples :
  extractVisibility "protected internal int x;" csharpPatterns "csharp"
    = protected_internal
  /\ extractVisibility "private protected int x;" csharpPatterns "csharp"
     = private_protected
  /\ extractVisibility "protected int x;" csharpPatterns "csharp" = protected
  /\ extractVisibility "internal int x;" csharpPatterns "csharp" = internal.
Proof. vm_compute. repeat split. Qed.

(** The combination is matched as written in the table, between word
    boundaries and with its single space: glued to a word, or with its two
    words further apart, it is not found and a single word decides. *)
Example combined_keyword_must_stand_as_written :
  extractVisibility "unprotected internal int x;" csharpPatterns "csharp" = internal
  /\ extractVisibility "protected  internal int x;" csharpPatterns "csharp"
     = protected.
Proof. vm_compute. split; reflexivity. Qed.

(** *** Letter case *)
Lemma firstVisibility_sameLetters config text text' keywords :
  sameLetters text text' ->
  firstVisibility config text keywords = firstVisibility config text' keywords.
Proof.
  intros H. induction keywords as [|k rest IH]; [reflexivity|].
  rewrite !firstVisibility_cons, IH.
  now rewrite (RegExp_test_sameLetters _ _ _ H).
Qed.

Lemma applyKeyword_sameLetters text text' key m keyword :
  sameLetters text text' ->
  applyKeyword text key m keyword = applyKeyword text' key m keyword.
Proof.
  intros H. unfold applyKeyword, keywordPatterns.
  cbn [existsb].
  now rewrite !(RegExp_test_sameLetters _ _ _ H).
Qed.

Lemma foldl_pointwise {A B : Type} (f g : A -> B -> A) (l : list B) :
  (forall a b, f a b = g a b) ->
  forall a, foldl f a l = foldl g a l.
Proof.
  intros E. induction l as [|b l IH]; intros a; simpl; [reflexivity|].
  now rewrite E, IH.
Qed.

(** C9.  Keyword matching ignores letter case: two declaration texts that
    differ only in the case of their letters give, for every pattern table,
    the same visibility and the same member modifiers. *)
Theorem keyword_matching_ignores_letter_case :
  forall text text' config languageId memberModifiers,
    sameLetters text text' ->
    extractVisibility text config languageId
    = extractVisibility text' config languageId
    /\ extractMemberModifiers text config memberModifiers
       = extractMemberModifiers text' config memberModifiers.
Proof.
  intros text text' config languageId m H. split.
  - unfold extractVisibility. now rewrite (firstVisibility_sameLetters _ _ _ _ H).
  - unfold extractMemberModifiers. apply foldl_pointwise.
    intros a [key keywords]. unfold applyEntry.
    destruct (length keywords =? 0); [reflexivity|].
    apply foldl_pointwise. intros b keyword.
    now apply applyKeyword_sameLetters.
Qed.

Lemma keyword_matching_ignores_letter_case_witness :
  extractVisibility "PRIVATE Static int Count;" csharpPatterns "csharp"
  = extractVisibility "private static int count;" csharpPatterns "csharp"
  /\ extractMemberModifiers "PRIVATE Static int Count;" csharpPatterns
       (memberModifiers getDefaultModifiers)
     = extractMemberModifiers "private static int count;" csharpPatterns
         (memberModifiers getDefaultModifiers).
Proof.
  apply keyword_matching_ignores_letter_case. reflexivity.
Defined.

Example letter_case_examples :
  extractVisibility "PRIVATE int x;" csharpPatterns "csharp" = private
  /\ isStatic (extractMemberModifiers "Static void Main()" csharpPatterns
                 (memberModifiers getDefaultModifiers)) = true
  /\ isStatic (extractMemberModifiers "static void Main()" csharpPatterns
                 (memberModifiers getDefaultModifiers)) = true.
Proof. vm_compute. repeat split. Qed.
End KeywordFacts.


(* ===================================================================== *)
(** * More on the modifier extractor *)
(* ===================================================================== *)
Section MemberModifierFacts.
Import JS Vscode SymbolModifiers ExtractSymbolModifiers Statements MoreStatements.

Lemma getFlag_setMemberModifier (k key : MemberModifierKey) (m : MemberModifiers) :
  getFlag k (setMemberModifier m key) = bool_decide (k = key) || getFlag k m.
Proof. destruct k, key; reflexivity. Qed.

Lemma applyKeyword_flag text key m keyword (k : MemberModifierKey) :
  getFlag k (applyKeyword text key m keyword)
  = getFlag k m || (bool_decide (k = key) && keywordFound text keyword).
Proof.
  unfold applyKeyword. fold (keywordFound text keyword).
  destruct (keywordFound text keyword).
  - rewrite getFlag_setMemberModifier, andb_true_r. apply orb_comm.
  - now rewrite andb_false_r, orb_false_r.
Qed.

Lemma applyKeywords_flag text key (k : MemberModifierKey) (keywords : list string) :
  forall m,
    getFlag k (foldl (applyKeyword text key) m keywords) = true
    <-> getFlag k m = true
        \/ (k = key /\ exists keyword, In keyword keywords
                                      /\ keywordFound text keyword = true).
Proof.
  induction keywords as [|kw rest IH]; intros m; simpl.
  - split; [now left | intros [H|[_ [kw [[] _]]]]; exact H].
  - rewrite IH, applyKeyword_flag, orb_true_iff, andb_true_iff, bool_decide_eq_true.
    split.
    + intros [[H|[Hk Hf]]|[Hk [kw' [Hin Hf]]]]; eauto 8.
    + intros [H|[Hk [kw' [[<-|Hin] Hf]]]]; eauto 8.
Qed.

Lemma applyEntry_flag text (k : MemberModifierKey) m entry :
  getFlag k (applyEntry text m entry) = true
  <-> getFlag k m = true
      \/ (k = fst entry /\ exists keyword, In keyword (snd entry)
                                          /\ keywordFound text keyword = true).
Proof.
  destruct entry as [key keywords]. unfold applyEntry. simpl.
  destruct keywords as [|kw rest].
  - simpl. split; [now left | intros [H|[_ [kw [[] _]]]]; exact H].
  - change (length (kw :: rest) =? 0) with false. cbv iota.
    apply applyKeywords_flag.
Qed.

Lemma extractMemberModifiers_flag text config m (k : MemberModifierKey) :
  getFlag k (extractMemberModifiers text config m) = true
  <-> getFlag k m = true
      \/ exists keywords keyword,
           In (k, keywords) (memberKeywords config)
           /\ In keyword keywords
           /\ keywordFound text keyword = true.
Proof.
  unfold extractMemberModifiers.
  revert m. induction (memberKeywords config) as [|entry rest IH]; intros m; simpl.
  - split; [now left | intros [H|(? & ? & [] & _)]; exact H].
  - rewrite IH, applyEntry_flag. destruct entry as [key keywords]. simpl. split.
    + intros [[H|[-> (kw & Hin & Hf)]]|(kws & kw & Hin & Hk & Hf)]; eauto 10.
    + intros [H|(kws & kw & [[= <- <-]|Hin] & Hk & Hf)]; eauto 10.
Qed.

(** X1.  The member modifiers [extractMemberModifiers] leaves are those it
    was given plus those found: a flag is set afterwards exactly when it was
    set before, or the table of the language lists for it a keyword of which
    one of the three surface forms is found in the text.  So no flag is ever
    cleared, and a flag for which the table lists no keyword is left as it
    was. *)
Theorem member_flag_set_iff_listed_keyword_found :
  forall text config m (k : MemberModifierKey),
    (getFlag k (extractMemberModifiers text config m) = true
     <-> getFlag k m = true
         \/ exists keywords keyword,
              In (k, keywords) (memberKeywords config)
              /\ In keyword keywords
              /\ keywordFound text keyword = true)
    /\ (getFlag k m = true -> getFlag k (extractMemberModifiers text config m) = true)
    /\ ((forall keywords keyword,
            In (k, keywords) (memberKeywords config) -> ~ In keyword keywords) ->
        getFlag k (extractMemberModifiers text config m) = getFlag k m).
Proof.
  intros text config m k.
  pose proof (extractMemberModifiers_flag text config m k) as Hiff.
  split; [exact Hiff|]. split.
  - intros H. apply Hiff. now left.
  - intros Hnone. apply eq_true_iff_eq. rewrite Hiff. split; [|now left].
    intros [H|(keywords & keyword & Hin & Hkw & _)]; [exact H|].
    destruct (Hnone keywords keyword Hin Hkw).
Qed.

Lemma member_flag_set_iff_listed_keyword_found_witness :
  isVirtual (extractMemberModifiers "public virtual async Task Run()" typescriptPatterns
               (memberModifiers getDefaultModifiers))
  = false.
Proof.
  apply (proj2 (proj2 (member_flag_set_iff_listed_keyword_found
                         "public virtual async Task Run()" typescriptPatterns
                         (memberModifiers getDefaultModifiers) KisVirtual))).
  intros keywords keyword Hin. simpl in Hin.
  repeat (destruct Hin as [Hin|Hin]; [discriminate Hin|]). destruct Hin.
Defined.

(** *** The empty text *)
Lemma keywordFound_empty (keyword : string) : keywordFound "" keyword = false.
Proof.
  unfold keywordFound, keywordPatterns, RegExp_test. simpl.
  unfold attributeRegex, decoratorRegex. now destruct (escapeRegex keyword).
Qed.

Lemma applyKeyword_empty key m keyword : applyKeyword "" key m keyword = m.
Proof.
  unfold applyKeyword. fold (keywordFound "" keyword).
  now rewrite keywordFound_empty.
Qed.

Lemma applyEntry_empty m entry : applyEntry "" m entry = m.
Proof.
  destruct entry as [key keywords]. unfold applyEntry.
  destruct (length keywords =? 0); [reflexivity|].
  induction keywords as [|kw kws IH]; [reflexivity|].
  cbn [foldl]. now rewrite applyKeyword_empty.
Qed.

Lemma extractMemberModifiers_empty config m :
  extractMemberModifiers "" config m = m.
Proof.
  unfold extractMemberModifiers.
  induction (memberKeywords config) as [|entry rest IH]; [reflexivity|].
  cbn [foldl]. now rewrite applyEntry_empty.
Qed.

Lemma firstVisibility_empty config keywords :
  firstVisibility config "" keywords = None.
Proof. induction keywords as [|kw rest IH]; [reflexivity|]. exact IH. Qed.

(** X2.  A symbol whose selection range starts at or past the line count
    (or a document without lines) has no declaration text, and nothing is
    found in no text: in any language [extractSymbolModifiers] returns the
    default modifiers, but for the visibility a Python name gives. *)
Theorem symbol_outside_document_gets_no_modifiers :
  forall symbol document,
    lineCount document = 0
    \/ lineCount document <= line (start (selectionRange symbol)) ->
    extractSymbolModifiers symbol document
    = Returned
        (if String.eqb (languageId document) "python"
         then applyPythonNamingConventionVisibility symbol getDefaultModifiers
         else getDefaultModifiers).
Proof.
  intros symbol document H.
  assert (Htext : getSymbolDeclarationText symbol document = Returned "").
  { unfold getSymbolDeclarationText. destruct H as [H|H].
    - now rewrite H.
    - apply Nat.leb_le in H. now rewrite H, orb_true_r. }
  unfold extractSymbolModifiers. rewrite Htext.
  destruct (getPatternConfig (languageId document)) as [config|] eqn:Hconfig.
  - change (Returned "" ≫= ?k) with (k ""). cbv beta.
    rewrite extractMemberModifiers_empty.
    unfold extractVisibility. rewrite firstVisibility_empty.
    destruct (String.eqb (languageId document) "python"); simpl.
    + now destruct (applyPythonNamingConventionVisibility symbol getDefaultModifiers).
    + now destruct (String.eqb (languageId document) "java").
  - destruct (String.eqb_spec (languageId document) "python") as [E|_]; [|reflexivity].
    rewrite E in Hconfig. discriminate Hconfig.
Qed.

Lemma symbol_outside_document_gets_no_modifiers_witness :
  extractSymbolModifiers
    (mkDocumentSymbol "Render" Method (Range_new 40 4 44 5) (Range_new 40 16 40 22))
    (mkTextDocument "file:///a.cs" 9 "csharp"
       ["class A {"; "  public static void Render() {}"; "}"] LF)
  = Returned getDefaultModifiers.
Proof.
  apply (symbol_outside_document_gets_no_modifiers
           (mkDocumentSymbol "Render" Method (Range_new 40 4 44 5)
                             (Range_new 40 16 40 22))
           (mkTextDocument "file:///a.cs" 9 "csharp"
              ["class A {"; "  public static void Render() {}"; "}"] LF)).
  right. vm_compute. lia.
Defined.

(** *** Where a pattern is found *)
Lemma searchFrom_found (p : RegExp) (rest : list ascii) :
  forall prev,
    searchFrom p prev rest = true ->
    exists pre post, rest = pre ++ post /\ matchHere p (lastOr prev pre) post = true.
Proof.
  induction rest as [|x rest IH]; intros prev H; simpl in H.
  - rewrite orb_false_r in H. now exists [], [].
  - apply orb_true_iff in H as [H|H].
    + now exists [], (x :: rest).
    + apply IH in H as (pre & post & -> & H).
      exists (x :: pre), post. split; [reflexivity|]. now rewrite lastOr_cons.
Qed.

Lemma canonical_at_sign (x : ascii) :
  Ascii.eqb (canonicalize "@") (canonicalize x) = true -> x = "@"%char.
Proof. destruct x as [[] [] [] [] [] [] [] []]; (reflexivity || discriminate). Qed.

Lemma canonical_opening_bracket (x : ascii) :
  Ascii.eqb (canonicalize "[") (canonicalize x) = true -> x = "["%char.
Proof. destruct x as [[] [] [] [] [] [] [] []]; (reflexivity || discriminate). Qed.

Lemma atSignsStandAloneFrom_split (pre post : list ascii) :
  forall prev,
    atSignsStandAloneFrom prev (pre ++ "@"%char :: post) = true ->
    gluesDecorator (lastOr prev pre) = false.
Proof.
  induction pre as [|x pre IH]; intros prev H.
  - simpl in H. apply andb_true_iff in H as [H _].
    change (lastOr prev []) with prev. now apply negb_true_iff in H.
  - rewrite lastOr_cons. simpl in H. apply andb_true_iff in H as [_ H].
    now apply IH.
Qed.

Lemma lastOr_snoc prev (l : list ascii) (x : ascii) : lastOr prev (l ++ [x]) = Some x.
Proof. unfold lastOr. now rewrite last_snoc. Qed.

(** A keyword that begins with [@] is not found where every [@] of the
    text stands alone. *)
Lemma decorator_keyword_not_found (text rest : string) :
  atSignsStandAlone text = true ->
  keywordFound text ("@" +:+ rest) = false.
Proof.
  intros Halone. unfold atSignsStandAlone in Halone.
  unfold keywordFound, keywordPatterns, RegExp_test.
  unfold wordRegex, decoratorRegex, attributeRegex, escapeRegex.
  rewrite chars_app. change (chars "@") with ["@"%char].
  cbn [existsb app map]. rewrite orb_false_r.
  apply orb_false_iff. split; [|apply orb_false_iff; split];
    apply not_true_iff_false; intros H;
    apply searchFrom_found in H as (pre & post & E & H); rewrite E in Halone.
  - (* \b@rest\b *)
    cbn [matchHere] in H. apply andb_true_iff in H as [Hb H].
    destruct post as [|x post]; [discriminate H|].
    apply andb_true_iff in H as [Hx _]. apply canonical_at_sign in Hx. subst x.
    apply atSignsStandAloneFrom_split in Halone.
    simpl in Hb. rewrite xorb_false_r in Hb.
    unfold gluesDecorator in Halone. unfold isWordCharAt in Hb.
    destruct (lastOr None pre); [|discriminate Hb].
    rewrite Hb in Halone. discriminate Halone.
  - (* @@rest *)
    cbn [matchHere] in H.
    destruct post as [|x [|y post]]; try discriminate H.
    + now rewrite andb_false_r in H.
    + apply andb_true_iff in H as [Hx H]. apply andb_true_iff in H as [Hy _].
      apply canonical_at_sign in Hx, Hy. subst x y.
      change (pre ++ "@"%char :: "@"%char :: post)
        with (pre ++ ["@"%char] ++ "@"%char :: post) in Halone.
      rewrite app_assoc in Halone.
      apply atSignsStandAloneFrom_split in Halone.
      rewrite lastOr_snoc in Halone. discriminate Halone.
  - (* [@rest] *)
    cbn [matchHere] in H.
    destruct post as [|x [|y post]]; try discriminate H.
    + now rewrite andb_false_r in H.
    + apply andb_true_iff in H as [Hx H]. apply andb_true_iff in H as [Hy _].
      apply canonical_opening_bracket in Hx. apply canonical_at_sign in Hy. subst x y.
      change (pre ++ "["%char :: "@"%char :: post)
        with (pre ++ ["["%char] ++ "@"%char :: post) in Halone.
      rewrite app_assoc in Halone.
      apply atSignsStandAloneFrom_split in Halone.
      rewrite lastOr_snoc in Halone. discriminate Halone.
Qed.

(** X3.  The Python table lists its decorators with their [@]; each of
    the three patterns then asks for a word character, a second [@] or an
    opening bracket just before the [@].  So in a text whose every [@]
    stands alone (at the start, after white space, ...) no decorator is
    found: [isStatic] and [isAbstract] stay as they were. *)
Theorem python_decorators_standing_alone_are_not_found :
  forall text m,
    atSignsStandAlone text = true ->
    isStatic (extractMemberModifiers text pythonPatterns m) = isStatic m
    /\ isAbstract (extractMemberModifiers text pythonPatterns m) = isAbstract m.
Proof.
  intros text m Halone.
  assert (Hflag : forall k, k = KisStatic \/ k = KisAbstract ->
                            getFlag k (extractMemberModifiers text pythonPatterns m)
                            = getFlag k m).
  { intros k Hk. apply eq_true_iff_eq.
    rewrite extractMemberModifiers_flag. split; [|now left].
    intros [H|(keywords & keyword & Hin & Hkw & Hfound)]; [exact H|].
    exfalso. simpl in Hin.
    assert (Hat : exists rest, keyword = "@" +:+ rest).
    { destruct Hk as [-> | ->];
        repeat (destruct Hin as [[= <-]|Hin]; try discriminate);
        try contradiction;
        simpl in Hkw; repeat (destruct Hkw as [<-|Hkw]; [eexists; reflexivity|]);
        contradiction. }
    destruct Hat as [rest ->].
    rewrite (decorator_keyword_not_found text rest Halone) in Hfound.
    discriminate Hfound. }
  split; [apply (Hflag KisStatic) | apply (Hflag KisAbstract)]; auto.
Qed.

Lemma python_decorators_standing_alone_are_not_found_witness :
  let text := "  @staticmethod" +:+ LF +:+ "  def create(cls):" in
  isStatic (extractMemberModifiers text pythonPatterns
              (memberModifiers getDefaultModifiers)) = false.
Proof.
  intros text.
  apply (proj1 (python_decorators_standing_alone_are_not_found text
                  (memberModifiers getDefaultModifiers) eq_refl)).
Defined.
End MemberModifierFacts.


Section VisibilityFacts.
Import JS Vscode SymbolModifiers ExtractSymbolModifiers Statements MoreStatements.

Lemma visibilityOf_In config keyword v :
  visibilityOf config keyword = Some v -> In (keyword, v) (visibilityKeywords config).
Proof.
  unfold visibilityOf. destruct (find _ _) as [[k w]|] eqn:E; [|discriminate].
  intros [= <-]. apply find_some in E as [Hin Hk]. simpl in Hk.
  apply String.eqb_eq in Hk. now subst.
Qed.

Lemma firstVisibility_Some config text keywords v :
  firstVisibility config text keywords = Some v ->
  exists keyword,
    In keyword keywords
    /\ In (keyword, v) (visibilityKeywords config)
    /\ RegExp_test (wordRegex keyword) text = true.
Proof.
  induction keywords as [|kw rest IH]; [discriminate|].
  rewrite firstVisibility_cons.
  destruct (RegExp_test (wordRegex kw) text) eqn:Ht.
  - destruct (visibilityOf config kw) as [w|] eqn:Hv.
    + intros [= <-]. exists kw. split; [now left|].
      split; [now apply visibilityOf_In | exact Ht].
    + intros H. destruct (IH H) as (k & Hin & Hrest). exists k. split; [now right | exact Hrest].
  - intros H. destruct (IH H) as (k & Hin & Hrest). exists k. split; [now right | exact Hrest].
Qed.

Lemma firstVisibility_None config text keywords :
  (forall keyword, In keyword keywords -> RegExp_test (wordRegex keyword) text = false) ->
  firstVisibility config text keywords = None.
Proof.
  induction keywords as [|kw rest IH]; intros H; [reflexivity|].
  rewrite firstVisibility_cons, (H kw (or_introl eq_refl)).
  apply IH. intros k Hk. apply H. now right.
Qed.

(** X4.  [extractVisibility] never makes a visibility up: its result is
    "default" or the value the table gives to a keyword that is found in the
    text as a whole word; and it is "default" whenever no keyword of the
    table is found, in Java as in every other language. *)
Theorem visibility_is_default_or_from_a_found_keyword :
  forall text config languageId,
    (extractVisibility text config languageId = default_
     \/ exists keyword,
          In (keyword, extractVisibility text config languageId)
             (visibilityKeywords config)
          /\ RegExp_test (wordRegex keyword) text = true)
    /\ ((forall keyword v, In (keyword, v) (visibilityKeywords config) ->
                           RegExp_test (wordRegex keyword) text = false) ->
        extractVisibility text config languageId = default_).
Proof.
  intros text config languageId. unfold extractVisibility. split.
  - destruct (firstVisibility config text (sortedKeywords config)) as [v|] eqn:E.
    + right. apply firstVisibility_Some in E as (k & _ & Hin & Ht). now exists k.
    + left. now destruct (String.eqb languageId "java").
  - intros H. rewrite firstVisibility_None.
    + now destruct (String.eqb languageId "java").
    + intros k Hk.
      apply (Permutation_in _ (proj2 (sortedKeywords_longest_first config))) in Hk.
      apply in_map_iff in Hk as ([k' v] & <- & Hin). now apply (H k' v).
Qed.

Lemma visibility_is_default_or_from_a_found_keyword_witness :
  extractVisibility "void run() { }" javaPatterns "java" = default_.
Proof.
  apply (proj2 (visibility_is_default_or_from_a_found_keyword
                  "void run() { }" javaPatterns "java")).
  intros keyword v Hin. simpl in Hin.
  repeat (destruct Hin as [[= <- <-]|Hin]; [reflexivity|]). contradiction.
Defined.
End VisibilityFacts.

Section DeclarationTextFacts.
Import JS Vscode SymbolModifiers ExtractSymbolModifiers Statements MoreStatements.

(** The backward scan, from the state it is in before looking at line
    [symbolLine - i]. *)
Lemma lookBackwards_scan (document : TextDocument) (symbolLine : nat) :
  symbolLine < lineCount document ->
  forall fuel i startLine,
    fuel + i = 4 -> 1 <= i -> startLine + i = S symbolLine ->
    exists first,
      lookBackwards fuel i symbolLine document startLine = Returned first
      /\ symbolLine - 3 <= first <= startLine
      /\ (forall n, first <= n < startLine ->
                    exists text, lines document !! n = Some text
                                 /\ stopsScan text = false)
      /\ (first = symbolLine - 3
          \/ (exists text, lines document !! (first - 1) = Some text
                           /\ 0 < first /\ stopsScan text = true)
          \/ first = 0).
Proof.
  intros Hin. induction fuel as [|fuel IH]; intros i startLine Hfuel Hi Hstart.
  - exists startLine. split; [reflexivity|]. split; [lia|].
    split; [intros n Hn; lia | left; lia].
  - simpl.
    assert (Hi3 : (i <=? 3) = true) by (apply Nat.leb_le; lia).
    rewrite Hi3. simpl andb.
    destruct (Nat.leb_spec i symbolLine) as [Hle|Hgt].
    + destruct (Nat.leb_spec (lineCount document) (symbolLine - i)) as [Hout|_];
        [lia|].
      assert (Hlt : symbolLine - i < lineCount document) by lia.
      unfold lineAt. apply lookup_lt_is_Some in Hlt as [text Htext].
      rewrite Htext. change (Returned text ≫= ?k) with (k text). cbv beta.
      fold (stopsScan text). destruct (stopsScan text) eqn:Hstop.
      * exists startLine. split; [reflexivity|]. split; [lia|].
        split; [intros n Hn; lia|]. right. left. exists text.
        replace (startLine - 1) with (symbolLine - i) by lia.
        repeat split; [exact Htext | lia | exact Hstop].
      * destruct (IH (S i) (symbolLine - i)) as (first & E & Hb & Hgood & Hmax);
          [lia..|].
        exists first. split; [exact E|]. split; [lia|]. split; [|exact Hmax].
        intros n Hn. destruct (decide (n = symbolLine - i)) as [->|Hne].
        -- now exists text.
        -- apply Hgood. lia.
    + exists startLine. split; [reflexivity|]. split; [lia|].
      split; [intros n Hn; lia|]. right. right. lia.
Qed.

(** X5.  For a symbol inside the document the declaration text is the
    text of the lines from some first line to the line of the symbol; the
    first line is at most three lines above it, no line from it up to the
    symbol's is blank or begins with a closing bracket, and the scan stopped
    only for a reason: three lines read, the top of the document reached, or
    a blank or closing line just above. *)
Theorem declaration_text_is_a_block_above_the_symbol :
  forall symbol document,
    let symbolLine := line (start (selectionRange symbol)) in
    symbolLine < lineCount document ->
    exists first,
      getSymbolDeclarationText symbol document
      = Returned (getText document (Range_new first 0 (symbolLine + 1) 0))
      /\ symbolLine - 3 <= first <= symbolLine
      /\ (forall n, first <= n < symbolLine ->
                    exists text, lines document !! n = Some text
                                 /\ stopsScan text = false)
      /\ (first = symbolLine - 3
          \/ (exists text, lines document !! (first - 1) = Some text
                           /\ 0 < first /\ stopsScan text = true)
          \/ first = 0).
Proof.
  intros symbol document symbolLine Hin.
  destruct (lookBackwards_scan document symbolLine Hin 3 1 symbolLine)
    as (first & E & Hb & Hgood & Hmax); [lia..|].
  exists first. split; [|now repeat split].
  unfold getSymbolDeclarationText. fold symbolLine.
  destruct (Nat.eqb_spec (lineCount document) 0) as [H0|_]; [lia|].
  destruct (Nat.leb_spec (lineCount document) symbolLine) as [Hout|_]; [lia|].
  simpl orb. cbv iota. rewrite E.
  change (Returned first ≫= ?k) with (k first). cbv beta zeta.
  now rewrite Nat.min_l by lia.
Qed.

Lemma declaration_text_is_a_block_above_the_symbol_witness :
  let document :=
    mkTextDocument "file:///a.cs" 1 "csharp"
      ["  private int a;"; ""; "  [Obsolete]"; "  public static void Run()"; "  {"] LF in
  let symbol :=
    mkDocumentSymbol "Run" Method (Range_new 3 2 5 3) (Range_new 3 21 3 24) in
  exists first,
    getSymbolDeclarationText symbol document
    = Returned (getText document (Range_new first 0 4 0))
    /\ 0 <= first <= 3.
Proof.
  intros document symbol.
  destruct (declaration_text_is_a_block_above_the_symbol symbol document)
    as (first & E & Hb & _); [vm_compute; lia|].
  exists first. split; [exact E | exact Hb].
Defined.

(** The scan stops below the blank line. *)
Example declaration_text_of_an_attributed_method :
  getSymbolDeclarationText
    (mkDocumentSymbol "Run" Method (Range_new 3 2 5 3) (Range_new 3 21 3 24))
    (mkTextDocument "file:///a.cs" 1 "csharp"
       ["  private int a;"; ""; "  [Obsolete]"; "  public static void Run()"; "  {"]
       LF)
  = Returned ("  [Obsolete]" +:+ LF +:+ "  public static void Run()" +:+ LF).
Proof. vm_compute. reflexivity. Qed.
End DeclarationTextFacts.

(* ===================================================================== *)
(** * How modifiers are shown *)
(* ===================================================================== *)
Section RenderingFacts.
Import JS Vscode SymbolModifiers ExtractSymbolModifiers FullTreeItems Statements
       MoreStatements ModifierRendering.

Lemma pushIf_cons (cond : bool) (word x : string) (parts : list string) :
  pushIf cond word (x :: parts) = x :: pushIf cond word parts.
Proof. now destruct cond. Qed.

Lemma join_head (sep : string) (c : ascii) (x : string) (rest : list string) :
  exists t, join sep (String c x :: rest) = String c t.
Proof. destruct rest; simpl; eexists; reflexivity. Qed.

Lemma hasAnyModifier_false (modifiers : SymbolModifiers) :
  hasAnyModifier modifiers = false <-> modifiers = getDefaultModifiers.
Proof.
  destruct modifiers as [v [a b c d e f g h i j k]]. unfold hasAnyModifier. simpl.
  destruct v; simpl; try (split; discriminate).
  rewrite !orb_false_iff. split.
  - intros ((((((((((-> & ->) & ->) & ->) & ->) & ->) & ->) & ->) & ->) & ->) & ->).
    reflexivity.
  - intros [= -> -> -> -> -> -> -> -> -> -> ->]. repeat split.
Qed.

Lemma pushIf_true (word : string) (parts : list string) :
  pushIf true word parts = parts ++ [word].
Proof. reflexivity. Qed.

Lemma pushIf_false (word : string) (parts : list string) :
  pushIf false word parts = parts.
Proof. reflexivity. Qed.

Lemma join_cons_nonempty (c : ascii) (x : string) (parts : list string) :
  join " " (String c x :: parts) = "" <-> true = false.
Proof.
  destruct (join_head " " c x parts) as [t ->]. split; discriminate.
Qed.

Lemma getModifierDescription_empty (modifiers : SymbolModifiers) :
  getModifierDescription modifiers = "" <-> hasAnyModifier modifiers = false.
Proof.
  destruct modifiers as [v [a b c d e f g h i j k]].
  unfold getModifierDescription, hasAnyModifier.
  cbn [visibility memberModifiers isStatic isReadonly isConst isAbstract isVirtual
       isOverride isAsync isSealed isExtern isVolatile isNew].
  destruct (decide (v = default_)) as [->|Hv].
  - rewrite bool_decide_eq_true_2 by reflexivity. cbn [negb]. rewrite pushIf_false.
    destruct a; [rewrite pushIf_true; cbn [app]; rewrite !pushIf_cons;
                 apply join_cons_nonempty|rewrite pushIf_false].
    destruct d; [rewrite pushIf_true; cbn [app orb]; rewrite !pushIf_cons, ?orb_true_r;
                 apply join_cons_nonempty|rewrite pushIf_false].
    destruct e; [rewrite pushIf_true; cbn [app orb]; rewrite !pushIf_cons, ?orb_true_r;
                 apply join_cons_nonempty|rewrite pushIf_false].
    destruct f; [rewrite pushIf_true; cbn [app orb]; rewrite !pushIf_cons, ?orb_true_r;
                 apply join_cons_nonempty|rewrite pushIf_false].
    destruct h; [rewrite pushIf_true; cbn [app orb]; rewrite !pushIf_cons, ?orb_true_r;
                 apply join_cons_nonempty|rewrite pushIf_false].
    destruct b; [rewrite pushIf_true; cbn [app orb]; rewrite !pushIf_cons, ?orb_true_r;
                 apply join_cons_nonempty|rewrite pushIf_false].
    destruct c; [rewrite pushIf_true; cbn [app orb]; rewrite !pushIf_cons, ?orb_true_r;
                 apply join_cons_nonempty|rewrite pushIf_false].
    destruct g; [rewrite pushIf_true; cbn [app orb]; rewrite !pushIf_cons, ?orb_true_r;
                 apply join_cons_nonempty|rewrite pushIf_false].
    destruct i; [rewrite pushIf_true; cbn [app orb]; rewrite !pushIf_cons, ?orb_true_r;
                 apply join_cons_nonempty|rewrite pushIf_false].
    destruct j; [rewrite pushIf_true; cbn [app orb]; rewrite !pushIf_cons, ?orb_true_r;
                 apply join_cons_nonempty|rewrite pushIf_false].
    destruct k; [rewrite pushIf_true; cbn [app orb]; apply join_cons_nonempty|].
    rewrite pushIf_false. split; reflexivity.
  - rewrite bool_decide_eq_false_2 by exact Hv. cbn [negb].
    rewrite pushIf_true. cbn [app]. rewrite !pushIf_cons.
    destruct v; try contradiction; apply join_cons_nonempty.
Qed.

(** X14.  The three views of "no modifier" agree: [hasAnyModifier] is
    false exactly for the default modifiers, the description of the
    modifiers is the empty string exactly then, and the tooltip is the base
    tooltip exactly then; for every other value the tooltip is the
    description in brackets, a space and the base tooltip. *)
Theorem no_modifier_views_agree :
  forall modifiers baseTooltip,
    (hasAnyModifier modifiers = false <-> modifiers = getDefaultModifiers)
    /\ (getModifierDescription modifiers = "" <-> modifiers = getDefaultModifiers)
    /\ createModifierTooltip baseTooltip modifiers
       = (if hasAnyModifier modifiers
          then "[" +:+ getModifierDescription modifiers +:+ "] " +:+ baseTooltip
          else baseTooltip).
Proof.
  intros modifiers baseTooltip.
  split; [apply hasAnyModifier_false|].
  split; [rewrite getModifierDescription_empty; apply hasAnyModifier_false|].
  unfold createModifierTooltip.
  destruct (String.eqb_spec (getModifierDescription modifiers) "") as [E|E].
  - apply getModifierDescription_empty in E. now rewrite E.
  - destruct (hasAnyModifier modifiers) eqn:H; [reflexivity|].
    apply getModifierDescription_empty in H. contradiction.
Qed.

(** X15.  The icon of a symbol item is always made (the function never
    returns [undefined]), always with the base icon id, and its colour
    depends on the visibility and the two colour settings only: with
    [showVisibilityColors] off there is no colour, otherwise the colour is
    the entry of the visibility in the colour table the setting
    [useDistinctColors] selects, which is none for the default visibility.
    The member modifiers never change the icon. *)
Theorem modifier_icon_is_base_icon_in_visibility_colour :
  forall baseIconId modifiers config,
    createModifierAwareIcon baseIconId modifiers config
    = Some (mkThemeIcon baseIconId
              (if showVisibilityColors config
               then (if useDistinctColors config
                     then VISIBILITY_COLORS_DISTINCT (visibility modifiers)
                     else VISIBILITY_COLORS (visibility modifiers))
               else None)).
Proof.
  intros baseIconId modifiers config. unfold createModifierAwareIcon.
  destruct (showVisibilityColors config); simpl.
  - rewrite andb_false_r.
    destruct (useDistinctColors config), (visibility modifiers); reflexivity.
  - now destruct (negb (hasAnyModifier modifiers)).
Qed.

(** X16.  The description beside a symbol item: there is none exactly when
    the symbol is neither static (with the static indicator on), nor
    readonly, nor const, nor abstract, nor async; a description is never the
    empty string; the visibility and the other six member modifiers play no
    part; and a readonly symbol is described the same whether or not it is
    const: the word const is left out beside readonly. *)
Theorem modifier_description_parts :
  forall modifiers config,
    let m := memberModifiers modifiers in
    (createModifierDescription modifiers config = None
     <-> (showStaticIndicator config && isStatic m
          || isReadonly m || isConst m || isAbstract m || isAsync m) = false)
    /\ createModifierDescription modifiers config <> Some ""
    /\ createModifierDescription modifiers config
       = createModifierDescription
           (mkSymbolModifiers default_
              (mkMemberModifiers (isStatic m) (isReadonly m)
                 (isConst m && negb (isReadonly m)) (isAbstract m) false false
                 (isAsync m) false false false false))
           config.
Proof.
  intros [v [a b c d e f g h i j k]] [s1 s2 s3 s4]. cbv zeta.
  unfold createModifierDescription. simpl.
  split; [|split].
  - destruct s4, a, b, c, d, g; simpl; split; (reflexivity || discriminate).
  - destruct s4, a, b, c, d, g; simpl; discriminate.
  - destruct b, c; reflexivity.
Qed.
End RenderingFacts.

(* ===================================================================== *)
(** * The modifier cache *)
(* ===================================================================== *)
Section CacheFacts.
Import JS Vscode SymbolModifiers ExtractSymbolModifiers Statements.

Context {V : Type}.
Implicit Types (m : Map V) (key : string).

Lemma Map_get_None key m : Map_get key m = None <-> key ∉ Map_keys m.
Proof.
  unfold Map_get, Map_keys. induction m as [|[k v] m IH]; simpl.
  - split; [intros _; apply not_elem_of_nil | reflexivity].
  - rewrite not_elem_of_cons. destruct (String.eqb_spec k key) as [->|Hne]; simpl.
    + split; [discriminate | intros [H _]; now destruct H].
    + rewrite IH. split; [intros H; split; [congruence | exact H] | tauto].
Qed.

Lemma Map_has_false key m : key ∉ Map_keys m -> Map_has key m = false.
Proof.
  unfold Map_has, Map_keys. induction m as [|[k v] m IH]; simpl; [reflexivity|].
  rewrite not_elem_of_cons. intros [Hne H].
  destruct (String.eqb_spec k key) as [->|_]; [now destruct Hne|].
  now apply IH.
Qed.

Lemma Map_set_new key (v : V) m :
  key ∉ Map_keys m -> Map_set key v m = m ++ [(key, v)].
Proof. intros H. unfold Map_set. now rewrite Map_has_false. Qed.

Lemma Map_delete_absent key m : key ∉ Map_keys m -> Map_delete key m = m.
Proof.
  unfold Map_delete, Map_keys, Map in *.
  induction m as [|[k v] m IH]; [reflexivity|].
  cbn [map fst]. rewrite not_elem_of_cons. intros [Hne H].
  rewrite filter_cons_True by (simpl; congruence). now rewrite IH.
Qed.

Lemma Map_delete_first key (v : V) m :
  key ∉ Map_keys m -> Map_delete key ((key, v) :: m) = m.
Proof.
  intros H. rewrite <- (Map_delete_absent key m H) at 2.
  unfold Map_delete, Map in *.
  now rewrite filter_cons_False by (simpl; tauto).
Qed.

(** Deleting the first [n] keys of a map removes its first [n] entries. *)
Lemma deleteKeys_oldest (n : nat) :
  forall m, NoDup (Map_keys m) ->
            foldl (fun acc key => Map_delete key acc) m (take n (Map_keys m))
            = drop n m.
Proof.
  induction n as [|n IH]; intros m Hnd; [reflexivity|].
  destruct m as [|[k v] m]; [reflexivity|].
  unfold Map_keys in *. simpl in *.
  apply NoDup_cons in Hnd as [Hk Hnd].
  rewrite (Map_delete_first k v m Hk). now apply IH.
Qed.

Lemma Map_keys_snoc m key (v : V) : Map_keys (m ++ [(key, v)]) = Map_keys m ++ [key].
Proof. unfold Map_keys. now rewrite map_app. Qed.

Lemma NoDup_snoc_key m key (v : V) :
  NoDup (Map_keys m) -> key ∉ Map_keys m -> NoDup (Map_keys (m ++ [(key, v)])).
Proof.
  intros Hnd Hk. rewrite Map_keys_snoc. apply NoDup_app. repeat split.
  - exact Hnd.
  - intros x Hx Hx'. apply list_elem_of_singleton in Hx'. now subst.
  - apply NoDup_singleton.
Qed.

Lemma NoDup_drop_keys (n : nat) m : NoDup (Map_keys m) -> NoDup (Map_keys (drop n m)).
Proof.
  unfold Map_keys. rewrite <- (take_drop n m) at 1. rewrite map_app.
  intros H. now apply NoDup_app in H as (_ & _ & H).
Qed.
End CacheFacts.

Section CacheClaim.
Import JS Vscode SymbolModifiers ExtractSymbolModifiers Statements.

(** What a call does on a miss, for a cache without duplicate keys. *)
Lemma extractSymbolModifiersWithCache_miss symbol document cache modifiers :
  NoDup (Map_keys cache) ->
  Map_get (getSymbolCacheKey symbol (version document) (uri document)) cache = None ->
  extractSymbolModifiers symbol document = Returned modifiers ->
  extractSymbolModifiersWithCache symbol document cache
  = Returned
      (modifiers,
       let inserted :=
         cache ++ [(getSymbolCacheKey symbol (version document) (uri document),
                    modifiers)] in
       if 5000 <? Map_size inserted then drop 1000 inserted else inserted).
Proof.
  intros Hnd Hmiss Hex. unfold extractSymbolModifiersWithCache.
  rewrite Hmiss, Hex. apply Map_get_None in Hmiss.
  change (Returned modifiers ≫= ?k) with (k modifiers). cbv beta zeta.
  rewrite (Map_set_new _ _ _ Hmiss).
  destruct (5000 <? _); [|reflexivity].
  unfold deleteKeys. rewrite deleteKeys_oldest; [reflexivity|].
  now apply NoDup_snoc_key.
Qed.

Lemma cacheReachable_invariant cache :
  cacheReachable cache -> NoDup (Map_keys cache) /\ Map_size cache <= 5000.
Proof.
  induction 1 as [|symbol document cache modifiers cache' Hreach [Hnd Hsize] Hcall
                  |cache Hreach _].
  - split; [constructor | unfold Map_size; simpl; lia].
  - destruct (Map_get (getSymbolCacheKey symbol (version document) (uri document))
                      cache) as [cached|] eqn:Hget.
    + unfold extractSymbolModifiersWithCache in Hcall. rewrite Hget in Hcall.
      injection Hcall as _ <-. now split.
    + destruct (extractSymbolModifiers_returns symbol document) as [m Hm].
      rewrite (extractSymbolModifiersWithCache_miss _ _ _ _ Hnd Hget Hm) in Hcall.
      injection Hcall as _ <-. cbv zeta.
      apply Map_get_None in Hget.
      pose proof (NoDup_snoc_key cache _ m Hnd Hget) as Hnd'.
      unfold Map_size in *.
      destruct (Nat.ltb_spec 5000
                  (length (cache ++ [(getSymbolCacheKey symbol (version document)
                                        (uri document), m)]))) as [Hgt|Hle].
      * split; [now apply NoDup_drop_keys|].
        rewrite length_drop, length_app. simpl. lia.
      * split; [exact Hnd' | exact Hle].
  - split; [constructor | unfold Map_size; simpl; lia].
Qed.

(** X13.  On a cache the process can hold, a call whose key string is
    present returns the cached value and leaves the cache as it is, whatever
    a new extraction would give; a call whose key string is absent returns
    the extracted value and appends it, and when that makes 5001 entries the
    1000 entries inserted first are dropped.  Either way at most 5000 entries
    are left. *)
Theorem modifier_cache_hit_miss_eviction :
  forall cache symbol document,
    cacheReachable cache ->
    let key := getSymbolCacheKey symbol (version document) (uri document) in
    exists modifiers cache',
      extractSymbolModifiersWithCache symbol document cache
      = Returned (modifiers, cache')
      /\ (forall cached, Map_get key cache = Some cached ->
                         modifiers = cached /\ cache' = cache)
      /\ (Map_get key cache = None ->
          extractSymbolModifiers symbol document = Returned modifiers
          /\ (Map_size cache < 5000 -> cache' = cache ++ [(key, modifiers)])
          /\ (Map_size cache = 5000 ->
              cache' = drop 1000 (cache ++ [(key, modifiers)])
              /\ Map_size cache' = 4001))
      /\ Map_size cache' <= 5000.
Proof.
  intros cache symbol document Hreach key.
  destruct (cacheReachable_invariant _ Hreach) as [Hnd Hsize].
  destruct (Map_get key cache) as [cached|] eqn:Hget.
  - exists cached, cache. split; [|split; [|split]].
    + unfold extractSymbolModifiersWithCache. fold key. now rewrite Hget.
    + intros c [= ->]. now split.
    + discriminate.
    + exact Hsize.
  - destruct (extractSymbolModifiers_returns symbol document) as [m Hm].
    pose proof (extractSymbolModifiersWithCache_miss _ _ _ _ Hnd Hget Hm) as Hcall.
    fold key in Hcall. cbv zeta in Hcall. unfold Map_size in *.
    assert (Hlen : length (cache ++ [(key, m)]) = S (length cache))
      by (rewrite length_app; simpl; lia).
    destruct (Nat.ltb_spec 5000 (length (cache ++ [(key, m)]))) as [Hgt|Hle].
    + exists m, (drop 1000 (cache ++ [(key, m)])).
      split; [exact Hcall|]. split; [discriminate|]. split.
      * intros _. split; [exact Hm|]. split; [lia|].
        intros _. split; [reflexivity|]. rewrite length_drop. lia.
      * rewrite length_drop. lia.
    + exists m, (cache ++ [(key, m)]).
      split; [exact Hcall|]. split; [discriminate|]. split.
      * intros _. split; [exact Hm|]. split; [reflexivity | lia].
      * lia.
Qed.

Example cache_second_call_is_a_hit :
  let symbol := mkDocumentSymbol "run" Method (Range_new 1 2 2 3) (Range_new 1 9 1 12) in
  let document := mkTextDocument "file:///a.ts" 7 "typescript"
                    ["class A {"; "  public run() {"; "  }"; "}"] LF in
  exists modifiers cache,
    extractSymbolModifiersWithCache symbol document [] = Returned (modifiers, cache)
    /\ Map_keys cache = ["file:///a.ts:7:1:2:run"]
    /\ visibility modifiers = public
    /\ extractSymbolModifiersWithCache symbol document cache
       = Returned (modifiers, cache).
Proof. vm_compute. eexists _, _. repeat split. Qed.
End CacheClaim.

(* ===================================================================== *)
(** * The cache across calls *)
(* ===================================================================== *)
Section CacheRoundTrip.
Import JS Vscode SymbolModifiers ExtractSymbolModifiers Statements MoreStatements.

Lemma Map_get_snoc_new {V : Type} (key : string) (v : V) (m : Map V) :
  key ∉ Map_keys m -> Map_get key (m ++ [(key, v)]) = Some v.
Proof.
  unfold Map_get, Map_keys. induction m as [|[k w] m IH]; simpl.
  - intros _. now rewrite String.eqb_refl.
  - rewrite not_elem_of_cons. intros [Hne H].
    destruct (String.eqb_spec k key) as [->|_]; [now destruct Hne|].
    now apply IH.
Qed.

Lemma Map_keys_drop {V : Type} (n : nat) (m : Map V) (key : string) :
  key ∉ Map_keys m -> key ∉ Map_keys (drop n m).
Proof.
  unfold Map_keys. intros H Hin. apply H.
  rewrite <- (take_drop n m), map_app. apply elem_of_app. now right.
Qed.

(** X6.  What a call leaves in the cache is what the next call for the
    same symbol and document version gets: after any call, also one that
    evicted, the key holds the value just returned, and repeating the call
    returns that value and leaves the cache as it is. *)
Theorem repeated_extraction_is_served_from_the_cache :
  forall cache symbol document,
    cacheReachable cache ->
    exists modifiers cache',
      extractSymbolModifiersWithCache symbol document cache
      = Returned (modifiers, cache')
      /\ Map_get (getSymbolCacheKey symbol (version document) (uri document)) cache'
         = Some modifiers
      /\ extractSymbolModifiersWithCache symbol document cache'
         = Returned (modifiers, cache').
Proof.
  intros cache symbol document Hreach.
  destruct (cacheReachable_invariant _ Hreach) as [Hnd Hsize].
  set (key := getSymbolCacheKey symbol (version document) (uri document)).
  assert (Hhit : forall c m, Map_get key c = Some m ->
                             extractSymbolModifiersWithCache symbol document c
                             = Returned (m, c)).
  { intros c m H. unfold extractSymbolModifiersWithCache. fold key. now rewrite H. }
  destruct (Map_get key cache) as [cached|] eqn:Hget.
  - exists cached, cache. auto.
  - destruct (extractSymbolModifiers_returns symbol document) as [m Hm].
    pose proof (extractSymbolModifiersWithCache_miss _ _ _ _ Hnd Hget Hm) as Hcall.
    fold key in Hcall. cbv zeta in Hcall.
    apply Map_get_None in Hget.
    assert (Hnew : Map_get key
                     (if 5000 <? Map_size (cache ++ [(key, m)])
                      then drop 1000 (cache ++ [(key, m)])
                      else cache ++ [(key, m)]) = Some m).
    { unfold Map_size. destruct (Nat.ltb_spec 5000 (length (cache ++ [(key, m)])))
        as [Hgt|_]; [|now apply Map_get_snoc_new].
      rewrite length_app in Hgt. simpl in Hgt.
      rewrite drop_app_le by lia.
      apply Map_get_snoc_new. now apply Map_keys_drop. }
    eexists _, _. split; [exact Hcall|]. split; [exact Hnew | now apply Hhit].
Qed.

Lemma repeated_extraction_is_served_from_the_cache_witness :
  exists modifiers cache',
    extractSymbolModifiersWithCache
      (mkDocumentSymbol "run" Method (Range_new 1 2 2 3) (Range_new 1 9 1 12))
      (mkTextDocument "file:///a.ts" 7 "typescript"
         ["class A {"; "  public run() {"; "  }"; "}"] LF)
      []
    = Returned (modifiers, cache')
    /\ extractSymbolModifiersWithCache
         (mkDocumentSymbol "run" Method (Range_new 1 2 2 3) (Range_new 1 9 1 12))
         (mkTextDocument "file:///a.ts" 7 "typescript"
            ["class A {"; "  public run() {"; "  }"; "}"] LF)
         cache'
       = Returned (modifiers, cache').
Proof.
  destruct (repeated_extraction_is_served_from_the_cache []
              (mkDocumentSymbol "run" Method (Range_new 1 2 2 3) (Range_new 1 9 1 12))
              (mkTextDocument "file:///a.ts" 7 "typescript"
                 ["class A {"; "  public run() {"; "  }"; "}"] LF)
              reachable_initial) as (modifiers & cache' & E1 & _ & E2).
  exists modifiers, cache'. split; [exact E1 | exact E2].
Defined.
End CacheRoundTrip.

(* ===================================================================== *)
(** * The ids of the flattened items *)
(* ===================================================================== *)
Section IdFacts.
Import JS Vscode SymbolModifiers ExtractSymbolModifiers FullTreeItems Statements.

(** *** Decimal numerals *)
Lemma string_of_uint_digits (d : uint) :
  Forall notHyphen (chars (NilEmpty.string_of_uint d)).
Proof.
  induction d; simpl; constructor; try assumption; unfold notHyphen; discriminate.
Qed.

Lemma Number_toString_no_hyphen (n : nat) :
  "-"%char ∉ chars (Number_toString n).
Proof.
  intros H. pose proof (string_of_uint_digits (Nat.to_uint n)) as Hd.
  rewrite Forall_forall in Hd. apply Hd in H. now apply H.
Qed.

Lemma Number_toString_inj (n m : nat) :
  Number_toString n = Number_toString m -> n = m.
Proof.
  unfold Number_toString. intros H.
  apply DecimalNat.Unsigned.to_uint_inj.
  pose proof (NilEmpty.usu (Nat.to_uint n)) as Hn.
  pose proof (NilEmpty.usu (Nat.to_uint m)) as Hm.
  rewrite H in Hn. congruence.
Qed.

(** A string is cut at its last separator in one way only. *)
Lemma split_at_last (sep : ascii) :
  forall l1 l2 d1 d2 : list ascii,
    sep ∉ d1 -> sep ∉ d2 ->
    l1 ++ sep :: d1 = l2 ++ sep :: d2 ->
    l1 = l2 /\ d1 = d2.
Proof.
  induction l1 as [|a l1 IH]; intros [|b l2] d1 d2 H1 H2 E; simpl in E.
  - injection E as ->. now split.
  - injection E as -> ->. destruct H1. apply elem_of_app. right. left.
  - injection E as -> <-. destruct H2. apply elem_of_app. right. left.
  - injection E as -> E. destruct (IH _ _ _ H1 H2 E) as [-> ->]. now split.
Qed.

Lemma getUniqueTreeItemId_inj (p q : string) (n m : nat) :
  getUniqueTreeItemId p n = getUniqueTreeItemId q m -> p = q /\ n = m.
Proof.
  unfold getUniqueTreeItemId. intros E.
  apply (f_equal chars) in E. rewrite !chars_app in E.
  change (chars "-") with ["-"%char] in E. simpl in E.
  apply split_at_last in E as [Hp Hn]; try apply Number_toString_no_hyphen.
  split; [now apply chars_inj | apply Number_toString_inj; now apply chars_inj].
Qed.

(** *** The counter of the flattening, on the partial ids alone *)
Lemma occurrencesUpTo_here (p : string) (l : list string) :
  occurrencesUpTo p 0 (p :: l) = 1.
Proof.
  unfold occurrencesUpTo. simpl take. rewrite take_0.
  now rewrite filter_cons_True.
Qed.

Lemma occurrencesUpTo_later (p q : string) (i : nat) (l : list string) :
  occurrencesUpTo q (S i) (p :: l)
  = (if decide (p = q) then 1 else 0) + occurrencesUpTo q i l.
Proof.
  unfold occurrencesUpTo. change (take (S (S i)) (p :: l)) with (p :: take (S i) l).
  destruct (decide (p = q)) as [->|Hne].
  - now rewrite filter_cons_True.
  - now rewrite filter_cons_False.
Qed.

Lemma assignIds_formula (partialIds : list string) :
  forall counts,
    assignIds partialIds counts
    = imap (fun i p =>
              getUniqueTreeItemId p
                (default 0 (counts !! p) + occurrencesUpTo p i partialIds))
           partialIds.
Proof.
  induction partialIds as [|p rest IH]; intros counts; [reflexivity|].
  simpl assignIds. rewrite imap_cons, occurrencesUpTo_here. f_equal.
  rewrite IH. apply imap_ext. intros j q _. simpl.
  rewrite occurrencesUpTo_later. f_equal.
  destruct (decide (p = q)) as [->|Hne].
  - rewrite lookup_insert_eq. simpl. lia.
  - rewrite lookup_insert_ne by exact Hne. lia.
Qed.

Lemma assignIds_above (partialIds : list string) :
  forall counts x,
    x ∈ assignIds partialIds counts ->
    exists q n, x = getUniqueTreeItemId q n /\ default 0 (counts !! q) < n.
Proof.
  induction partialIds as [|p rest IH]; intros counts x Hx.
  - now apply elem_of_nil in Hx.
  - simpl in Hx. apply elem_of_cons in Hx as [->|Hx].
    + eexists _, _. split; [reflexivity | lia].
    + apply IH in Hx as (q & n & -> & Hn). exists q, n. split; [reflexivity|].
      destruct (decide (p = q)) as [->|Hne].
      * rewrite lookup_insert_eq in Hn. simpl in Hn. lia.
      * now rewrite lookup_insert_ne in Hn.
Qed.

Lemma assignIds_from (partialIds : list string) :
  forall counts x,
    x ∈ assignIds partialIds counts ->
    exists q n, x = getUniqueTreeItemId q n /\ q ∈ partialIds.
Proof.
  induction partialIds as [|p rest IH]; intros counts x Hx.
  - now apply elem_of_nil in Hx.
  - simpl in Hx. apply elem_of_cons in Hx as [->|Hx].
    + eexists _, _. split; [reflexivity | left].
    + apply IH in Hx as (q & n & -> & Hq). exists q, n.
      split; [reflexivity | now right].
Qed.

Lemma assignIds_NoDup (partialIds : list string) :
  forall counts, NoDup (assignIds partialIds counts).
Proof.
  induction partialIds as [|p rest IH]; intros counts; simpl; constructor.
  - intros Hin. apply assignIds_above in Hin as (q & n & E & Hn).
    apply getUniqueTreeItemId_inj in E as [<- <-].
    rewrite lookup_insert_eq in Hn. simpl in Hn. lia.
  - apply IH.
Qed.

(** *** The two flattenings run that counter *)
Context {Region : Type}.
Context (getRegionDisplayName : Region -> string).
Context (getRegionRange : Region -> Range).
Context (getSymbolThemeIconId : SymbolKind -> string).

Lemma flattenRegions_ids (regions : list Region) :
  forall counts heap,
    map id (flattenRegions getRegionDisplayName getRegionRange regions counts heap).1
    = assignIds (map (regionPartialId getRegionDisplayName) regions) counts.
Proof.
  induction regions as [|r rest IH]; intros counts heap; [reflexivity|].
  simpl. specialize (IH (<[regionPartialId getRegionDisplayName r :=
                             default 0 (counts !! regionPartialId getRegionDisplayName r) + 1]> counts)
                        (S heap)).
  unfold regionPartialId in *. simpl in *.
  destruct (flattenRegions _ _ rest _ _) as [items heap'].
  simpl in *. now rewrite IH.
Qed.

Lemma flattenRegions_names (regions : list Region) :
  forall counts heap,
    map displayName
        (flattenRegions getRegionDisplayName getRegionRange regions counts heap).1
    = map getRegionDisplayName regions.
Proof.
  induction regions as [|r rest IH]; intros counts heap; [reflexivity|].
  simpl. specialize (IH (<[regionPartialId getRegionDisplayName r :=
                             default 0 (counts !! regionPartialId getRegionDisplayName r) + 1]> counts)
                        (S heap)).
  unfold regionPartialId in *. simpl in *.
  destruct (flattenRegions _ _ rest _ _) as [items heap'].
  simpl in *. now rewrite IH.
Qed.

Lemma extractSymbolModifiersWithCache_returns symbol document cache :
  returns (extractSymbolModifiersWithCache symbol document cache).
Proof.
  unfold extractSymbolModifiersWithCache.
  destruct (Map_get _ cache); [eexists; reflexivity|].
  destruct (extractSymbolModifiers_returns symbol document) as [m ->].
  eexists. reflexivity.
Qed.

Lemma flattenSymbols_ids (symbols : list DocumentSymbol) document modifierConfig :
  forall counts cache heap,
    exists items cache' heap',
      flattenSymbols getSymbolThemeIconId symbols document modifierConfig
                     counts cache heap
      = Returned (items, cache', heap')
      /\ map id items = assignIds (map (symbolPartialId getSymbolThemeIconId) symbols) counts.
Proof.
  induction symbols as [|s rest IH]; intros counts cache heap.
  - eexists _, _, _. split; reflexivity.
  - simpl.
    assert (Hm : returns
                   (match showVisibilityColors modifierConfig, document with
                    | true, Some d => extractSymbolModifiersWithCache s d cache
                    | _, _ => Returned (getDefaultModifiers, cache)
                    end)).
    { destruct (showVisibilityColors modifierConfig), document;
        try (eexists; reflexivity).
      apply extractSymbolModifiersWithCache_returns. }
    destruct Hm as [[m cache1] ->].
    change (Returned (m, cache1) ≫= ?k) with (k (m, cache1)). cbv beta iota.
    destruct (IH (<[symbolPartialId getSymbolThemeIconId s :=
                      default 0 (counts !! symbolPartialId getSymbolThemeIconId s) + 1]> counts)
                 cache1 (S heap)) as (items & cache' & heap' & E & Hids).
    unfold symbolPartialId in *. rewrite E.
    eexists _, _, _. split; [reflexivity|].
    simpl. now rewrite Hids.
Qed.

Lemma occurrencesUpTo_map (f : string -> string) (x : string) (i : nat)
      (l : list string) :
  (forall a b, f a = f b -> a = b) ->
  occurrencesUpTo (f x) i (map f l) = occurrencesUpTo x i l.
Proof.
  intros Hinj. unfold occurrencesUpTo. rewrite firstn_map.
  induction (take (S i) l) as [|y t IH]; [reflexivity|].
  simpl map. destruct (decide (y = x)) as [->|Hne].
  - rewrite !filter_cons_True by reflexivity. simpl. now rewrite IH.
  - rewrite !filter_cons_False; [exact IH | exact Hne |].
    intros E. apply Hne. now apply Hinj.
Qed.

Lemma regionPartialId_occurrences (names : list string) (name : string) (i : nat) :
  occurrencesUpTo (getPartialTreeItemId name "region") i
                  (map (fun n => getPartialTreeItemId n "region") names)
  = occurrencesUpTo name i names.
Proof.
  rewrite (occurrencesUpTo_map (fun n => getPartialTreeItemId n "region")).
  - reflexivity.
  - unfold getPartialTreeItemId. intros a b E.
    now apply String.app_inj, String.app_inj in E.
Qed.

Lemma app_assoc_string (a b c : string) : (a +:+ b) +:+ c = a +:+ b +:+ c.
Proof. apply chars_inj. rewrite !chars_app. now rewrite app_assoc. Qed.

Lemma region_ids_formula (regions : list Region) (heap : nat) :
  map id (getFlattenedRegionFullTreeItems getRegionDisplayName getRegionRange
            regions heap).1
  = imap (regionItemId (map getRegionDisplayName regions))
         (map getRegionDisplayName regions).
Proof.
  unfold getFlattenedRegionFullTreeItems.
  rewrite flattenRegions_ids, assignIds_formula.
  unfold regionPartialId.
  rewrite <- (map_map getRegionDisplayName (fun n => getPartialTreeItemId n "region")).
  change (map (fun n => getPartialTreeItemId n "region") ?l)
    with ((fun n => getPartialTreeItemId n "region") <$> l) at 1.
  rewrite imap_fmap. apply imap_ext. intros i name _. simpl.
  rewrite lookup_empty, regionPartialId_occurrences. simpl.
  unfold getUniqueTreeItemId, getPartialTreeItemId, regionItemId.
  now rewrite !app_assoc_string.
Qed.
End IdFacts.

Section SymbolIdFacts.
Import JS Vscode SymbolModifiers ExtractSymbolModifiers FullTreeItems Statements
       IdStatements.

Context (getSymbolThemeIconId : SymbolKind -> string).

(** The id of the [i]-th symbol item is its partial id and its rank among
    the symbols of that partial id. *)
Lemma symbol_id_by_partial_id symbols document modifierConfig cache heap
      items cache' heap' (i : nat) s item :
  getFlattenedSymbolFullTreeItems getSymbolThemeIconId symbols document
    modifierConfig cache heap
  = Returned (items, cache', heap') ->
  symbols !! i = Some s ->
  items !! i = Some item ->
  id item
  = rankedItemId (map (symbolPartialId getSymbolThemeIconId) symbols) i
                 (symbolPartialId getSymbolThemeIconId s).
Proof.
  intros E Hs Hitem.
  destruct (flattenSymbols_ids getSymbolThemeIconId symbols document
              modifierConfig ∅ cache heap)
    as (items0 & c & h & E' & Hids).
  unfold getFlattenedSymbolFullTreeItems in E. rewrite E in E'.
  injection E' as <- _ _.
  rewrite assignIds_formula in Hids.
  apply (f_equal (fun l => l !! i)) in Hids.
  change (map id items) with (id <$> items) in Hids.
  change (map (symbolPartialId getSymbolThemeIconId) symbols)
    with (symbolPartialId getSymbolThemeIconId <$> symbols) in Hids at 1.
  rewrite list_lookup_imap, !list_lookup_fmap, Hitem, Hs in Hids.
  simpl in Hids. rewrite lookup_empty in Hids. simpl in Hids.
  injection Hids as ->. reflexivity.
Qed.

Lemma symbol_names symbols document modifierConfig :
  forall counts cache heap items cache' heap',
    flattenSymbols getSymbolThemeIconId symbols document modifierConfig
                   counts cache heap
    = Returned (items, cache', heap') ->
    map displayName items = map name symbols.
Proof.
  induction symbols as [|s rest IH]; intros counts cache heap items cache' heap' E.
  - injection E as <- _ _. reflexivity.
  - simpl in E.
    destruct (match showVisibilityColors modifierConfig, document with
              | true, Some d => extractSymbolModifiersWithCache s d cache
              | _, _ => Returned (getDefaultModifiers, cache)
              end) as [[m cache1]|msg]; [|discriminate E].
    change (Returned (m, cache1) ≫= ?k) with (k (m, cache1)) in E. cbv beta iota in E.
    destruct (flattenSymbols _ rest _ _ _ _ _) as [[[items1 cache2] heap2]|msg] eqn:E1;
      [|discriminate E].
    injection E as <- _ _. simpl. f_equal. exact (IH _ _ _ _ _ _ E1).
Qed.

(** Where the partial ids tell kinds and names apart, the rank among the
    symbols of a partial id is the rank among the symbols of a kind and
    name. *)
Lemma occurrences_by_kind_and_name symbols (i : nat) s :
  partialIdsSeparate getSymbolThemeIconId symbols ->
  symbols !! i = Some s ->
  occurrencesUpTo (symbolPartialId getSymbolThemeIconId s) i
                  (map (symbolPartialId getSymbolThemeIconId) symbols)
  = kindAndNameOccurrencesUpTo getSymbolThemeIconId s i symbols.
Proof.
  intros Hsep Hs. unfold occurrencesUpTo, kindAndNameOccurrencesUpTo.
  rewrite firstn_map.
  assert (Hin : s ∈ symbols) by (eapply list_elem_of_lookup_2; exact Hs).
  assert (Hsub : forall q, q ∈ take (S i) symbols -> q ∈ symbols).
  { intros q Hq. rewrite <- (take_drop (S i) symbols). apply elem_of_app. now left. }
  induction (take (S i) symbols) as [|q t IH]; [reflexivity|].
  simpl map.
  assert (Hq : q ∈ symbols) by (apply Hsub; left).
  assert (Ht : forall x, x ∈ t -> x ∈ symbols) by (intros x Hx; apply Hsub; now right).
  destruct (decide (symbolPartialId getSymbolThemeIconId q
                    = symbolPartialId getSymbolThemeIconId s)) as [Heq|Hne].
  - rewrite filter_cons_True by exact Heq.
    rewrite filter_cons_True by (exact (Hsep q s Hq Hin Heq)).
    simpl. now rewrite IH.
  - rewrite filter_cons_False by exact Hne.
    rewrite filter_cons_False; [now apply IH|].
    intros [Hk Hn]. apply Hne. unfold symbolPartialId. now rewrite Hk, Hn.
Qed.

Lemma symbol_id_by_kind_and_name symbols document modifierConfig cache heap
      items cache' heap' (i : nat) s item :
  getFlattenedSymbolFullTreeItems getSymbolThemeIconId symbols document
    modifierConfig cache heap
  = Returned (items, cache', heap') ->
  partialIdsSeparate getSymbolThemeIconId symbols ->
  symbols !! i = Some s ->
  items !! i = Some item ->
  id item = symbolItemId getSymbolThemeIconId symbols i s.
Proof.
  intros E Hsep Hs Hitem.
  rewrite (symbol_id_by_partial_id _ _ _ _ _ _ _ _ _ _ _ E Hs Hitem).
  unfold rankedItemId, symbolItemId.
  rewrite (occurrences_by_kind_and_name _ _ _ Hsep Hs).
  unfold symbolPartialId, getPartialTreeItemId. now rewrite !app_assoc_string.
Qed.
End SymbolIdFacts.

Section IdClaim.
Import JS Vscode SymbolModifiers ExtractSymbolModifiers FullTreeItems Statements
       IdStatements.

(** Region ids and symbol ids cannot meet when the icon ids of the symbol
    kinds do not begin like a region id. *)
Lemma region_and_symbol_ids_differ (name1 name2 iconId : string) (n m : nat) :
  startsWith iconId "r" = false ->
  getUniqueTreeItemId (getPartialTreeItemId name1 "region") n
  <> getUniqueTreeItemId (getPartialTreeItemId name2 iconId) m.
Proof.
  unfold getUniqueTreeItemId, getPartialTreeItemId. intros Hs E.
  apply (f_equal chars) in E. rewrite !chars_app in E.
  destruct (chars iconId) as [|c rest] eqn:Ec.
  - simpl in E. discriminate E.
  - unfold startsWith in Hs. rewrite Ec in Hs. simpl in Hs, E.
    injection E as <- _. discriminate Hs.
Qed.
Lemma id_of_item (f : nat -> string -> string) (items : list FullTreeItem)
      (i : nat) (item : FullTreeItem) :
  map id items = imap f (map displayName items) ->
  items !! i = Some item ->
  id item = f i (displayName item).
Proof.
  intros E Hi. apply (f_equal (fun l => l !! i)) in E.
  change (map id items) with (id <$> items) in E.
  change (map displayName items) with (displayName <$> items) in E.
  rewrite list_lookup_imap, !list_lookup_fmap, Hi in E. simpl in E. congruence.
Qed.

(** C7.  In each flattened list the id of an item is its partial id (its
    kind identifier, a hyphen, its display name), a hyphen and the rank of
    the item among the items of the list with that partial id, and the ids
    of a list are pairwise distinct, whatever the kinds and names.  For the
    regions the rank is the rank among the regions of the same name.  Two
    items, of one list or of two generations, that have the same partial id
    and the same rank among the items of that partial id have the same id:
    for region items this is the same name and the same rank among the
    regions of that name; for symbol items it is the same kind identifier,
    name and rank among the symbols of that kind and name in every list
    whose partial ids tell kinds and names apart, and there the id is made
    of the kind identifier, the name and that rank.  A region item and a
    symbol item have different ids as long as no icon id of a symbol kind
    begins with the letter r.  [getSymbolThemeIconId] is any function. *)
Theorem flattened_item_ids_unique_and_stable :
  forall (Region : Type) (getRegionDisplayName : Region -> string)
         (getRegionRange : Region -> Range)
         (getSymbolThemeIconId : SymbolKind -> string),
    (forall regions heap,
        let items :=
          (getFlattenedRegionFullTreeItems getRegionDisplayName getRegionRange
             regions heap).1 in
        let names := map getRegionDisplayName regions in
        map displayName items = names
        /\ map id items = imap (regionItemId names) names
        /\ NoDup (map id items))
    /\ (forall symbols document modifierConfig cache heap,
           exists items cache' heap',
             getFlattenedSymbolFullTreeItems getSymbolThemeIconId symbols document
               modifierConfig cache heap
             = Returned (items, cache', heap')
             /\ map displayName items = map name symbols
             /\ (let partialIds :=
                   map (symbolPartialId getSymbolThemeIconId) symbols in
                 map id items = imap (rankedItemId partialIds) partialIds)
             /\ NoDup (map id items))
    /\ (forall regions1 heap1 regions2 heap2 i j item1 item2,
           let items1 :=
             (getFlattenedRegionFullTreeItems getRegionDisplayName getRegionRange
                regions1 heap1).1 in
           let items2 :=
             (getFlattenedRegionFullTreeItems getRegionDisplayName getRegionRange
                regions2 heap2).1 in
           items1 !! i = Some item1 ->
           items2 !! j = Some item2 ->
           displayName item1 = displayName item2 ->
           occurrencesUpTo (displayName item1) i (map displayName items1)
           = occurrencesUpTo (displayName item2) j (map displayName items2) ->
           id item1 = id item2)
    /\ (forall symbols1 document1 modifierConfig1 cache1 heap1 items1 cache1' heap1'
               symbols2 document2 modifierConfig2 cache2 heap2 items2 cache2' heap2'
               (i j : nat) s1 s2 item1 item2,
           getFlattenedSymbolFullTreeItems getSymbolThemeIconId symbols1 document1
             modifierConfig1 cache1 heap1
           = Returned (items1, cache1', heap1') ->
           getFlattenedSymbolFullTreeItems getSymbolThemeIconId symbols2 document2
             modifierConfig2 cache2 heap2
           = Returned (items2, cache2', heap2') ->
           symbols1 !! i = Some s1 ->
           symbols2 !! j = Some s2 ->
           items1 !! i = Some item1 ->
           items2 !! j = Some item2 ->
           symbolPartialId getSymbolThemeIconId s1
           = symbolPartialId getSymbolThemeIconId s2 ->
           occurrencesUpTo (symbolPartialId getSymbolThemeIconId s1) i
                           (map (symbolPartialId getSymbolThemeIconId) symbols1)
           = occurrencesUpTo (symbolPartialId getSymbolThemeIconId s2) j
                             (map (symbolPartialId getSymbolThemeIconId) symbols2) ->
           id item1 = id item2)
    /\ (forall symbols document modifierConfig cache heap items cache' heap'
               (i : nat) s item,
           getFlattenedSymbolFullTreeItems getSymbolThemeIconId symbols document
             modifierConfig cache heap
           = Returned (items, cache', heap') ->
           partialIdsSeparate getSymbolThemeIconId symbols ->
           symbols !! i = Some s ->
           items !! i = Some item ->
           id item = symbolItemId getSymbolThemeIconId symbols i s)
    /\ (forall symbols1 document1 modifierConfig1 cache1 heap1 items1 cache1' heap1'
               symbols2 document2 modifierConfig2 cache2 heap2 items2 cache2' heap2'
               (i j : nat) s1 s2 item1 item2,
           getFlattenedSymbolFullTreeItems getSymbolThemeIconId symbols1 document1
             modifierConfig1 cache1 heap1
           = Returned (items1, cache1', heap1') ->
           getFlattenedSymbolFullTreeItems getSymbolThemeIconId symbols2 document2
             modifierConfig2 cache2 heap2
           = Returned (items2, cache2', heap2') ->
           partialIdsSeparate getSymbolThemeIconId symbols1 ->
           partialIdsSeparate getSymbolThemeIconId symbols2 ->
           symbols1 !! i = Some s1 ->
           symbols2 !! j = Some s2 ->
           items1 !! i = Some item1 ->
           items2 !! j = Some item2 ->
           getSymbolThemeIconId (kind s1) = getSymbolThemeIconId (kind s2) ->
           name s1 = name s2 ->
           kindAndNameOccurrencesUpTo getSymbolThemeIconId s1 i symbols1
           = kindAndNameOccurrencesUpTo getSymbolThemeIconId s2 j symbols2 ->
           id item1 = id item2)
    /\ ((forall k, startsWith (getSymbolThemeIconId k) "r" = false) ->
        forall regions heap symbols document modifierConfig cache heap2
               symbolItems cache' heap' regionItem symbolItem,
          getFlattenedSymbolFullTreeItems getSymbolThemeIconId symbols document
            modifierConfig cache heap2
          = Returned (symbolItems, cache', heap') ->
          regionItem ∈ (getFlattenedRegionFullTreeItems getRegionDisplayName
                          getRegionRange regions heap).1 ->
          symbolItem ∈ symbolItems ->
          id regionItem <> id symbolItem).
Proof.
  intros Region getRegionDisplayName getRegionRange getSymbolThemeIconId.
  split; [|split; [|split; [|split; [|split; [|split]]]]].
  - intros regions heap items names. split; [|split].
    + apply flattenRegions_names.
    + apply region_ids_formula.
    + unfold items, getFlattenedRegionFullTreeItems.
      rewrite flattenRegions_ids. apply assignIds_NoDup.
  - intros symbols document modifierConfig cache heap.
    destruct (flattenSymbols_ids getSymbolThemeIconId symbols document
                modifierConfig ∅ cache heap)
      as (items & cache' & heap' & E & Hids).
    exists items, cache', heap'. split; [exact E|]. split; [|split].
    + exact (symbol_names _ _ _ _ _ _ _ _ _ _ E).
    + cbv zeta. rewrite Hids, assignIds_formula. apply imap_ext.
      intros i p _. simpl. now rewrite lookup_empty.
    + rewrite Hids. apply assignIds_NoDup.
  - intros regions1 heap1 regions2 heap2 i j item1 item2 items1 items2
           H1 H2 Hname Hrank.
    assert (F : forall regions heap,
               let items :=
                 (getFlattenedRegionFullTreeItems getRegionDisplayName
                    getRegionRange regions heap).1 in
               map id items
               = imap (regionItemId (map displayName items)) (map displayName items)).
    { intros regions heap items. unfold items.
      pose proof (region_ids_formula getRegionDisplayName getRegionRange
                    regions heap) as R.
      pose proof (flattenRegions_names getRegionDisplayName getRegionRange
                    regions ∅ heap) as N.
      unfold getFlattenedRegionFullTreeItems in *. rewrite N. exact R. }
    rewrite (id_of_item _ _ _ _ (F regions1 heap1) H1).
    rewrite (id_of_item _ _ _ _ (F regions2 heap2) H2).
    unfold regionItemId, items1, items2 in *. now rewrite Hrank, Hname.
  - intros symbols1 document1 modifierConfig1 cache1 heap1 items1 cache1' heap1'
           symbols2 document2 modifierConfig2 cache2 heap2 items2 cache2' heap2'
           i j s1 s2 item1 item2 E1 E2 Hs1 Hs2 Hi1 Hi2 Hpartial Hrank.
    rewrite (symbol_id_by_partial_id _ _ _ _ _ _ _ _ _ _ _ _ E1 Hs1 Hi1).
    rewrite (symbol_id_by_partial_id _ _ _ _ _ _ _ _ _ _ _ _ E2 Hs2 Hi2).
    unfold rankedItemId. now rewrite Hrank, Hpartial.
  - intros symbols document modifierConfig cache heap items cache' heap' i s item
           E Hsep Hs Hi.
    exact (symbol_id_by_kind_and_name _ _ _ _ _ _ _ _ _ _ _ _ E Hsep Hs Hi).
  - intros symbols1 document1 modifierConfig1 cache1 heap1 items1 cache1' heap1'
           symbols2 document2 modifierConfig2 cache2 heap2 items2 cache2' heap2'
           i j s1 s2 item1 item2 E1 E2 Hsep1 Hsep2 Hs1 Hs2 Hi1 Hi2 Hkind Hname Hrank.
    rewrite (symbol_id_by_kind_and_name _ _ _ _ _ _ _ _ _ _ _ _ E1 Hsep1 Hs1 Hi1).
    rewrite (symbol_id_by_kind_and_name _ _ _ _ _ _ _ _ _ _ _ _ E2 Hsep2 Hs2 Hi2).
    unfold symbolItemId. now rewrite Hrank, Hkind, Hname.
  - intros Hicons regions heap symbols document modifierConfig cache heap2
           symbolItems cache' heap' regionItem symbolItem E Hregion Hsymbol.
    apply (list_elem_of_fmap_2 id) in Hregion, Hsymbol.
    change (id <$> ?l) with (map id l) in Hregion, Hsymbol.
    unfold getFlattenedRegionFullTreeItems in Hregion.
    rewrite flattenRegions_ids in Hregion.
    destruct (flattenSymbols_ids getSymbolThemeIconId symbols document
                modifierConfig ∅ cache heap2)
      as (items & c & h & E' & Hids).
    unfold getFlattenedSymbolFullTreeItems in E. rewrite E in E'.
    injection E' as <- _ _. rewrite Hids in Hsymbol.
    apply assignIds_from in Hregion as (q & n & -> & Hq).
    apply assignIds_from in Hsymbol as (q' & m & -> & Hq').
    change (map ?f ?l) with (f <$> l) in Hq, Hq'.
    apply list_elem_of_fmap in Hq as (r & -> & _).
    apply list_elem_of_fmap in Hq' as (sym & -> & _).
    apply region_and_symbol_ids_differ, Hicons.
Qed.
End IdClaim.

Section IdScenario.
Import JS Vscode SymbolModifiers ExtractSymbolModifiers FullTreeItems Statements
       IdStatements.

Lemma icon_ids_do_not_begin_like_region (k : SymbolKind) :
  startsWith (ThemeIconUtils.getSymbolThemeIconId k) "r" = false.
Proof. destruct k; reflexivity. Defined.

Lemma color_symbols_separate :
  partialIdsSeparate ThemeIconUtils.getSymbolThemeIconId
                     [enumColor; memberRed; memberRedAgain].
Proof.
  intros s s' Hs Hs' E.
  repeat (apply elem_of_cons in Hs as [->|Hs]);
    try (now apply elem_of_nil in Hs);
    repeat (apply elem_of_cons in Hs' as [->|Hs']);
    try (now apply elem_of_nil in Hs');
    first [split; reflexivity | vm_compute in E; discriminate E].
Defined.

Lemma palette_symbols_separate :
  partialIdsSeparate ThemeIconUtils.getSymbolThemeIconId
                     [classPalette; enumColor; memberRed; memberRedAgain].
Proof.
  intros s s' Hs Hs' E.
  repeat (apply elem_of_cons in Hs as [->|Hs]);
    try (now apply elem_of_nil in Hs);
    repeat (apply elem_of_cons in Hs' as [->|Hs']);
    try (now apply elem_of_nil in Hs');
    first [split; reflexivity | vm_compute in E; discriminate E].
Defined.

Lemma flattened_item_ids_unique_and_stable_witness :
  let first :=
    (getFlattenedRegionFullTreeItems OutlineModel.getRegionDisplayName
       OutlineModel.getRegionRange
       [("Helpers", Range_new 0 0 4 12); ("Helpers", Range_new 6 0 9 12)] 0).1 in
  let second :=
    (getFlattenedRegionFullTreeItems OutlineModel.getRegionDisplayName
       OutlineModel.getRegionRange
       [("Imports", Range_new 0 0 2 12); ("Helpers", Range_new 4 0 8 12);
        ("Helpers", Range_new 10 0 13 12)] 2).1 in
  let colors := [enumColor; memberRed; memberRedAgain] in
  let palette := [classPalette; enumColor; memberRed; memberRedAgain] in
  (id <$> first !! 1 = Some "region-Helpers-2"
   /\ id <$> first !! 1 = id <$> second !! 2)
  /\ (id <$> symbolItemsOf colors !! 2 = Some "symbol-enum-member-Red-2"
      /\ id <$> symbolItemsOf colors !! 2 = id <$> symbolItemsOf palette !! 3)
  /\ (id <$> symbolItemsOf [enumMemberX; memberX] !! 1
      = id <$> symbolItemsOf [classPalette; enumMemberX; memberX] !! 2)
  /\ id <$> symbolItemsOf palette !! 3
     = Some (symbolItemId ThemeIconUtils.getSymbolThemeIconId palette 3 memberRedAgain)
  /\ forall regionItem symbolItem,
      regionItem ∈ first ->
      symbolItem ∈ symbolItemsOf colors ->
      id regionItem <> id symbolItem.
Proof.
  intros first second colors palette.
  pose proof (flattened_item_ids_unique_and_stable
                OutlineModel.Region OutlineModel.getRegionDisplayName
                OutlineModel.getRegionRange ThemeIconUtils.getSymbolThemeIconId)
    as (_ & _ & Hregions & Hpartial & Hformula & Hkinds & Hacross).
  assert (Ecolors :
            getFlattenedSymbolFullTreeItems ThemeIconUtils.getSymbolThemeIconId colors
              None (getModifierIconConfig off true) [] 0
            = Returned (symbolItemsOf colors, [], 3))
    by (vm_compute; reflexivity).
  assert (Epalette :
            getFlattenedSymbolFullTreeItems ThemeIconUtils.getSymbolThemeIconId palette
              None (getModifierIconConfig off true) [] 0
            = Returned (symbolItemsOf palette, [], 4))
    by (vm_compute; reflexivity).
  split; [|split; [|split; [|split]]].
  - destruct (first !! 1) as [item1|] eqn:E1; [|discriminate E1].
    destruct (second !! 2) as [item2|] eqn:E2; [|discriminate E2].
    assert (H : id item1 = id item2).
    { apply (Hregions
               [("Helpers", Range_new 0 0 4 12); ("Helpers", Range_new 6 0 9 12)] 0
               [("Imports", Range_new 0 0 2 12); ("Helpers", Range_new 4 0 8 12);
                ("Helpers", Range_new 10 0 13 12)] 2 1 2 item1 item2 E1 E2).
      - injection E1 as <-. injection E2 as <-. reflexivity.
      - injection E1 as <-. injection E2 as <-. reflexivity. }
    simpl. rewrite <- H. injection E1 as <-. split; reflexivity.
  - destruct (symbolItemsOf colors !! 2) as [item1|] eqn:E1;
      [|vm_compute in E1; discriminate E1].
    destruct (symbolItemsOf palette !! 3) as [item2|] eqn:E2;
      [|vm_compute in E2; discriminate E2].
    assert (H : id item1 = id item2).
    { apply (Hkinds _ _ _ _ _ _ _ _ _ _ _ _ _ _ _ _ 2 3 memberRedAgain memberRedAgain
               item1 item2 Ecolors Epalette
               color_symbols_separate palette_symbols_separate
               eq_refl eq_refl E1 E2 eq_refl eq_refl).
      vm_compute. reflexivity. }
    simpl. rewrite <- H. vm_compute in E1. injection E1 as <-. split; reflexivity.
  - destruct (symbolItemsOf [enumMemberX; memberX] !! 1) as [item1|] eqn:E1;
      [|vm_compute in E1; discriminate E1].
    destruct (symbolItemsOf [classPalette; enumMemberX; memberX] !! 2)
      as [item2|] eqn:E2; [|vm_compute in E2; discriminate E2].
    simpl. f_equal.
    apply (Hpartial [enumMemberX; memberX] None (getModifierIconConfig off true) [] 0
             (symbolItemsOf [enumMemberX; memberX]) [] 2
             [classPalette; enumMemberX; memberX] None
             (getModifierIconConfig off true) [] 0
             (symbolItemsOf [classPalette; enumMemberX; memberX]) [] 3
             1 2 memberX memberX item1 item2);
      try exact E1; try exact E2; vm_compute; reflexivity.
  - destruct (symbolItemsOf palette !! 3) as [item|] eqn:E;
      [|vm_compute in E; discriminate E].
    simpl. f_equal.
    exact (Hformula _ _ _ _ _ _ _ _ 3 memberRedAgain item Epalette
             palette_symbols_separate eq_refl E).
  - intros regionItem symbolItem.
    exact (Hacross icon_ids_do_not_begin_like_region
             [("Helpers", Range_new 0 0 4 12); ("Helpers", Range_new 6 0 9 12)] 0
             colors None (getModifierIconConfig off true) [] 0
             (symbolItemsOf colors) [] 3 regionItem symbolItem Ecolors).
Defined.

(** C7 fails as stated for the symbol items.  The enum member [X] is the
    only symbol of its kind and name, before and after an enum named
    [member-X] is put above it, and the id of its item goes from
    "symbol-enum-member-X-1" to "symbol-enum-member-X-2", the former id
    going to the enum: the counter follows the partial id, which the two
    symbols share, not the kind and the name. *)
Lemma symbol_id_counter_is_not_by_kind_and_name :
  (id <$> symbolItemsOf [memberX] = ["symbol-enum-member-X-1"]
   /\ id <$> symbolItemsOf [enumMemberX; memberX]
      = ["symbol-enum-member-X-1"; "symbol-enum-member-X-2"]
   /\ kindAndNameOccurrencesUpTo ThemeIconUtils.getSymbolThemeIconId memberX 0 [memberX]
      = 1
   /\ kindAndNameOccurrencesUpTo ThemeIconUtils.getSymbolThemeIconId memberX 1
                                 [enumMemberX; memberX]
      = 1)
  /\ ~ idsFollowKindAndName ThemeIconUtils.getSymbolThemeIconId
  /\ ~ idsStableByKindAndName ThemeIconUtils.getSymbolThemeIconId.
Proof.
  split; [vm_compute; repeat split|].
  assert (Ebefore :
            getFlattenedSymbolFullTreeItems ThemeIconUtils.getSymbolThemeIconId [memberX]
              None (getModifierIconConfig off true) [] 0
            = Returned (symbolItemsOf [memberX], [], 1))
    by (vm_compute; reflexivity).
  assert (Eafter :
            getFlattenedSymbolFullTreeItems ThemeIconUtils.getSymbolThemeIconId
              [enumMemberX; memberX] None (getModifierIconConfig off true) [] 0
            = Returned (symbolItemsOf [enumMemberX; memberX], [], 2))
    by (vm_compute; reflexivity).
  destruct (symbolItemsOf [memberX] !! 0) as [item1|] eqn:E1;
    [|vm_compute in E1; discriminate E1].
  destruct (symbolItemsOf [enumMemberX; memberX] !! 1) as [item2|] eqn:E2;
    [|vm_compute in E2; discriminate E2].
  split.
  - intros Hreading.
    specialize (Hreading _ _ _ _ _ _ _ _ 1 memberX item2 Eafter eq_refl E2).
    vm_compute in E2. injection E2 as <-. vm_compute in Hreading. discriminate Hreading.
  - intros Hreading.
    specialize (Hreading _ _ _ _ _ _ _ _ _ _ _ _ _ _ _ _ 0 1 memberX memberX item1 item2
                       Ebefore Eafter eq_refl eq_refl E1 E2 eq_refl eq_refl eq_refl).
    vm_compute in E1, E2. injection E1 as <-. injection E2 as <-.
    vm_compute in Hreading. discriminate Hreading.
Qed.
End IdScenario.


(* ===================================================================== *)
(** * More on the flattened items *)
(* ===================================================================== *)
Section FlattenFacts.
Import JS Vscode SymbolModifiers ExtractSymbolModifiers FullTreeItems Statements
       MoreStatements.

Context {Region : Type}.
Context (getRegionDisplayName : Region -> string).
Context (getRegionRange : Region -> Range).
Context (getSymbolThemeIconId : SymbolKind -> string).

Lemma flattenRegions_shape (regions : list Region) :
  forall counts heap,
    let result := flattenRegions getRegionDisplayName getRegionRange regions
                                 counts heap in
    result.2 = heap + length regions
    /\ map object result.1 = seq heap (length regions)
    /\ map FullTreeItems.range result.1 = map getRegionRange regions
    /\ Forall (fun item => itemType item = region /\ isLoose item
                           /\ modifiers item = getDefaultModifiers) result.1.
Proof.
  induction regions as [|r rest IH]; intros counts heap.
  - simpl. repeat split; [lia | constructor].
  - cbn [flattenRegions].
    match goal with
    | |- context [flattenRegions _ _ rest ?c ?h] =>
        specialize (IH c h); destruct (flattenRegions _ _ rest c h) as [items heap']
    end.
    simpl in *. destruct IH as (-> & -> & -> & Hall).
    repeat split; [lia|]. constructor; [|exact Hall]. repeat split.
Qed.

Lemma flattenSymbols_shape (symbols : list DocumentSymbol) document modifierConfig :
  forall counts cache heap items cache' heap',
    flattenSymbols getSymbolThemeIconId symbols document modifierConfig
                   counts cache heap = Returned (items, cache', heap') ->
    heap' = heap + length symbols
    /\ map object items = seq heap (length symbols)
    /\ map displayName items = map name symbols
    /\ map FullTreeItems.range items = map Vscode.range symbols
    /\ Forall (fun item => itemType item = symbol /\ isLoose item) items
    /\ (cacheReachable cache -> cacheReachable cache')
    /\ (showVisibilityColors modifierConfig = false \/ document = None ->
        cache' = cache
        /\ Forall (fun item => modifiers item = getDefaultModifiers) items).
Proof.
  induction symbols as [|s rest IH]; intros counts cache heap items cache' heap' E.
  - simpl in E. injection E as <- <- <-. simpl.
    repeat split; auto; try lia; constructor.
  - cbn [flattenSymbols] in E.
    destruct (match showVisibilityColors modifierConfig, document with
              | true, Some d => extractSymbolModifiersWithCache s d cache
              | _, _ => Returned (getDefaultModifiers, cache)
              end) as [[m cache1]|msg] eqn:Hm; [|discriminate E].
    change (Returned (m, cache1) ≫= ?k) with (k (m, cache1)) in E. cbv beta iota in E.
    match type of E with
    | context [flattenSymbols _ rest _ _ ?c cache1 ?h] =>
        destruct (flattenSymbols getSymbolThemeIconId rest document modifierConfig
                                 c cache1 h)
          as [[[items1 cache2] heap2]|msg] eqn:Hrest; [|discriminate E];
        specialize (IH c cache1 h items1 cache2 heap2 Hrest)
    end.
    change (Returned (items1, cache2, heap2) ≫= ?k)
      with (k (items1, cache2, heap2)) in E. cbv beta iota in E.
    injection E as <- <- <-.
    destruct IH as (-> & Hobj & Hnames & Hranges & Hall & Hreach & Hoff).
    simpl. rewrite Hobj, Hnames, Hranges.
    split; [lia|]. repeat split; auto.
    + constructor; [repeat split | exact Hall].
    + intros Hc. apply Hreach.
      destruct (showVisibilityColors modifierConfig), document as [d|];
        try (injection Hm as _ <-; exact Hc).
      eapply reachable_extract; [exact Hc | exact Hm].
    + assert (Hm' : m = getDefaultModifiers /\ cache1 = cache).
      { destruct H as [H| ->].
        - rewrite H in Hm. injection Hm as <- <-. now split.
        - destruct (showVisibilityColors modifierConfig);
            injection Hm as <- <-; now split. }
      destruct Hm' as [_ ->]. now apply Hoff.
    + assert (Hm' : m = getDefaultModifiers /\ cache1 = cache).
      { destruct H as [H| ->].
        - rewrite H in Hm. injection Hm as <- <-. now split.
        - destruct (showVisibilityColors modifierConfig);
            injection Hm as <- <-; now split. }
      destruct Hm' as [-> ->]. constructor; [reflexivity | now apply Hoff].
Qed.

(** X8.  The two flattenings keep the order and the number of their
    input, take the name and the range of each item from its region or
    symbol, and make each item a new object: the items get the object
    identities from [heap] upwards, one each, all with no parent and no
    children yet.  Region items carry the default modifiers. *)
Theorem flattened_items_are_new_loose_objects_in_order :
  (forall (regions : list Region) heap,
      let result := getFlattenedRegionFullTreeItems getRegionDisplayName
                      getRegionRange regions heap in
      result.2 = heap + length regions
      /\ map object result.1 = seq heap (length regions)
      /\ map displayName result.1 = map getRegionDisplayName regions
      /\ map FullTreeItems.range result.1 = map getRegionRange regions
      /\ Forall (fun item => itemType item = region /\ isLoose item
                             /\ modifiers item = getDefaultModifiers) result.1)
  /\ (forall symbols document modifierConfig cache heap,
         exists items cache',
           getFlattenedSymbolFullTreeItems getSymbolThemeIconId symbols document
             modifierConfig cache heap
           = Returned (items, cache', heap + length symbols)
           /\ map object items = seq heap (length symbols)
           /\ map displayName items = map name symbols
           /\ map FullTreeItems.range items = map Vscode.range symbols
           /\ Forall (fun item => itemType item = symbol /\ isLoose item) items).
Proof.
  split.
  - intros regions heap result.
    destruct (flattenRegions_shape regions ∅ heap) as (H1 & H2 & H3 & H4).
    split; [exact H1|]. split; [exact H2|].
    split; [apply flattenRegions_names|]. split; [exact H3 | exact H4].
  - intros symbols document modifierConfig cache heap.
    destruct (flattenSymbols_ids getSymbolThemeIconId symbols document
                modifierConfig ∅ cache heap) as (items & cache' & heap' & E & _).
    destruct (flattenSymbols_shape _ _ _ _ _ _ _ _ _ E)
      as (-> & H2 & H3 & H4 & H5 & _).
    exists items, cache'. now repeat split.
Qed.

(** X9.  With the setting [modifierDisplay] at "off", or without an
    active document, the symbol flattening reads no modifiers: every item
    carries the default modifiers and the modifier cache is left as it is.
    In every case a cache the process can hold stays one: the flattening
    never leaves more than 5000 entries. *)
Theorem symbol_flattening_and_the_modifier_cache :
  forall symbols document modifierConfig cache heap items cache' heap',
    getFlattenedSymbolFullTreeItems getSymbolThemeIconId symbols document
      modifierConfig cache heap = Returned (items, cache', heap') ->
    (showVisibilityColors modifierConfig = false \/ document = None ->
     cache' = cache
     /\ Forall (fun item => modifiers item = getDefaultModifiers) items)
    /\ (cacheReachable cache ->
        cacheReachable cache' /\ Map_size cache' <= 5000).
Proof.
  intros symbols document modifierConfig cache heap items cache' heap' E.
  destruct (flattenSymbols_shape _ _ _ _ _ _ _ _ _ E)
    as (_ & _ & _ & _ & _ & Hreach & Hoff).
  split; [exact Hoff|]. intros Hc. split; [now apply Hreach|].
  now apply cacheReachable_invariant, Hreach.
Qed.
End FlattenFacts.

Section FlattenWitness.
Import JS Vscode SymbolModifiers ExtractSymbolModifiers FullTreeItems Statements
       MoreStatements.

Lemma symbol_flattening_and_the_modifier_cache_witness :
  let symbols :=
    [mkDocumentSymbol "run" Method (Range_new 1 2 2 3) (Range_new 1 9 1 12)] in
  let document :=
    mkTextDocument "file:///a.ts" 7 "typescript"
      ["class A {"; "  public run() {"; "  }"; "}"] LF in
  let items :=
    [getFlattenedFullTreeItem 0 "symbol-method-run-1" symbol "run"
       (Range_new 1 2 2 3) getDefaultModifiers] in
  getFlattenedSymbolFullTreeItems OutlineModel.getSymbolThemeIconId symbols
    (Some document) (getModifierIconConfig off true) [] 0
  = Returned (items, [], 1)
  /\ Forall (fun item => modifiers item = getDefaultModifiers) items.
Proof.
  intros symbols document items. split; [reflexivity|].
  apply (proj1 (symbol_flattening_and_the_modifier_cache
                  OutlineModel.getSymbolThemeIconId symbols (Some document)
                  (getModifierIconConfig off true) [] 0 items [] 1 eq_refl)).
  left. reflexivity.
Defined.
End FlattenWitness.

(* ===================================================================== *)
(** * The cache key *)
(* ===================================================================== *)
Section CacheKey.
Import JS Vscode SymbolModifiers ExtractSymbolModifiers Statements KeyScenario.

Lemma string_of_uint_no_colon (d : uint) :
  ":"%char ∉ chars (NilEmpty.string_of_uint d).
Proof.
  induction d; simpl; try apply not_elem_of_nil;
    apply not_elem_of_cons; (split; [discriminate | assumption]).
Qed.

Lemma split_at_first (sep : ascii) :
  forall d1 d2 r1 r2 : list ascii,
    sep ∉ d1 -> sep ∉ d2 ->
    d1 ++ sep :: r1 = d2 ++ sep :: r2 ->
    d1 = d2 /\ r1 = r2.
Proof.
  induction d1 as [|a d1 IH]; intros [|b d2] r1 r2 H1 H2 E; simpl in E.
  - injection E as ->. now split.
  - injection E as <- _. destruct H2. left.
  - injection E as -> _. destruct H1. left.
  - injection E as -> E. apply not_elem_of_cons in H1 as [_ H1], H2 as [_ H2].
    destruct (IH _ _ _ H1 H2 E) as [-> ->]. now split.
Qed.

(** A number and what follows its colon are read off a key in one way. *)
Lemma number_field_inj (n m : nat) (r1 r2 : string) :
  Number_toString n +:+ ":" +:+ r1 = Number_toString m +:+ ":" +:+ r2 ->
  n = m /\ r1 = r2.
Proof.
  intros E. apply (f_equal chars) in E. rewrite !chars_app in E.
  change (chars ":") with [":"%char] in E. simpl in E.
  apply split_at_first in E as [Hn Hr]; try apply string_of_uint_no_colon.
  split; [apply Number_toString_inj; now apply chars_inj | now apply chars_inj].
Qed.

(** X7.  Within one document (one uri) the cache key tells the entries
    apart: two keys are equal exactly when the document version, the start
    position of the symbol's range and the symbol's name are.  The kind of
    the symbol, the end of its range and its selection range play no part. *)
Theorem cache_key_separates_versions_and_symbols :
  forall symbol symbol' version version' documentUri,
    getSymbolCacheKey symbol version documentUri
    = getSymbolCacheKey symbol' version' documentUri
    <-> version = version'
        /\ start (range symbol) = start (range symbol')
        /\ name symbol = name symbol'.
Proof.
  intros symbol symbol' v v' documentUri. unfold getSymbolCacheKey. split.
  - intros E. apply String.app_inj, String.app_inj in E.
    apply number_field_inj in E as [Hv E].
    apply number_field_inj in E as [Hl E].
    apply number_field_inj in E as [Hc E].
    split; [exact Hv|]. split; [|exact E].
    destruct (start (range symbol)), (start (range symbol')). simpl in *. congruence.
  - intros (-> & -> & ->). reflexivity.
Qed.

(** C4.  The key does not tell two documents apart when the uri of one is
    the uri of the other followed by a colon and a number.  The two symbols
    differ in uri, version, start position and name, yet their keys are the
    same string; after the call for the first symbol, the call for the
    second finds that entry: it returns the modifiers of the first symbol
    (private, static), not those an extraction gives for the second
    (public, not static), and it inserts nothing. *)
Theorem cache_key_shared_by_two_symbols :
  (uri hostDocument <> uri portDocument
   /\ version hostDocument <> version portDocument
   /\ start (range hostSymbol) <> start (range portSymbol)
   /\ name hostSymbol <> name portSymbol)
  /\ getSymbolCacheKey hostSymbol (version hostDocument) (uri hostDocument)
     = getSymbolCacheKey portSymbol (version portDocument) (uri portDocument)
  /\ exists cached fresh cache,
      extractSymbolModifiersWithCache hostSymbol hostDocument [] = Returned (cached, cache)
      /\ cache = [("memfs://box:22:1:2:4:run", cached)]
      /\ extractSymbolModifiers portSymbol portDocument = Returned fresh
      /\ visibility cached = private /\ isStatic (memberModifiers cached) = true
      /\ visibility fresh = public /\ isStatic (memberModifiers fresh) = false
      /\ extractSymbolModifiersWithCache portSymbol portDocument cache
         = Returned (cached, cache).
Proof.
  split; [repeat split; discriminate|]. split; [reflexivity|].
  vm_compute. eexists _, _, _. repeat split.
Qed.
End CacheKey.

Section CacheRunFacts.
Import JS Vscode SymbolModifiers ExtractSymbolModifiers Statements CacheRun.

Lemma numberedKey_inj (i j : nat) : numberedKey i = numberedKey j -> i = j.
Proof.
  unfold numberedKey, getSymbolCacheKey. simpl. intros E.
  repeat apply String.app_inj in E. now apply Number_toString_inj.
Qed.

Lemma numberedCache_keys (n : nat) :
  Map_keys (numberedCache n) = map numberedKey (seq 0 n).
Proof. unfold Map_keys, numberedCache. now rewrite map_map. Qed.

Lemma numberedCache_size (n : nat) : Map_size (numberedCache n) = n.
Proof. unfold Map_size, numberedCache. now rewrite length_map, length_seq. Qed.

Lemma numberedCache_S (n : nat) :
  numberedCache (S n) = numberedCache n ++ [(numberedKey n, getDefaultModifiers)].
Proof. unfold numberedCache. now rewrite seq_S, map_app. Qed.

Lemma numberedCache_miss (n : nat) : Map_get (numberedKey n) (numberedCache n) = None.
Proof.
  apply Map_get_None. rewrite numberedCache_keys. intros Hin.
  change (map numberedKey ?l) with (numberedKey <$> l) in Hin.
  apply list_elem_of_fmap in Hin as (i & E & Hi).
  apply numberedKey_inj in E. subst i.
  apply elem_of_seq in Hi. lia.
Qed.

(** The calls for the symbols 0, ..., [n - 1], up to the bound, leave the
    cache [numberedCache n]. *)
Lemma numberedCache_reachable (n : nat) :
  n <= 5000 -> cacheReachable (numberedCache n).
Proof.
  induction n as [|n IH]; intros Hn; [apply reachable_initial|].
  specialize (IH ltac:(lia)).
  apply (reachable_extract (numberedSymbol n) plainDocument (numberedCache n)
                           getDefaultModifiers); [exact IH|].
  rewrite (extractSymbolModifiersWithCache_miss _ _ _ getDefaultModifiers
             (proj1 (cacheReachable_invariant _ IH)) (numberedCache_miss n) eq_refl).
  cbv zeta. fold (numberedKey n). rewrite <- numberedCache_S.
  rewrite numberedCache_size.
  destruct (Nat.ltb_spec 5000 (S n)) as [Hgt|_]; [lia | reflexivity].
Qed.
End CacheRunFacts.

Section CacheWitness.
Import JS Vscode SymbolModifiers ExtractSymbolModifiers Statements CacheRun.

Lemma modifier_cache_hit_miss_eviction_witness :
  (exists modifiers cache,
      extractSymbolModifiersWithCache
        (mkDocumentSymbol "run" Method (Range_new 1 2 2 3) (Range_new 1 9 1 12))
        (mkTextDocument "file:///a.ts" 7 "typescript"
           ["class A {"; "  public run() {"; "  }"; "}"] LF)
        []
      = Returned (modifiers, cache)
      /\ cache = [("file:///a.ts:7:1:2:run", modifiers)]
      /\ extractSymbolModifiersWithCache
           (mkDocumentSymbol "run" Method (Range_new 1 2 2 3) (Range_new 1 9 1 12))
           (mkTextDocument "file:///a.ts" 7 "typescript"
              ["class A {"; "  public run() {"; "  }"; "}"] LF)
           cache
         = Returned (modifiers, cache))
  /\ exists modifiers cache,
      extractSymbolModifiersWithCache (numberedSymbol 5000) plainDocument
                                      (numberedCache 5000)
      = Returned (modifiers, cache)
      /\ cache = drop 1000 (numberedCache 5000 ++ [(numberedKey 5000, modifiers)])
      /\ Map_size cache = 4001.
Proof.
  split.
  - set (symbol := mkDocumentSymbol "run" Method (Range_new 1 2 2 3)
                                    (Range_new 1 9 1 12)).
    set (document := mkTextDocument "file:///a.ts" 7 "typescript"
                       ["class A {"; "  public run() {"; "  }"; "}"] LF).
    destruct (modifier_cache_hit_miss_eviction [] symbol document reachable_initial)
      as (modifiers & cache & Hcall & _ & Hmiss & _).
    destruct (Hmiss eq_refl) as (_ & Hsmall & _).
    assert (Hcache : cache = [("file:///a.ts:7:1:2:run", modifiers)])
      by (apply Hsmall; vm_compute; lia).
    exists modifiers, cache. split; [exact Hcall|]. split; [exact Hcache|].
    destruct (modifier_cache_hit_miss_eviction cache symbol document
                (reachable_extract symbol document [] modifiers cache
                                   reachable_initial Hcall))
      as (again & cache' & Hagain & Hhit & _).
    destruct (Hhit modifiers) as [-> ->]; [|exact Hagain].
    rewrite Hcache. unfold Map_get. simpl. reflexivity.
  - destruct (modifier_cache_hit_miss_eviction (numberedCache 5000)
                (numberedSymbol 5000) plainDocument
                (numberedCache_reachable 5000 (le_n 5000)))
      as (modifiers & cache & Hcall & _ & Hmiss & _).
    destruct (Hmiss (numberedCache_miss 5000)) as (_ & _ & Hfull).
    destruct (Hfull (numberedCache_size 5000)) as [Hcache Hsize].
    exists modifiers, cache. split; [exact Hcall|]. split; [exact Hcache | exact Hsize].
Defined.
End CacheWitness.

(* ===================================================================== *)
(** * The full-outline store *)
(* ===================================================================== *)
Section StoreFacts.
Import JS Vscode SymbolModifiers ExtractSymbolModifiers FullTreeItems
       FullOutlineStore Statements.

Context {Region CollapsibleStateManager : Type}.
Context (getRegionDisplayName : Region -> string).
Context (getRegionRange : Region -> Range).
Context (getSymbolThemeIconId : SymbolKind -> string).
Context (generateFullOutlineTreeItems :
           list FullTreeItem -> list FullTreeItem -> CollapsibleStateManager ->
           option string -> list FullTreeItem * gset string).
Context (getActiveFullTreeItem :
           list FullTreeItem -> Position -> option FullTreeItem).

Implicit Types (env : Environment Region CollapsibleStateManager) (s : State).

Lemma clearRefreshActiveItemTimeoutIfExists_spec s :
  clearRefreshActiveItemTimeoutIfExists s = set_refreshActiveItemTimeout None s.
Proof.
  unfold clearRefreshActiveItemTimeoutIfExists.
  destruct s as [? ? ? ? ? ? [t|] ? ? ? ?]; reflexivity.
Qed.

(** A refresh of the items always completes, fires the outline event once
    and leaves the other event and the active item alone. *)
Lemma refreshItems_fires env s :
  exists s',
    refreshItems getRegionDisplayName getRegionRange getSymbolThemeIconId
                 generateFullOutlineTreeItems env s = Returned s'
    /\ firedDidChangeFullOutlineItems s' = S (firedDidChangeFullOutlineItems s)
    /\ firedDidChangeActiveFullOutlineItem s' = firedDidChangeActiveFullOutlineItem s
    /\ _activeItem s' = _activeItem s
    /\ _versionedDocumentId s' = _versionedDocumentId s
    /\ isRefreshingItems s' = false.
Proof.
  unfold refreshItems.
  destruct (getFlattenedRegionFullTreeItems _ _ _ _) as [regionItems heap].
  unfold getFlattenedSymbolFullTreeItems.
  match goal with
  | |- context [flattenSymbols ?f ?l ?d ?c ?m ?k ?h] =>
      destruct (flattenSymbols_ids f l d c m k h)
        as (symbolItems & cache' & heap' & -> & _)
  end.
  change (Returned ?x ≫= ?k) with (k x). cbv beta iota.
  destruct (generateFullOutlineTreeItems _ _ _ _) as [topLevelItems allParentIds].
  eexists. split; [reflexivity|]. repeat split.
Qed.

Lemma refreshActiveItem_fires env s :
  let s' := refreshActiveItem getActiveFullTreeItem env s in
  firedDidChangeFullOutlineItems s' = firedDidChangeFullOutlineItems s
  /\ _topLevelItems s' = _topLevelItems s
  /\ _versionedDocumentId s' = _versionedDocumentId s
  /\ firedDidChangeActiveFullOutlineItem s'
     = match activeTextEditor env with
       | None => firedDidChangeActiveFullOutlineItem s
       | Some editor =>
           if sameObject
                (getActiveFullTreeItem (_topLevelItems s) (selectionActive editor))
                (_activeItem s)
           then firedDidChangeActiveFullOutlineItem s
           else S (firedDidChangeActiveFullOutlineItem s)
       end.
Proof.
  unfold refreshActiveItem. rewrite clearRefreshActiveItemTimeoutIfExists_spec.
  destruct (activeTextEditor env) as [editor|]; simpl; [|repeat split].
  destruct (sameObject _ _); simpl; repeat split.
Qed.

(** C1.  When the versioned document ids of the region store and of the
    symbol store differ, [refreshFullOutline] returns with the store exactly
    as it was: the published items, parent ids and active item are
    untouched and no event fires.  When they are equal the outline is
    recomputed and published.  So a call that changes the store was made
    with equal ids. *)
Theorem outline_refresh_requires_version_agreement :
  forall env s,
    let refreshed :=
      refreshFullOutline getRegionDisplayName getRegionRange getSymbolThemeIconId
                         generateFullOutlineTreeItems getActiveFullTreeItem env s in
    (rs_versionedDocumentId (regionStore env)
       <> ds_versionedDocumentId (documentSymbolStore env) ->
     refreshed = Returned s)
    /\ (rs_versionedDocumentId (regionStore env)
          = ds_versionedDocumentId (documentSymbolStore env) ->
        exists s',
          refreshed = Returned s'
          /\ firedDidChangeFullOutlineItems s' = S (firedDidChangeFullOutlineItems s)
          /\ _versionedDocumentId s' = rs_versionedDocumentId (regionStore env))
    /\ (forall s',
           refreshed = Returned s' -> s' <> s ->
           rs_versionedDocumentId (regionStore env)
           = ds_versionedDocumentId (documentSymbolStore env)).
Proof.
  intros env s refreshed.
  assert (Hdiffer : rs_versionedDocumentId (regionStore env)
                      <> ds_versionedDocumentId (documentSymbolStore env) ->
                    refreshed = Returned s).
  { intros Hne. unfold refreshed, refreshFullOutline.
    now rewrite bool_decide_eq_true_2. }
  split; [exact Hdiffer|]. split.
  - intros Heq. unfold refreshed, refreshFullOutline.
    rewrite bool_decide_eq_false_2 by (intros Hne; now apply Hne).
    match goal with
    | |- context [refreshItems _ _ _ _ env ?s0] =>
        destruct (refreshItems_fires env s0)
          as (s1 & -> & Hfired & _ & _ & Hversion & _)
    end.
    change (Returned ?x ≫= ?k) with (k x). cbv beta.
    eexists. split; [reflexivity|].
    destruct (refreshActiveItem_fires env s1) as (-> & _ & -> & _).
    split; [exact Hfired | exact Hversion].
  - intros s' Hs' Hchanged.
    destruct (decide (rs_versionedDocumentId (regionStore env)
                      = ds_versionedDocumentId (documentSymbolStore env)))
      as [Heq|Hne]; [exact Heq|].
    rewrite (Hdiffer Hne) in Hs'. injection Hs' as <-. now destruct Hchanged.
Qed.

(** C2, as the code has it.  Every refresh of the items fires the outline
    event once, whether or not the new tree differs from the previous one;
    a recomputation of the active item fires its event exactly when there
    is a cursor and the item found is not the very object that was active
    before, so resolving to the same object does not fire. *)
Theorem outline_events_fire_on_refresh_and_on_new_object :
  forall env s,
    (exists s',
        refreshItems getRegionDisplayName getRegionRange getSymbolThemeIconId
                     generateFullOutlineTreeItems env s = Returned s'
        /\ firedDidChangeFullOutlineItems s' = S (firedDidChangeFullOutlineItems s)
        /\ firedDidChangeActiveFullOutlineItem s'
           = firedDidChangeActiveFullOutlineItem s)
    /\ (let s' := refreshActiveItem getActiveFullTreeItem env s in
        firedDidChangeFullOutlineItems s' = firedDidChangeFullOutlineItems s
        /\ firedDidChangeActiveFullOutlineItem s'
           = match activeTextEditor env with
             | None => firedDidChangeActiveFullOutlineItem s
             | Some editor =>
                 if sameObject
                      (getActiveFullTreeItem (_topLevelItems s)
                                             (selectionActive editor))
                      (_activeItem s)
                 then firedDidChangeActiveFullOutlineItem s
                 else S (firedDidChangeActiveFullOutlineItem s)
             end).
Proof.
  intros env s. split.
  - destruct (refreshItems_fires env s) as (s' & E & H1 & H2 & _).
    exists s'. now repeat split.
  - destruct (refreshActiveItem_fires env s) as (H1 & _ & _ & H2). now split.
Qed.

(** C8, as the code has it.  The debounce window of the active-item
    recomputation equals that of the structural resynthesis (100 ms each);
    a selection change that arrives while the items are being refreshed
    leaves the store as it is, with no timer started; otherwise, for the
    active editor, it only (re)starts the timer of the recomputation. *)
Theorem selection_change_debounce_and_gate :
  REFRESH_ACTIVE_ITEM_DEBOUNCE_DELAY_MS = REFRESH_FULL_OUTLINE_DEBOUNCE_DELAY_MS
  /\ REFRESH_ACTIVE_ITEM_DEBOUNCE_DELAY_MS = 100
  /\ (forall env event s,
         isRefreshingItems s = true -> onSelectionChange env event s = s)
  /\ (forall env event s,
         isRefreshingItems s = false ->
         isActiveTextEditor env (textEditor event) = true ->
         onSelectionChange env event s
         = set_refreshActiveItemTimeout
             (Some (mkTimeout REFRESH_ACTIVE_ITEM_DEBOUNCE_DELAY_MS)) s).
Proof.
  split; [reflexivity|]. split; [reflexivity|]. split.
  - intros env event s H. unfold onSelectionChange. now rewrite H.
  - intros env event s H Hactive. unfold onSelectionChange.
    rewrite H, Hactive. unfold debouncedRefreshActiveItem.
    rewrite clearRefreshActiveItemTimeoutIfExists_spec. reflexivity.
Qed.
End StoreFacts.

Section StoreScenario.
Import JS Vscode SymbolModifiers FullTreeItems FullOutlineStore Statements Scenario.

Lemma outline_refresh_requires_version_agreement_witness :
  OutlineModel.refreshFullOutline laggingEnvironment publishedState
  = Returned publishedState
  /\ exists s',
      OutlineModel.refreshFullOutline agreeingEnvironment publishedState = Returned s'
      /\ firedDidChangeFullOutlineItems s'
         = S (firedDidChangeFullOutlineItems publishedState)
      /\ _versionedDocumentId s' = Some "file:///sample.ts@5".
Proof.
  split.
  - apply (proj1 (outline_refresh_requires_version_agreement
                    OutlineModel.getRegionDisplayName OutlineModel.getRegionRange
                    OutlineModel.getSymbolThemeIconId
                    OutlineModel.generateFullOutlineTreeItems
                    OutlineModel.getActiveFullTreeItem
                    laggingEnvironment publishedState)).
    vm_compute. discriminate.
  - apply (proj1 (proj2 (outline_refresh_requires_version_agreement
                           OutlineModel.getRegionDisplayName OutlineModel.getRegionRange
                           OutlineModel.getSymbolThemeIconId
                           OutlineModel.generateFullOutlineTreeItems
                           OutlineModel.getActiveFullTreeItem
                           agreeingEnvironment publishedState))).
    reflexivity.
Defined.

(** The outline of an unchanged document is published again: the new tree
    and the new active item are equal in value to the previous ones, yet they
    are new objects, and both events have fired once more. *)
Lemma republishing_fires_both_events :
  OutlineModel.refreshFullOutline agreeingEnvironment publishedState
  = Returned republishedState
  /\ sameStructureList (_topLevelItems republishedState)
                       (_topLevelItems publishedState) = true
  /\ sameStructureOpt (_activeItem republishedState) (_activeItem publishedState) = true
  /\ sameObject (_activeItem republishedState) (_activeItem publishedState) = false
  /\ firedDidChangeFullOutlineItems publishedState = 1
  /\ firedDidChangeFullOutlineItems republishedState = 2
  /\ firedDidChangeActiveFullOutlineItem publishedState = 1
  /\ firedDidChangeActiveFullOutlineItem republishedState = 2.
Proof. vm_compute. repeat split. Qed.

(** C2 fails as stated: the refresh of the unchanged sample document returns,
    and neither event is gated by the value it announces. *)
Lemma events_not_gated_by_value :
  OutlineModel.refreshFullOutline agreeingEnvironment publishedState
  = Returned republishedState
  /\ ~ outlineEventGatedByValue publishedState republishedState
  /\ ~ activeEventGatedByValue publishedState republishedState.
Proof.
  destruct republishing_fires_both_events
    as (E & Hitems & Hactive & _ & H1 & H2 & H3 & H4).
  split; [exact E|]. split.
  - intros [Hfires _]. rewrite Hitems, H1, H2 in Hfires.
    assert (Hne : 2 <> 1) by discriminate.
    specialize (Hfires Hne). discriminate Hfires.
  - intros [Hfires _]. rewrite Hactive, H3, H4 in Hfires.
    assert (Hne : 2 <> 1) by discriminate.
    specialize (Hfires Hne). discriminate Hfires.
Qed.

(** C8 fails as stated: the window of the active item is not the shorter. *)
Lemma active_item_window_not_shorter :
  ~ (REFRESH_ACTIVE_ITEM_DEBOUNCE_DELAY_MS < REFRESH_FULL_OUTLINE_DEBOUNCE_DELAY_MS).
Proof.
  unfold REFRESH_ACTIVE_ITEM_DEBOUNCE_DELAY_MS, REFRESH_FULL_OUTLINE_DEBOUNCE_DELAY_MS.
  lia.
Qed.

Lemma selection_change_debounce_and_gate_witness :
  let event :=
    mkSelectionChangeEvent (mkTextEditor 0 sampleDocument (mkPosition 2 0)) in
  let refreshing := set_isRefreshingItems true publishedState in
  onSelectionChange agreeingEnvironment event refreshing = refreshing
  /\ onSelectionChange agreeingEnvironment event publishedState
     = set_refreshActiveItemTimeout (Some (mkTimeout 100)) publishedState.
Proof.
  intros event refreshing. split.
  - apply (proj1 (proj2 (proj2 selection_change_debounce_and_gate))).
    reflexivity.
  - apply (proj2 (proj2 (proj2 selection_change_debounce_and_gate)));
      reflexivity.
Defined.
End StoreScenario.


(* ===================================================================== *)
(** * More on the full-outline store *)
(* ===================================================================== *)
Section SortFacts.
Import JS Vscode SymbolModifiers FullTreeItems FullOutlineStore Statements
       MoreStatements.

Lemma Position_compareTo_le (a b : Position) :
  (Position_compareTo a b <= 0)%Z <-> Position_le a b.
Proof.
  unfold Position_compareTo, Position_le.
  destruct (Nat.ltb_spec (line a) (line b)); [split; [now left | lia]|].
  destruct (Nat.ltb_spec (line b) (line a)); [split; [lia | intros [?|[? _]]; lia]|].
  destruct (Nat.ltb_spec (character a) (character b)); [split; [right | ]; lia|].
  destruct (Nat.ltb_spec (character b) (character a));
    [split; [lia | intros [?|[_ ?]]; lia] | split; [right | ]; lia].
Qed.

Lemma Position_compareTo_gt (a b : Position) :
  ~ (Position_compareTo a b <= 0)%Z -> Position_le b a /\ a <> b.
Proof.
  rewrite Position_compareTo_le. unfold Position_le. intros H. split.
  - lia.
  - intros ->. apply H. right. lia.
Qed.

Lemma Position_le_trans (a b c : Position) :
  Position_le a b -> Position_le b c -> Position_le a c.
Proof. unfold Position_le. lia. Qed.

Lemma sortInsert_byStart_Permutation (x : FullTreeItem) (l : list FullTreeItem) :
  sortInsert (fun a b : FullTreeItem =>
                Position_compareTo (start (FullTreeItems.range a))
                                   (start (FullTreeItems.range b))) x l ≡ₚ x :: l.
Proof.
  induction l as [|y l IH]; simpl; [reflexivity|].
  destruct (_ <=? 0)%Z; [reflexivity|]. rewrite IH. apply perm_swap.
Qed.

Lemma sortInsert_byStart_sorted (x : FullTreeItem) (l : list FullTreeItem) :
  StronglySorted startsNoLater l ->
  StronglySorted startsNoLater (sortInsert (fun a b : FullTreeItem =>
                Position_compareTo (start (FullTreeItems.range a))
                                   (start (FullTreeItems.range b))) x l).
Proof.
  induction 1 as [|y l Hsorted IH Hall]; simpl.
  - repeat constructor.
  - destruct (Z.leb_spec ((fun a b : FullTreeItem =>
                Position_compareTo (start (FullTreeItems.range a))
                                   (start (FullTreeItems.range b))) x y) 0) as [Hle|Hgt].
    + apply Position_compareTo_le in Hle.
      constructor; [now constructor|]. constructor; [exact Hle|].
      eapply Forall_impl; [exact Hall|]. intros z Hz.
      unfold startsNoLater in *. eapply Position_le_trans; eassumption.
    + constructor; [exact IH|].
      rewrite sortInsert_byStart_Permutation. constructor; [|exact Hall].
      apply Position_compareTo_gt. lia.
Qed.

Lemma sortInsert_byStart_stable (p : Position) (x : FullTreeItem)
      (l : list FullTreeItem) :
  filter (fun item => start (FullTreeItems.range item) = p) (sortInsert (fun a b : FullTreeItem =>
                Position_compareTo (start (FullTreeItems.range a))
                                   (start (FullTreeItems.range b))) x l)
  = filter (fun item => start (FullTreeItems.range item) = p) (x :: l).
Proof.
  induction l as [|y l IH]; simpl; [reflexivity|].
  destruct (Z.leb_spec ((fun a b : FullTreeItem =>
                Position_compareTo (start (FullTreeItems.range a))
                                   (start (FullTreeItems.range b))) x y) 0) as [Hle|Hgt]; [reflexivity|].
  assert (Hne : start (FullTreeItems.range x) <> start (FullTreeItems.range y))
    by (apply Position_compareTo_gt; lia).
  rewrite (filter_cons _ y), IH, !(filter_cons _ x), !(filter_cons _ y).
  destruct (decide (start (FullTreeItems.range x) = p)) as [Hx|Hx];
    destruct (decide (start (FullTreeItems.range y) = p)) as [Hy|Hy];
    try reflexivity.
  congruence.
Qed.

(** X10.  [sortFullTreeItemsByStart] orders the items by start position
    (line, then character), keeps them all, and keeps the given order among
    the items that start at one position. *)
Theorem sorting_by_start_is_an_ordered_stable_rearrangement :
  forall items,
    StronglySorted startsNoLater (sortFullTreeItemsByStart items)
    /\ sortFullTreeItemsByStart items ≡ₚ items
    /\ forall p,
         filter (fun item => start (FullTreeItems.range item) = p)
                (sortFullTreeItemsByStart items)
         = filter (fun item => start (FullTreeItems.range item) = p) items.
Proof.
  intros items. unfold sortFullTreeItemsByStart.
  induction items as [|x l (IHs & IHp & IHf)]; simpl.
  - repeat split; constructor.
  - split; [now apply sortInsert_byStart_sorted|]. split.
    + rewrite sortInsert_byStart_Permutation. now constructor.
    + intros p. rewrite sortInsert_byStart_stable, !(filter_cons _ x), IHf.
      reflexivity.
Qed.
End SortFacts.

Section StoreRunFacts.
Import JS Vscode SymbolModifiers ExtractSymbolModifiers FullTreeItems
       FullOutlineStore Statements MoreStatements.

Context {Region CollapsibleStateManager : Type}.
Context (getRegionDisplayName : Region -> string).
Context (getRegionRange : Region -> Range).
Context (getSymbolThemeIconId : SymbolKind -> string).
Context (generateFullOutlineTreeItems :
           list FullTreeItem -> list FullTreeItem -> CollapsibleStateManager ->
           option string -> list FullTreeItem * gset string).
Context (getActiveFullTreeItem :
           list FullTreeItem -> Position -> option FullTreeItem).

Implicit Types (env : Environment Region CollapsibleStateManager) (s : State).

Lemma refreshActiveItem_keeps env s :
  let s' := refreshActiveItem getActiveFullTreeItem env s in
  isRefreshingItems s' = isRefreshingItems s
  /\ modifierCache s' = modifierCache s
  /\ refreshActiveItemTimeout s' = None.
Proof.
  unfold refreshActiveItem. rewrite clearRefreshActiveItemTimeoutIfExists_spec.
  destruct (activeTextEditor env) as [editor|]; simpl; [|repeat split].
  destruct (sameObject _ _); simpl; repeat split.
Qed.

Lemma refreshItems_keeps_cache env s s' :
  refreshItems getRegionDisplayName getRegionRange getSymbolThemeIconId
               generateFullOutlineTreeItems env s = Returned s' ->
  cacheReachable (modifierCache s) ->
  cacheReachable (modifierCache s') /\ isRefreshingItems s' = false.
Proof.
  unfold refreshItems.
  destruct (getFlattenedRegionFullTreeItems _ _ _ _) as [regionItems heap].
  unfold getFlattenedSymbolFullTreeItems.
  match goal with
  | |- context [flattenSymbols ?f ?l ?d ?c ?m ?k ?h] =>
      destruct (flattenSymbols f l d c m k h)
        as [[[symbolItems cache'] heap']|msg] eqn:E; [|discriminate]
  end.
  change (Returned ?x ≫= ?k) with (k x). cbv beta iota.
  destruct (generateFullOutlineTreeItems _ _ _ _) as [topLevelItems allParentIds].
  intros [= <-] Hc. simpl. split; [|reflexivity].
  apply (flattenSymbols_shape _ _ _ _ _ _ _ _ _ _ E). exact Hc.
Qed.

(** X11.  Between two callbacks the store is never in the middle of a
    refresh: in every state the store can be in once a callback has run to
    its end, [isRefreshingItems] is false and the modifier cache holds at
    most 5000 entries.  So the gate of [onSelectionChange] never closes: a
    change of selection in the active editor always starts the timer of the
    active item. *)
Theorem store_is_idle_between_callbacks :
  forall s,
    storeReachable getRegionDisplayName getRegionRange getSymbolThemeIconId
                   generateFullOutlineTreeItems getActiveFullTreeItem s ->
    isRefreshingItems s = false
    /\ Map_size (modifierCache s) <= 5000
    /\ forall env event,
         isActiveTextEditor env (textEditor event) = true ->
         refreshActiveItemTimeout (onSelectionChange env event s)
         = Some (mkTimeout REFRESH_ACTIVE_ITEM_DEBOUNCE_DELAY_MS).
Proof.
  intros s Hreach.
  assert (H : isRefreshingItems s = false /\ cacheReachable (modifierCache s)).
  { induction Hreach as [cache heap Hc|env s s' _ [IHr IHc] Hcall
                         |env event s _ [IHr IHc]|env s _ [IHr IHc]
                         |ofActiveDocument s _ [IHr IHc]|s _ [IHr IHc]
                         |s cache _ [IHr IHc] Hc].
    - now split.
    - unfold refreshFullOutline in Hcall.
      destruct (bool_decide _); [injection Hcall as <-; now split|].
      match type of Hcall with
      | context [refreshItems _ _ _ _ env ?s0] =>
          destruct (refreshItems getRegionDisplayName getRegionRange
                      getSymbolThemeIconId generateFullOutlineTreeItems env s0)
            as [s1|msg] eqn:E; [|discriminate Hcall];
          apply refreshItems_keeps_cache in E as [Hc1 Hr1]; [|exact IHc]
      end.
      change (Returned s1 ≫= ?k) with (k s1) in Hcall. injection Hcall as <-.
      destruct (refreshActiveItem_keeps env s1) as (-> & -> & _). now split.
    - unfold onSelectionChange. rewrite IHr.
      destruct (isActiveTextEditor env (textEditor event)); [|now split].
      unfold debouncedRefreshActiveItem.
      rewrite clearRefreshActiveItemTimeoutIfExists_spec. now split.
    - unfold refreshActiveItemTimeoutElapses.
      destruct (refreshActiveItemTimeout s); [|now split].
      destruct (refreshActiveItem_keeps env s) as (-> & -> & _). now split.
    - unfold onDocumentChange. destruct ofActiveDocument; [|now split].
      rewrite clearRefreshActiveItemTimeoutIfExists_spec. now split.
    - unfold dispose. rewrite clearRefreshActiveItemTimeoutIfExists_spec. now split.
    - now split. }
  destruct H as [Hr Hc]. split; [exact Hr|].
  split; [now apply cacheReachable_invariant|].
  intros env event Hactive. unfold onSelectionChange. rewrite Hr, Hactive.
  reflexivity.
Qed.

(** X12.  The timer of the active item coalesces: a change of selection
    in the active editor that follows another leaves the store as the later
    one alone would; a recomputation of the active item, and so every
    refresh of the outline that passes the version gate, leaves no timer
    pending; and once the timer has elapsed it does not elapse again. *)
Theorem active_item_timer_coalesces :
  forall env s,
    (forall event event',
        isRefreshingItems s = false ->
        onSelectionChange env event' (onSelectionChange env event s)
        = (if isActiveTextEditor env (textEditor event')
           then onSelectionChange env event' s
           else onSelectionChange env event s))
    /\ refreshActiveItemTimeout (refreshActiveItem getActiveFullTreeItem env s) = None
    /\ (forall s',
           rs_versionedDocumentId (regionStore env)
           = ds_versionedDocumentId (documentSymbolStore env) ->
           refreshFullOutline getRegionDisplayName getRegionRange
             getSymbolThemeIconId generateFullOutlineTreeItems
             getActiveFullTreeItem env s = Returned s' ->
           refreshActiveItemTimeout s' = None)
    /\ refreshActiveItemTimeoutElapses getActiveFullTreeItem env
         (refreshActiveItemTimeoutElapses getActiveFullTreeItem env s)
       = refreshActiveItemTimeoutElapses getActiveFullTreeItem env s.
Proof.
  intros env s. split; [|split; [|split]].
  - intros event event' Hr. unfold onSelectionChange. rewrite Hr.
    destruct (isActiveTextEditor env (textEditor event)) eqn:E1;
      destruct (isActiveTextEditor env (textEditor event')) eqn:E2;
      unfold debouncedRefreshActiveItem;
      rewrite ?clearRefreshActiveItemTimeoutIfExists_spec; simpl;
      rewrite ?Hr, ?E1, ?E2; try reflexivity;
      rewrite ?clearRefreshActiveItemTimeoutIfExists_spec; reflexivity.
  - apply refreshActiveItem_keeps.
  - intros s' Heq Hcall. unfold refreshFullOutline in Hcall.
    rewrite bool_decide_eq_false_2 in Hcall by (intros Hne; now apply Hne).
    destruct (refreshItems _ _ _ _ env _) as [s1|msg]; [|discriminate Hcall].
    change (Returned s1 ≫= ?k) with (k s1) in Hcall. injection Hcall as <-.
    apply refreshActiveItem_keeps.
  - unfold refreshActiveItemTimeoutElapses at 2 3.
    destruct (refreshActiveItemTimeout s) eqn:E.
    + unfold refreshActiveItemTimeoutElapses.
      now rewrite (proj2 (proj2 (refreshActiveItem_keeps env s))).
    + unfold refreshActiveItemTimeoutElapses. now rewrite E.
Qed.
End StoreRunFacts.

Section StoreRunWitness.
Import JS Vscode SymbolModifiers FullTreeItems FullOutlineStore Statements
       MoreStatements Scenario.

Lemma publishedState_reachable :
  storeReachable OutlineModel.getRegionDisplayName OutlineModel.getRegionRange
    OutlineModel.getSymbolThemeIconId OutlineModel.generateFullOutlineTreeItems
    OutlineModel.getActiveFullTreeItem publishedState.
Proof.
  apply (store_refreshFullOutline _ _ _ _ _ agreeingEnvironment (initialState [] 0)).
  - apply store_created, reachable_initial.
  - vm_compute. reflexivity.
Defined.

Lemma store_is_idle_between_callbacks_witness :
  isRefreshingItems publishedState = false
  /\ Map_size (modifierCache publishedState) <= 5000.
Proof.
  destruct (store_is_idle_between_callbacks
              OutlineModel.getRegionDisplayName OutlineModel.getRegionRange
              OutlineModel.getSymbolThemeIconId
              OutlineModel.generateFullOutlineTreeItems
              OutlineModel.getActiveFullTreeItem publishedState
              publishedState_reachable) as (H1 & H2 & _).
  split; [exact H1 | exact H2].
Defined.

Lemma active_item_timer_coalesces_witness :
  onSelectionChange agreeingEnvironment
    (mkSelectionChangeEvent (mkTextEditor 0 sampleDocument (mkPosition 0 4)))
    (onSelectionChange agreeingEnvironment
       (mkSelectionChangeEvent (mkTextEditor 0 sampleDocument (mkPosition 2 0)))
       publishedState)
  = onSelectionChange agreeingEnvironment
      (mkSelectionChangeEvent (mkTextEditor 0 sampleDocument (mkPosition 0 4)))
      publishedState
  /\ refreshActiveItemTimeout republishedState = None.
Proof.
  destruct (active_item_timer_coalesces OutlineModel.getRegionDisplayName
              OutlineModel.getRegionRange OutlineModel.getSymbolThemeIconId
              OutlineModel.generateFullOutlineTreeItems
              OutlineModel.getActiveFullTreeItem agreeingEnvironment publishedState)
    as (H1 & _ & H3 & _).
  assert (Hidle : isRefreshingItems publishedState = false)
    by (vm_compute; reflexivity).
  assert (Hcall : refreshFullOutline OutlineModel.getRegionDisplayName
                    OutlineModel.getRegionRange OutlineModel.getSymbolThemeIconId
                    OutlineModel.generateFullOutlineTreeItems
                    OutlineModel.getActiveFullTreeItem agreeingEnvironment
                    publishedState
                  = Returned republishedState)
    by (vm_compute; reflexivity).
  split.
  - exact (H1 (mkSelectionChangeEvent (mkTextEditor 0 sampleDocument (mkPosition 2 0)))
              (mkSelectionChangeEvent (mkTextEditor 0 sampleDocument (mkPosition 0 4)))
              Hidle).
  - exact (H3 republishedState eq_refl Hcall).
Defined.
End StoreRunWitness.
